(** * Data_Parser: the incremental harvesting pipeline of [main_parser.py]

    A shallow embedding of [BaseParser.fetch_data], [BaseParser.save_data],
    [BaseParser.extract_geo_points], [BaseParser.parse_point_data] and
    [BaseParser.save_point_data], with the Python primitives they rely on.

    Conventions of the embedding:
    - a JSON value is a term of [json]; numbers are the integer literals
      (fractional literals carry no identity in this program and are left
      out of the model);
    - a Python exception is a constructor of [exn]; a pure primitive returns
      [result], an effectful method is a computation of the monad [M] over
      the [world] (files on disk, the chronological trace of observable
      events, and the counters of the requests and writes issued so far);
    - the environment ([env]) fixes what the network answers to the n-th
      request, what the disk does at the n-th write, the decoder
      [json.loads] applied to embedded text, and whether the file of a
      logger opens. *)

From Stdlib Require Import ZArith String Ascii List Bool Lia.
From stdpp Require Import base decidable option list gmap strings.
From Stdlib Require Import DecimalString.

Set Warnings "-register-all".
Local Open Scope string_scope.
Local Open Scope Z_scope.
Local Open Scope list_scope.

(** ** JSON values and Python exceptions *)

Inductive json : Type :=
| JNull
| JBool (b : bool)
| JNum (n : Z)
| JStr (s : string)
| JArr (items : list json)
| JObj (fields : list (string * json)).

Inductive exn : Type :=
| KeyError
| TypeError
| AttributeError
| JSONDecodeError
| OSError
| OutOfFuel.   (* not a Python exception: the bound of a modelled loop ran out *)

Inductive result (A : Type) : Type :=
| Ok (a : A)
| Raise (e : exn).
Arguments Ok {A} a.
Arguments Raise {A} e.

Definition rbind {A B} (r : result A) (k : A -> result B) : result B :=
  match r with
  | Ok a => k a
  | Raise e => Raise e
  end.

Declare Scope res_scope.
Delimit Scope res_scope with res.
Notation "'let?' x ':=' r 'in' k" := (rbind r (fun x => k))
  (at level 10, x name, r at level 200, k at level 200) : res_scope.

#[global] Instance exn_eq_dec : EqDecision exn.
Proof. solve_decision. Defined.

#[global] Instance result_eq_dec {A} `{EqDecision A} : EqDecision (result A).
Proof. solve_decision. Defined.

(** ** Python primitives on JSON values *)

Module Py.

(** [bool(v)]: [None], [False], [0], the empty string, list and dict are
    falsy. *)
Definition truthy (v : json) : bool :=
  match v with
  | JNull => false
  | JBool b => b
  | JNum n => negb (n =? 0)
  | JStr s => negb (String.eqb s "")
  | JArr l => match l with [] => false | _ => true end
  | JObj kv => match kv with [] => false | _ => true end
  end.

(** Lookup of a key in a dict kept as an association list in insertion
    order. *)
Fixpoint assoc (k : string) (kv : list (string * json)) : option json :=
  match kv with
  | [] => None
  | (k', v) :: rest => if String.eqb k k' then Some v else assoc k rest
  end.

(** [d[k] = v]: an existing key keeps its position, a new one goes last. *)
Fixpoint assoc_set (k : string) (v : json) (kv : list (string * json))
  : list (string * json) :=
  match kv with
  | [] => [(k, v)]
  | (k', v') :: rest =>
      if String.eqb k k' then (k', v) :: rest
      else (k', v') :: assoc_set k v rest
  end.

(** [del d[k]] for a key that is present. *)
Fixpoint assoc_del (k : string) (kv : list (string * json))
  : list (string * json) :=
  match kv with
  | [] => []
  | (k', v') :: rest =>
      if String.eqb k k' then rest else (k', v') :: assoc_del k rest
  end.

(** [v[k]] with a string subscript. *)
Definition getitem (v : json) (k : string) : result json :=
  match v with
  | JObj kv => match assoc k kv with
               | Some x => Ok x
               | None => Raise KeyError
               end
  | _ => Raise TypeError
  end.

(** [v.get(k, default)]: only a dict has the method. *)
Definition get (v : json) (k : string) (dflt : json) : result json :=
  match v with
  | JObj kv => Ok (match assoc k kv with Some x => x | None => dflt end)
  | _ => Raise AttributeError
  end.

(** The characters of a string, each as a one-character string. *)
Fixpoint chars (s : string) : list json :=
  match s with
  | EmptyString => []
  | String c rest => JStr (String c EmptyString) :: chars rest
  end.

(** [for item in v]: a list yields its items, a dict its keys, a string
    its characters; the other values are not iterable. *)
Definition iter (v : json) : result (list json) :=
  match v with
  | JArr l => Ok l
  | JObj kv => Ok (map (fun p => JStr (fst p)) kv)
  | JStr s => Ok (chars s)
  | _ => Raise TypeError
  end.

(** [len(v)]. *)
Definition len (v : json) : result nat :=
  match v with
  | JArr l => Ok (length l)
  | JObj kv => Ok (length kv)
  | JStr s => Ok (String.length s)
  | _ => Raise TypeError
  end.

(** [v + new] where [new] is a list: defined for a list only. *)
Definition add_list (v : json) (new : list json) : result json :=
  match v with
  | JArr l => Ok (JArr (l ++ new))
  | _ => Raise TypeError
  end.

(** The class of a hashable value under [==]: [True == 1] and
    [False == 0], strings and [None] compare to themselves only. *)
Inductive key : Type :=
| KNone
| KNum (n : Z)
| KStr (s : string).

#[global] Instance key_eq_dec : EqDecision key.
Proof. solve_decision. Defined.

(** [hash(v)]: lists and dicts are unhashable. *)
Definition hash (v : json) : result key :=
  match v with
  | JNull => Ok KNone
  | JBool b => Ok (KNum (if b then 1 else 0))
  | JNum n => Ok (KNum n)
  | JStr s => Ok (KStr s)
  | JArr _ | JObj _ => Raise TypeError
  end.

(** A Python [set] of JSON values: its elements in insertion order, no two
    of them equal under [==]. *)
Definition pyset : Type := list json.

Definition has_key (k : key) (s : pyset) : bool :=
  existsb (fun e => bool_decide (hash e = Ok k)) s.

(** [v in s]: hashes [v] first. *)
Definition set_mem (v : json) (s : pyset) : result bool :=
  (let? k := hash v in Ok (has_key k s))%res.

(** [s.add(v)]: an element equal to [v] already in the set stays. *)
Definition set_add (v : json) (s : pyset) : result pyset :=
  (let? k := hash v in Ok (if has_key k s then s else s ++ [v]))%res.

(** [{key(item) for item in items}]. *)
Fixpoint set_of (key : json -> result json) (items : list json) (acc : pyset)
  : result pyset :=
  match items with
  | [] => Ok acc
  | item :: rest =>
      (let? k := key item in
       let? acc' := set_add k acc in
       set_of key rest acc')%res
  end.

(** [[item for item in items if key(item) not in seen]]. *)
Fixpoint not_in (key : json -> result json) (seen : pyset) (items : list json)
  : result (list json) :=
  match items with
  | [] => Ok []
  | item :: rest =>
      (let? k := key item in
       let? dup := set_mem k seen in
       let? tl := not_in key seen rest in
       Ok (if dup then tl else item :: tl))%res
  end.

(** [v != "..."] against a string literal. *)
Definition ne_str (v : json) (lit : string) : bool :=
  match v with
  | JStr s => negb (String.eqb s lit)
  | _ => true
  end.

(** [sub in s] on strings. *)
Fixpoint substr_of (sub s : string) : bool :=
  String.prefix sub s ||
  match s with
  | EmptyString => false
  | String _ rest => substr_of sub rest
  end.

(** [lit in v] for a string literal [lit]: key of a dict, item of a list,
    substring of a string. *)
Definition contains_str (lit : string) (v : json) : result bool :=
  match v with
  | JObj kv => Ok (bool_decide (is_Some (assoc lit kv)))
  | JArr l => Ok (existsb (fun e => negb (ne_str e lit)) l)
  | JStr s => Ok (substr_of lit s)
  | _ => Raise TypeError
  end.

(** [s.endswith(suffix)]. *)
Definition endswith (s suffix : string) : bool :=
  let n := String.length s in
  let m := String.length suffix in
  (m <=? n)%nat && String.eqb (String.substring (n - m) m s) suffix.

End Py.

(** ** The world: files, observable events, environment *)

(** What a path holds: text that [json.load] parses to [doc]; text it
    rejects (or a file that cannot be read); or the partial text left by an
    [open(..., "w")] whose [json.dump] did not complete, which is a proper
    prefix of a serialisation and is rejected as well. *)
Inductive file : Type :=
| Stored (doc : json)
| Unreadable
| Truncated.

Inductive level : Type := INFO | WARNING | ERROR.

(** The messages of the methods, one constructor per format string. *)
Inductive message : Type :=
| MsgAttempt (n max_attempts : Z) (url : string)            (* fetch_data, info *)
| MsgRequestOk (status : Z)
| MsgNoNodesKey
| MsgTimeout (n max_attempts : Z) (url : string)
| MsgMaxAttempts
| MsgNotFound (url : string)
| MsgRequestError
| MsgNothingToSave (api_name data_type : string)            (* save_data *)
| MsgReadError (filename : string)
| MsgNoNewData (api_name data_type : string)
| MsgFoundNew (n : nat) (api_name data_type : string)
| MsgSaved (filename : string) (total : nat)
| MsgWriteError (filename : string)
| MsgGeoPoint (geo_point : json) (filename : string)        (* extract_geo_points *)
| MsgFileNotFound (filepath : string)
| MsgGeoPointTotal (category : string) (n : nat)
| MsgNoPointData (geo_point url : string)                   (* parse_point_data *)
| MsgPhpError (geo_point : string)
| MsgNoPointToSave (geo_point : string)                     (* save_point_data *)
| MsgNoNewPoint (geo_point : string)
| MsgFoundNewPoint (n : nat) (geo_point : string).

Inductive event : Type :=
| EvLog (lvl : level) (m : message)
| EvPrint (m : message)
| EvJitter                       (* asyncio.sleep(random.uniform(0.5, 2.0)) *)
| EvSleep (seconds : Z)
| EvGet (url : string)
| EvMakedirs (path : string)
| EvOpenRead (path : string)
| EvOpenWrite (path : string).

Record world : Type := World {
  fs : gmap string file;
  trace : list event;
  requests : nat;
  writes : nat
}.

(** What one GET yields: a timeout ([asyncio.TimeoutError]), a transport
    error ([aiohttp.ClientError] other than a response error), or a
    response with its status and body. *)
Inductive body : Type :=
| BodyJson (data : json)
| BodyWrongType          (* ContentTypeError, a ClientResponseError *)
| BodyNotJson.           (* json.JSONDecodeError out of response.json() *)

Inductive response : Type :=
| RespTimeout
| RespClientError
| RespHttp (status : Z) (b : body).

(** What one [open(filename, "w")] followed by [json.dump] does. *)
Inductive write_outcome : Type :=
| WriteOk
| OpenFails
| DumpFails.

(** The environment.  [logs api_name] is what [_setup_logging(api_name)]
    meets when it calls [logging.FileHandler] on
    [logs/<api_name>_parse.log]: [None] when the logger has its handler or
    the file opens, the exception of the constructor when it does not (a
    name with a "/" names a file in a directory that nothing creates). *)
Record env : Type := Env {
  net : nat -> response;
  disk : nat -> write_outcome;
  loads : string -> option json;
  logs : string -> option exn
}.

(** ** The monad of the methods *)

Definition M (A : Type) : Type := world -> result A * world.

Definition ret {A} (a : A) : M A := fun w => (Ok a, w).

Definition raise {A} (e : exn) : M A := fun w => (Raise e, w).

Definition bind {A B} (m : M A) (k : A -> M B) : M B :=
  fun w => match m w with
           | (Ok a, w') => k a w'
           | (Raise e, w') => (Raise e, w')
           end.

(** [try: m except Exception: h]. *)
Definition catch {A} (m : M A) (h : exn -> M A) : M A :=
  fun w => match m w with
           | (Ok a, w') => (Ok a, w')
           | (Raise e, w') => h e w'
           end.

Definition lift {A} (r : result A) : M A := fun w => (r, w).

Declare Scope m_scope.
Delimit Scope m_scope with M.
Notation "x <- m ;; k" := (bind m (fun x => k))
  (at level 100, m at next level, right associativity) : m_scope.
Notation "m ;; k" := (bind m (fun _ => k))
  (at level 100, right associativity) : m_scope.
Local Open Scope m_scope.

Definition emit (e : event) : M unit :=
  fun w => (Ok tt, World (fs w) (trace w ++ [e]) (requests w) (writes w)).

Definition log (lvl : level) (m : message) : M unit := emit (EvLog lvl m).
Definition print (m : message) : M unit := emit (EvPrint m).

(** [os.path.exists(path)]. *)
Definition path_exists (path : string) : M bool :=
  fun w => (Ok (bool_decide (is_Some (fs w !! path))), w).

(** [with open(path, "r") as f: json.load(f)]. *)
Definition load_file (path : string) : M json :=
  emit (EvOpenRead path) ;;
  fun w => match fs w !! path with
           | Some (Stored doc) => (Ok doc, w)
           | Some Unreadable | Some Truncated => (Raise JSONDecodeError, w)
           | None => (Raise OSError, w)
           end.

(** ** BaseParser *)

Record parser : Type := Parser {
  category : string;
  parsed_data : list json;
  retries : Z;
  base_url : string
}.

(** [BaseParser.__init__] with the default [retries = 3]. *)
Definition new_parser (category : string) : parser :=
  Parser category [] 3 "https://orsha-ecokarta.gov.by/api".

Section Methods.

Variable E : env.

(** [session.get(...)] up to [response.json()]: the next answer of the
    network. *)
Definition http_get (url : string) : M response :=
  fun w => (Ok (net E (requests w)),
            World (fs w) (trace w ++ [EvGet url]) (S (requests w)) (writes w)).

(** [with open(path, "w") as f: json.dump(doc, f)]: opening truncates the
    file; a dump that fails leaves the partial text behind. *)
Definition dump_file (path : string) (doc : json) : M unit :=
  fun w =>
    match disk E (writes w) with
    | OpenFails =>
        (Raise OSError, World (fs w) (trace w) (requests w) (S (writes w)))
    | DumpFails =>
        (Raise OSError,
         World (<[path := Truncated]> (fs w)) (trace w ++ [EvOpenWrite path])
               (requests w) (S (writes w)))
    | WriteOk =>
        (Ok tt,
         World (<[path := Stored doc]> (fs w)) (trace w ++ [EvOpenWrite path])
               (requests w) (S (writes w)))
    end.

(** *** _setup_logging (lines 24-33)

    [logging.getLogger(api_name)], to which a handler on the file
    [logs/<api_name>_parse.log] is added when it has none.  The lines of
    the logger are the [EvLog] events of the trace; what the method can
    do besides is raise the exception of [logging.FileHandler]. *)
Definition _setup_logging (api_name : string) : M unit :=
  match logs E api_name with
  | None => ret tt
  | Some e => raise e
  end.

(** *** fetch_data (lines 35-69) *)

(** The [while attempts < max_attempts] loop; [fuel] bounds the number of
    iterations and [Z.to_nat max_attempts] is enough: [fetch_data] never raises [OutOfFuel]
    ([fetch_data_finishes]). *)
Fixpoint fetch_loop (fuel : nat) (self : parser) (api_url : string)
    (attempts : Z) : M json :=
  let max_attempts := retries self in
  if attempts <? max_attempts then
    match fuel with
    | O => raise OutOfFuel
    | S fuel' =>
        log INFO (MsgAttempt (attempts + 1) max_attempts api_url) ;;
        r <- http_get api_url ;;
        match r with
        | RespTimeout =>
            let attempts := attempts + 1 in
            log WARNING (MsgTimeout attempts max_attempts api_url) ;;
            if attempts =? max_attempts then
              log ERROR MsgMaxAttempts ;;
              ret (JArr [])
            else
              emit (EvSleep (2 ^ attempts)) ;;
              fetch_loop fuel' self api_url attempts
        | RespClientError =>
            log ERROR MsgRequestError ;;
            ret (JArr [])
        | RespHttp status b =>
            if 400 <=? status then      (* response.raise_for_status() *)
              (if status =? 404 then log ERROR (MsgNotFound api_url)
               else log ERROR MsgRequestError) ;;
              ret (JArr [])
            else
              log INFO (MsgRequestOk status) ;;
              match b with
              | BodyJson data =>
                  has_nodes <- lift (Py.contains_str "nodes" data) ;;
                  if negb has_nodes then
                    log ERROR MsgNoNodesKey ;;
                    ret (JArr [])
                  else ret data
              | BodyWrongType =>
                  (if status =? 404 then log ERROR (MsgNotFound api_url)
                   else log ERROR MsgRequestError) ;;
                  ret (JArr [])
              | BodyNotJson => raise JSONDecodeError
              end
        end
    end
  else ret (JArr []).

Definition fetch_data (self : parser) (api_name api_url : string)
  : M json :=
  emit EvJitter ;;
  fetch_loop (Z.to_nat (retries self)) self api_url 0.

(** *** save_data (lines 100-137) *)

Definition nid (item : json) : result json := Py.getitem item "Nid".

Definition data_file (self : parser) (api_name data_type : string) : string :=
  category self +:+ "/" +:+ api_name +:+ "_" +:+ data_type +:+ ".json".

(** The [try: ... json.dump ... except Exception] block that ends both
    [save_data] (with [echo = true]: the messages are printed too) and
    [save_point_data]. *)
Definition write_back (echo : bool) (filename : string) (updated_data : json)
  : M unit :=
  catch
    (dump_file filename updated_data ;;
     total <- lift (Py.len updated_data) ;;
     log INFO (MsgSaved filename total) ;;
     if echo then print (MsgSaved filename total) else ret tt)
    (fun _ =>
       log ERROR (MsgWriteError filename) ;;
       if echo then print (MsgWriteError filename) else ret tt).

Definition save_data (self : parser) (api_name data_type : string)
    (initial_parse : bool) : M unit :=
  match parsed_data self with
  | [] =>
      log INFO (MsgNothingToSave api_name data_type) ;;
      print (MsgNothingToSave api_name data_type)
  | _ :: _ =>
      let filename := data_file self api_name data_type in
      present <- path_exists filename ;;
      loaded <-
        (if present && negb initial_parse then
           catch (existing_data <- load_file filename ;; ret (Some existing_data))
                 (fun _ =>
                    log ERROR (MsgReadError filename) ;;
                    print (MsgReadError filename) ;;
                    ret None)
         else ret (Some (JArr []))) ;;
      match loaded with
      | None => ret tt
      | Some existing_data =>
          merged <-
            (if initial_parse then ret (Some (JArr (parsed_data self)))
             else
               items <- lift (Py.iter existing_data) ;;
               existing_nids <- lift (Py.set_of nid items []) ;;
               new_records <- lift (Py.not_in nid existing_nids (parsed_data self)) ;;
               match new_records with
               | [] =>
                   log INFO (MsgNoNewData api_name data_type) ;;
                   print (MsgNoNewData api_name data_type) ;;
                   ret None
               | _ :: _ =>
                   updated_data <- lift (Py.add_list existing_data new_records) ;;
                   log INFO (MsgFoundNew (length new_records) api_name data_type) ;;
                   ret (Some updated_data)
               end) ;;
          match merged with
          | None => ret tt
          | Some updated_data => write_back true filename updated_data
          end
      end
  end.

(** *** save_point_data (lines 207-244) *)

Definition period (item : json) : result json :=
  (let? node := Py.getitem item "node" in Py.getitem node "field_period")%res.

(** [os.path.join] of a directory and a relative name. *)
Definition path_join (dir name : string) : string := dir +:+ "/" +:+ name.

Definition point_file (self : parser) (geo_point : string) : string :=
  path_join (path_join (category self) "point_data")
            ("point_" +:+ geo_point +:+ ".json").

Definition save_point_data (self : parser) (geo_point : string) (data : json)
    (initial_parse : bool) : M unit :=
  nodes_opt <-
    (if Py.truthy data then lift (Py.get data "nodes" JNull) else ret JNull) ;;
  if negb (Py.truthy nodes_opt) then
    log INFO (MsgNoPointToSave geo_point)
  else
    let point_data_dir := path_join (category self) "point_data" in
    emit (EvMakedirs point_data_dir) ;;
    let filename := point_file self geo_point in
    present <- path_exists filename ;;
    loaded <-
      (if present && negb initial_parse then
         catch (existing_data <- load_file filename ;; ret (Some existing_data))
               (fun _ => log ERROR (MsgReadError filename) ;; ret None)
       else ret (Some (JArr []))) ;;
    match loaded with
    | None => ret tt
    | Some existing_data =>
        merged <-
          (if initial_parse then
             nodes <- lift (Py.getitem data "nodes") ;;
             ret (Some nodes)
           else
             items <- lift (Py.iter existing_data) ;;
             existing_periods <- lift (Py.set_of period items []) ;;
             nodes <- lift (Py.getitem data "nodes") ;;
             fetched <- lift (Py.iter nodes) ;;
             new_nodes <- lift (Py.not_in period existing_periods fetched) ;;
             match new_nodes with
             | [] =>
                 log INFO (MsgNoNewPoint geo_point) ;;
                 ret None
             | _ :: _ =>
                 updated_data <- lift (Py.add_list existing_data new_nodes) ;;
                 log INFO (MsgFoundNewPoint (length new_nodes) geo_point) ;;
                 ret (Some updated_data)
             end) ;;
        match merged with
        | None => ret tt
        | Some updated_data => write_back false filename updated_data
        end
    end.

(** *** extract_geo_points (lines 139-180) *)

(** [os.listdir(dir)]: the names of the files directly in [dir].  The
    sub-directories of a category are left out: the program creates only
    [point_data], which no suffix [_<data_type>.json] matches. *)
Definition entry_of (dir path : string) : option string :=
  let root := dir +:+ "/" in
  if String.prefix root path then
    let name := String.substring (String.length root)
                  (String.length path - String.length root) path in
    if Py.substr_of "/" name then None else Some name
  else None.

Definition listdir (dir : string) : M (list string) :=
  fun w => (Ok (omap (fun p => entry_of dir (fst p)) (map_to_list (fs w))), w).

(** A [for item in items] loop over a set that the body extends: when the
    body raises, the loop stops with the exception and the set keeps what
    was added so far. *)
Fixpoint for_items (body : json -> Py.pyset -> M Py.pyset) (items : list json)
    (geo_points : Py.pyset) : M (Py.pyset * option exn) :=
  match items with
  | [] => ret (geo_points, None)
  | item :: rest =>
      fun w => match body item geo_points w with
               | (Ok geo_points', w') => for_items body rest geo_points' w'
               | (Raise e, w') => (Ok (geo_points, Some e), w')
               end
  end.

(** The [try: with open(filepath) ... for item in data: ... except
    Exception] block of both branches. *)
Definition scan_file (filepath : string)
    (body : json -> Py.pyset -> M Py.pyset) (geo_points : Py.pyset)
  : M Py.pyset :=
  fun w =>
    match (data <- load_file filepath ;; lift (Py.iter data)) w with
    | (Raise _, w') => (log ERROR (MsgReadError filepath) ;; ret geo_points) w'
    | (Ok items, w') =>
        (r <- for_items body items geo_points ;;
         match r with
         | (geo_points', None) => ret geo_points'
         | (geo_points', Some _) =>
             log ERROR (MsgReadError filepath) ;; ret geo_points'
         end) w'
    end.

Definition water_body (filename : string) (item : json)
    (geo_points : Py.pyset) : M Py.pyset :=
  geo_point <- lift (Py.get item "field_geo_point" (JStr "")) ;;
  if Py.truthy geo_point && Py.ne_str geo_point "Unknown" then
    geo_points' <- lift (Py.set_add geo_point geo_points) ;;
    log INFO (MsgGeoPoint geo_point filename) ;;
    ret geo_points'
  else ret geo_points.

Definition other_body (item : json) (geo_points : Py.pyset) : M Py.pyset :=
  fallback <- lift (Py.get item "Nid" (JStr "")) ;;
  geo_point <- lift (Py.get item "field_geo_point" fallback) ;;
  if Py.truthy geo_point && Py.ne_str geo_point "Unknown" then
    lift (Py.set_add geo_point geo_points)
  else ret geo_points.

Definition target_files : list string :=
  ["nsmos_substances_substances.json";
   "esawage_surface_substances_substances.json"].

Fixpoint scan_targets (self : parser) (filenames : list string)
    (geo_points : Py.pyset) : M Py.pyset :=
  match filenames with
  | [] => ret geo_points
  | filename :: rest =>
      let filepath := path_join (category self) filename in
      present <- path_exists filepath ;;
      geo_points' <-
        (if present then scan_file filepath (water_body filename) geo_points
         else log WARNING (MsgFileNotFound filepath) ;; ret geo_points) ;;
      scan_targets self rest geo_points'
  end.

Fixpoint scan_listing (self : parser) (data_type : string)
    (filenames : list string) (geo_points : Py.pyset) : M Py.pyset :=
  match filenames with
  | [] => ret geo_points
  | filename :: rest =>
      geo_points' <-
        (if Py.endswith filename ("_" +:+ data_type +:+ ".json") then
           scan_file (path_join (category self) filename) other_body geo_points
         else ret geo_points) ;;
      scan_listing self data_type rest geo_points'
  end.

Definition extract_geo_points (self : parser) (data_type : string)
  : M Py.pyset :=
  geo_points <-
    (if String.eqb (category self) "water" then
       scan_targets self target_files []
     else
       filenames <- listdir (category self) ;;
       scan_listing self data_type filenames []) ;;
  log INFO (MsgGeoPointTotal (category self) (length geo_points)) ;;
  ret geo_points.

(** *** parse_point_data (lines 182-205) *)

(** The body of [for item in data["nodes"]]: the node is updated in place,
    so the item comes back with its "node" replaced. *)
Definition expand_php (geo_point : string) (item : json) : M json :=
  node <- lift (Py.get item "node" (JObj [])) ;;
  php_data <- lift (Py.get node "php" (JStr "")) ;;
  if Py.truthy php_data then
    match php_data, node, item with
    | JStr text, JObj node_fields, JObj item_fields =>
        match loads E text with
        | Some substances =>
            let node' := Py.assoc_del "php"
                           (Py.assoc_set "substances" substances node_fields) in
            ret (JObj (Py.assoc_set "node" (JObj node') item_fields))
        | None =>
            log ERROR (MsgPhpError geo_point) ;;
            let node' := Py.assoc_set "substances" (JArr []) node_fields in
            ret (JObj (Py.assoc_set "node" (JObj node') item_fields))
        end
    | _, _, _ => raise TypeError      (* json.loads of a value that is no text *)
    end
  else ret item.

Fixpoint expand_all (geo_point : string) (items : list json) : M (list json) :=
  match items with
  | [] => ret []
  | item :: rest =>
      item' <- expand_php geo_point item ;;
      rest' <- expand_all geo_point rest ;;
      ret (item' :: rest')
  end.

Definition parse_point_data (self : parser) (geo_point : string) : M json :=
  let api_name := "sources_values_" +:+ geo_point in
  let api_url := base_url self +:+ "/sources_values?geo_point=" +:+ geo_point in
  _setup_logging api_name ;;
  data <- fetch_data self api_name api_url ;;
  nodes_opt <-
    (if Py.truthy data then lift (Py.get data "nodes" JNull) else ret JNull) ;;
  if negb (Py.truthy nodes_opt) then
    log INFO (MsgNoPointData geo_point api_url) ;;
    ret (JObj [])
  else
    nodes <- lift (Py.getitem data "nodes") ;;
    items <- lift (Py.iter nodes) ;;
    items' <- expand_all geo_point items ;;
    ret (match data, nodes with
         | JObj fields, JArr _ => JObj (Py.assoc_set "nodes" (JArr items') fields)
         | _, _ => data
         end).

End Methods.

(** * Vocabulary of the statements *)

(** ** Observations on traces *)

(** The network activity of a trace: its requests and its back-off sleeps,
    in order. *)
Definition is_activity (e : event) : bool :=
  match e with
  | EvGet _ | EvSleep _ => true
  | _ => false
  end.

Definition activity (t : list event) : list event := List.filter is_activity t.

(** [n] requests to [url] with a sleep of [2^k], [2^(k+1)], ... seconds
    between consecutive ones. *)
Fixpoint backoff (url : string) (k : Z) (n : nat) : list event :=
  match n with
  | O => []
  | S O => [EvGet url]
  | S n' => EvGet url :: EvSleep (2 ^ k) :: backoff url (k + 1) n'
  end.

Definition files_written (t : list event) : list string :=
  omap (fun e => match e with EvOpenWrite p => Some p | _ => None end) t.

Definition files_read (t : list event) : list string :=
  omap (fun e => match e with EvOpenRead p => Some p | _ => None end) t.

(** A response that the loop does not retry: a transport error, an error
    status, or a body of the wrong content type. *)
Definition fatal (r : response) : Prop :=
  match r with
  | RespTimeout => False
  | RespClientError => True
  | RespHttp status b => 400 <= status \/ b = BodyWrongType
  end.

Definition fatal_message (api_url : string) (r : response) : message :=
  match r with
  | RespHttp status _ =>
      if status =? 404 then MsgNotFound api_url else MsgRequestError
  | _ => MsgRequestError
  end.

(** ** Identity keys

    The identity of a record under an accessor ([nid] for the collection
    files, [period] for the point files): the class of the accessed value
    under [==], when the record has the field and the value is hashable. *)

Definition key_of (key : json -> result json) (item : json) : option Py.key :=
  match key item with
  | Ok v => match Py.hash v with
            | Ok k => Some k
            | Raise _ => None
            end
  | Raise _ => None
  end.

Definition keyed (key : json -> result json) (item : json) : Prop :=
  is_Some (key_of key item).

(** The identity keys carried by the records of a list, in order. *)
Definition keys (key : json -> result json) (l : list json) : list Py.key :=
  omap (key_of key) l.

(** The records of [batch] whose identity is not among those of
    [existing], in their original order. *)
Definition fresh (key : json -> result json) (existing batch : list json)
  : list json :=
  filter (fun item => key_of key item ∉ key_of key <$> existing) batch.

(** The records of a stored document. *)
Definition records (doc : json) : list json :=
  match doc with
  | JArr l => l
  | _ => []
  end.

(** ** Writing back

    What the closing [try] block of a merge leaves behind, by what the
    disk does: the failure of a write is caught and logged whatever it is,
    and only a failure to open leaves the file as it was. *)

Definition echoed (echo : bool) (m : message) : list event :=
  if echo then [EvPrint m] else [].

Definition written (E : env) (echo : bool) (filename : string) (doc : json)
    (w : world) : world :=
  match disk E (writes w) with
  | WriteOk =>
      let report :=
        match Py.len doc with
        | Ok total => EvLog INFO (MsgSaved filename total)
                        :: echoed echo (MsgSaved filename total)
        | Raise _ => EvLog ERROR (MsgWriteError filename)
                        :: echoed echo (MsgWriteError filename)
        end in
      World (<[filename := Stored doc]> (fs w))
            (trace w ++ EvOpenWrite filename :: report)
            (requests w) (S (writes w))
  | OpenFails =>
      World (fs w)
            (trace w ++ EvLog ERROR (MsgWriteError filename)
                     :: echoed echo (MsgWriteError filename))
            (requests w) (S (writes w))
  | DumpFails =>
      World (<[filename := Truncated]> (fs w))
            (trace w ++ EvOpenWrite filename
                     :: EvLog ERROR (MsgWriteError filename)
                     :: echoed echo (MsgWriteError filename))
            (requests w) (S (writes w))
  end.

(** ** Outcomes of a merge

    [stored o existing]: the target holds the snapshot [existing], or is
    absent and [existing] is empty. *)

Definition stored (o : option file) (existing : list json) : Prop :=
  o = Some (Stored (JArr existing)) \/ (o = None /\ existing = []).

(** The world after more events and nothing else. *)
Definition logged (w : world) (evs : list event) : world :=
  World (fs w) (trace w ++ evs) (requests w) (writes w).

(** A merge either attempts no write at all, or writes back a document:
    the whole batch in initial mode, the snapshot followed by the fresh
    records of the batch in incremental mode. *)
Definition merge_cases (E : env) (key : json -> result json) (echo : bool)
    (filename : string) (batch : json) (initial_parse : bool)
    (w : world) (out : result unit * world) : Prop :=
  (exists r evs, out = (r, logged w evs) /\ files_written evs = [])
  \/
  (exists evs doc,
     out = (Ok tt, written E echo filename doc (logged w evs)) /\
     files_written evs = [] /\
     ((initial_parse = true /\ doc = batch) \/
      (initial_parse = false /\
       exists existing,
         stored (fs w !! filename) existing /\
         Forall (keyed key) existing /\
         Forall (keyed key) (records batch) /\
         doc = JArr (existing ++ fresh key existing (records batch))))).

(** [data.get("nodes")], or [None] when [data] is no dict. *)
Definition nodes_of (data : json) : json :=
  match Py.get data "nodes" JNull with
  | Ok nodes => nodes
  | Raise _ => JNull
  end.

(** The target exists and [json.load] fails on it. *)
Definition unreadable (o : option file) : Prop :=
  o = Some Unreadable \/ o = Some Truncated.

(** ** Sequences of merges *)

Inductive merge : Type :=
| SaveData (self : parser) (api_name data_type : string) (initial_parse : bool)
| SavePointData (self : parser) (geo_point : string) (data : json)
    (initial_parse : bool).

Definition perform (E : env) (op : merge) : M unit :=
  match op with
  | SaveData self api_name data_type initial_parse =>
      save_data E self api_name data_type initial_parse
  | SavePointData self geo_point data initial_parse =>
      save_point_data E self geo_point data initial_parse
  end.

(** The world after a sequence of merges; a merge that raises ends alone,
    the next one starts from the world it left. *)
Definition after (E : env) (ops : list merge) (w : world) : world :=
  fold_left (fun w op => snd (perform E op w)) ops w.

Definition target (op : merge) : string :=
  match op with
  | SaveData self api_name data_type _ => data_file self api_name data_type
  | SavePointData self geo_point _ _ => point_file self geo_point
  end.

Definition mode (op : merge) : bool :=
  match op with
  | SaveData _ _ _ initial_parse => initial_parse
  | SavePointData _ _ _ initial_parse => initial_parse
  end.

(** The records handed to a merge. *)
Definition batch_of (op : merge) : list json :=
  match op with
  | SaveData self _ _ _ => parsed_data self
  | SavePointData _ _ data _ => records (nodes_of data)
  end.

Definition on_collection (op : merge) : Prop :=
  match op with SaveData _ _ _ _ => True | SavePointData _ _ _ _ => False end.

Definition on_point (op : merge) : Prop :=
  match op with SaveData _ _ _ _ => False | SavePointData _ _ _ _ => True end.

(** No two records of the snapshot held by a file share an identity. *)
Definition unique (key : json -> result json) (o : option file) : Prop :=
  match o with
  | Some (Stored doc) => NoDup (keys key (records doc))
  | _ => True
  end.

(** ** Sets of geo points

    The identity of a set element is its own class under [==]. *)

Definition itself (v : json) : result json := Ok v.

(** A set as [extract_geo_points] builds it: hashable elements, no two of
    them equal, none of them empty or the sentinel "Unknown". *)
Definition discovered (s : Py.pyset) : Prop :=
  Forall (keyed itself) s /\
  NoDup (keys itself s) /\
  Forall (fun v => Py.truthy v = true /\ v <> JStr "Unknown") s.

(** ** Embedded sub-documents *)

(** The text of the "php" field of the node of an item, when it is a
    non-empty string. *)
Definition php_text (item : json) : option string :=
  match item with
  | JObj item_fields =>
      match Py.assoc "node" item_fields with
      | Some (JObj node_fields) =>
          match Py.assoc "php" node_fields with
          | Some (JStr text) => if String.eqb text "" then None else Some text
          | _ => None
          end
      | _ => None
      end
  | _ => None
  end.

(** The item with the "substances" of its node set to the empty list, and
    nothing else changed. *)
Definition degraded (item : json) : json :=
  match item with
  | JObj item_fields =>
      match Py.assoc "node" item_fields with
      | Some (JObj node_fields) =>
          JObj (Py.assoc_set "node"
                  (JObj (Py.assoc_set "substances" (JArr []) node_fields))
                  item_fields)
      | _ => item
      end
  | _ => item
  end.

(** The "substances" of the node of an item. *)
Definition substances_of (item : json) : result json :=
  (let? node := Py.getitem item "node" in Py.getitem node "substances")%res.

(** The "php" of the node of an item. *)
Definition php_of (item : json) : result json :=
  (let? node := Py.getitem item "node" in Py.getitem node "php")%res.

(** The file of the logger [api_name] opens, or the logger has its
    handler: [_setup_logging(api_name)] raises nothing. *)
Definition opens (E : env) (api_name : string) : Prop := logs E api_name = None.

(** An item of a response on which the expansion of "php" raises nothing:
    a dict whose "node", if any, is a dict whose "php", if any, is empty or
    a string. *)
Definition expandable (item : json) : Prop :=
  exists node php_data,
    Py.get item "node" (JObj []) = Ok node /\
    Py.get node "php" (JStr "") = Ok php_data /\
    (Py.truthy php_data = false \/ exists text, php_data = JStr text).

(** What the body of a scanning loop may do: extend the set and log, or
    raise and leave the world as it is. *)
Definition scanning_body (body : json -> Py.pyset -> M Py.pyset) : Prop :=
  forall item s w,
    discovered s ->
    (exists s' evs,
       body item s w = (Ok s', logged w evs) /\ files_read evs = [] /\
       discovered s') \/
    (exists e, body item s w = (Raise e, w)).

(** What the expansion does to one item: it returns an item of the same
    period, and a non-empty text that does not decode gives the degraded
    item and one error in the log. *)
Definition expanded (E : env) (geo_point : string) (item item' : json)
    (evs : list event) : Prop :=
  period item' = period item /\
  forall text,
    php_text item = Some text -> loads E text = None ->
    item' = degraded item /\ evs = [EvLog ERROR (MsgPhpError geo_point)].

(** ** Scenarios

    Concrete environments, worlds and records used to exercise the
    statements below. *)

Definition record (n : Z) : json := JObj [("Nid", JNum n)].

Definition world0 : world := World ∅ [] 0 0.

(** A directory [logs] without sub-directories: the file of a logger
    opens unless its name has a "/". *)
Definition logs_dir (api_name : string) : option exn :=
  if Py.substr_of "/" api_name then Some OSError else None.

(** A network on which every request times out, over a disk that works. *)
Definition env_timeouts : env :=
  Env (fun _ => RespTimeout) (fun _ => WriteOk) (fun _ => None) logs_dir.

(** A network that answers every request with the status 404. *)
Definition env_not_found : env :=
  Env (fun _ => RespHttp 404 BodyWrongType) (fun _ => WriteOk) (fun _ => None)
      logs_dir.

(** A parser of the category "air" holding [batch] as its parsed data. *)
Definition air (batch : list json) : parser :=
  Parser "air" batch 3 "https://orsha-ecokarta.gov.by/api".

(** A world whose only file is [path], holding [f]. *)
Definition world_with (path : string) (f : file) : world :=
  World {[ path := f ]} [] 0 0.

(** A disk on which every dump breaks off after the file was opened. *)
Definition env_dump_fails : env :=
  Env (fun _ => RespTimeout) (fun _ => DumpFails) (fun _ => None) logs_dir.

(** A disk on which no file can be opened for writing. *)
Definition env_open_fails : env :=
  Env (fun _ => RespTimeout) (fun _ => OpenFails) (fun _ => None) logs_dir.

(** A node wrapper of the point files, with its period. *)
Definition point (p : string) : json :=
  JObj [("node", JObj [("field_period", JStr p)])].

(** A world whose collection file is garbled and whose point file was
    left truncated. *)
Definition world_unreadable : world :=
  World (<["air/ala_place_data.json" := Unreadable]>
           {["air/point_data/point_7.json" := Truncated]}) [] 0 0.

(** Two harvests of the collection "ala_place": the first in initial
    mode, the second incremental and overlapping the first. *)
Definition two_harvests : list merge :=
  [SaveData (air [record 1; record 2]) "ala_place" "data" true;
   SaveData (air [record 2; record 3]) "ala_place" "data" false].

(** Two incremental harvests of the point "7". *)
Definition two_point_harvests : list merge :=
  [SavePointData (air []) "7" (JObj [("nodes", JArr [point "2020"; point "2021"])])
     false;
   SavePointData (air []) "7" (JObj [("nodes", JArr [point "2021"; point "2022"])])
     false].

Definition geo (s : string) : json := JObj [("field_geo_point", JStr s)].

(** The category "water" with its two substance collections, which hold
    the geo points "A", "Unknown" and "B", "A", and a third collection of
    the same suffix. *)
Definition world_water : world :=
  World (<["water/nsmos_substances_substances.json" :=
             Stored (JArr [geo "A"; geo "Unknown"])]>
         (<["water/esawage_surface_substances_substances.json" :=
             Stored (JArr [geo "B"; geo "A"])]>
          {["water/ground_substances.json" := Stored (JArr [geo "C"])]}))
        [] 0 0.

(** A network that answers with one node whose "php" is no JSON text, and
    a decoder that rejects it. *)
Definition malformed_node : json :=
  JObj [("node", JObj [("field_period", JStr "2020");
                       ("php", JStr "not valid json")])].

Definition env_malformed : env :=
  Env (fun _ => RespHttp 200 (BodyJson (JObj [("nodes", JArr [malformed_node])])))
      (fun _ => WriteOk)
      (fun _ => None) logs_dir.

(** A network that answers with the same node and a sibling whose "php"
    is the number 5. *)
Definition env_sibling : env :=
  Env (fun _ => RespHttp 200 (BodyJson (JObj [("nodes",
         JArr [malformed_node;
               JObj [("node", JObj [("field_period", JStr "2021");
                                    ("php", JNum 5)])]])])))
      (fun _ => WriteOk)
      (fun _ => None) logs_dir.

(** ** Further vocabulary: the retry loop *)

(** [n] requests to [url], each followed by its back-off sleep of [2^k],
    [2^(k+1)], ... seconds. *)
Fixpoint retried (url : string) (k : Z) (n : nat) : list event :=
  match n with
  | O => []
  | S n' => EvGet url :: EvSleep (2 ^ k) :: retried url (k + 1) n'
  end.

(** The number of requests of a trace. *)
Definition gets (t : list event) : nat :=
  length (List.filter (fun e => match e with EvGet _ => true | _ => false end) t).

(** A JSON value that is no container: [in] raises on it. *)
Definition scalar (v : json) : Prop :=
  match v with
  | JNull | JBool _ | JNum _ => True
  | _ => False
  end.

(** A network that times out once and then serves a document with two
    nodes. *)
Definition env_recovers : env :=
  Env (fun i => match i with
                | O => RespTimeout
                | _ => RespHttp 200 (BodyJson (JObj [("nodes",
                         JArr [point "2020"; point "2021"])]))
                end)
      (fun _ => WriteOk) (fun _ => None) logs_dir.

(** A network whose answers are the JSON number 5. *)
Definition env_scalar : env :=
  Env (fun _ => RespHttp 200 (BodyJson (JNum 5))) (fun _ => WriteOk)
      (fun _ => None) logs_dir.

(** ** Further vocabulary: merges *)

(** The read that an incremental merge makes of its target, when there is
    one. *)
Definition reading (o : option file) (filename : string) : list event :=
  match o with
  | Some _ => [EvOpenRead filename]
  | None => []
  end.

(** The exceptions of a subscript or of a hash. *)
Definition lookup_error (e : exn) : Prop := e = KeyError \/ e = TypeError.

(** A node wrapper without a period. *)
Definition point_without_period : json :=
  JObj [("node", JObj [("title", JStr "n")])].

(** ** The fan-out loop of [parse] (lines 575-577, 693-695, 830-832,
    967-969)

    [for geo_point in geo_points: point_data = await
    self.parse_point_data(geo_point, session);
    self.save_point_data(geo_point, point_data, initial_parse)], over geo
    points that are strings, in the order in which the set yields them.
    Nothing catches what the two calls raise. *)
Fixpoint fan_out (E : env) (self : parser) (geo_points : list string)
    (initial_parse : bool) : M unit :=
  match geo_points with
  | [] => ret tt
  | geo_point :: rest =>
      point_data <- parse_point_data E self geo_point ;;
      save_point_data E self geo_point point_data initial_parse ;;
      fan_out E self rest initial_parse
  end.

(** The URL that [parse_point_data] requests for a geo point. *)
Definition point_url (self : parser) (geo_point : string) : string :=
  base_url self +:+ "/sources_values?geo_point=" +:+ geo_point.

(** The URLs requested along a trace, in order. *)
Definition requested (t : list event) : list string :=
  omap (fun e => match e with EvGet url => Some url | _ => None end) t.

(** A network whose first answer is no JSON text. *)
Definition env_not_json : env :=
  Env (fun _ => RespHttp 200 BodyNotJson) (fun _ => WriteOk) (fun _ => None)
      logs_dir.

(** ** Further vocabulary: expansion of "php" *)

(** The item with the "substances" of its node set to the decoded
    document and the "php" of its node deleted. *)
Definition with_substances (item substances : json) : json :=
  match item with
  | JObj item_fields =>
      match Py.assoc "node" item_fields with
      | Some (JObj node_fields) =>
          JObj (Py.assoc_set "node"
                  (JObj (Py.assoc_del "php"
                           (Py.assoc_set "substances" substances node_fields)))
                  item_fields)
      | _ => item
      end
  | _ => item
  end.

(** A node whose "php" is the text "[]", and a decoder that knows this
    text only. *)
Definition node_with_php : json :=
  JObj [("node", JObj [("field_period", JStr "2020"); ("php", JStr "[]")])].

Definition env_decodes : env :=
  Env (fun _ => RespHttp 200
                  (BodyJson (JObj [("nodes", JArr [node_with_php; point "2021"])])))
      (fun _ => WriteOk)
      (fun text => if String.eqb text "[]" then Some (JArr []) else None)
      logs_dir.

(** A network that serves two nodes without "php". *)
Definition env_plain : env :=
  Env (fun _ => RespHttp 200
                  (BodyJson (JObj [("nodes", JArr [point "2020"; point "2021"])])))
      (fun _ => WriteOk) (fun _ => None) logs_dir.

(** ** Further vocabulary: geo-point discovery *)

(** The value that the scan of "water" takes from an item: its
    "field_geo_point", unless it is missing, empty or "Unknown". *)
Definition water_value (item : json) : option json :=
  match Py.get item "field_geo_point" (JStr "") with
  | Ok v => if Py.truthy v && Py.ne_str v "Unknown" then Some v else None
  | Raise _ => None
  end.

(** The value that the scan of the other categories takes: the
    "field_geo_point", and the "Nid" of the items that have none. *)
Definition other_value (item : json) : option json :=
  match Py.get item "Nid" (JStr "") with
  | Ok fallback =>
      match Py.get item "field_geo_point" fallback with
      | Ok v => if Py.truthy v && Py.ne_str v "Unknown" then Some v else None
      | Raise _ => None
      end
  | Raise _ => None
  end.

(** An item on which the scan raises nothing: a dict whose value, if it
    is taken, is hashable. *)
Definition clean (value : json -> option json) (item : json) : Prop :=
  (exists fields, item = JObj fields) /\
  forall v, value item = Some v -> exists k, Py.hash v = Ok k.

(** [v] is the value of an item of the document stored at [filepath]. *)
Definition from_file (w : world) (value : json -> option json)
    (filepath : string) (v : json) : Prop :=
  exists doc items item,
    fs w !! filepath = Some (Stored doc) /\ Py.iter doc = Ok items /\
    item ∈ items /\ value item = Some v.

(** The second set holds every class of the first. *)
Definition grows (s s' : Py.pyset) : Prop :=
  forall k, Py.has_key k s = true -> Py.has_key k s' = true.

(** What a scanning body does with respect to the values it takes. *)
Definition takes (body : json -> Py.pyset -> M Py.pyset)
    (value : json -> option json) : Prop :=
  forall item s w,
    (exists s' evs,
       body item s w = (Ok s', logged w evs) /\
       grows s s' /\
       (forall v, v ∈ s' -> v ∈ s \/ value item = Some v) /\
       (forall v k, value item = Some v -> Py.hash v = Ok k ->
                    Py.has_key k s' = true)) \/
    ((exists e, body item s w = (Raise e, w)) /\ ~ clean value item).

(** The value that discovery takes from an item of a collection. *)
Definition taken (self : parser) : json -> option json :=
  if String.eqb (category self) "water" then water_value else other_value.

(** The collections that discovery scans: the two named ones for "water";
    for another category those directly in its directory whose name ends
    in [_<data_type>.json]. *)
Definition scanned (self : parser) (data_type filename : string) : Prop :=
  if String.eqb (category self) "water" then filename ∈ target_files
  else Py.substr_of "/" filename = false /\
       Py.endswith filename ("_" +:+ data_type +:+ ".json") = true.

(** The category "soils" with a place collection (one item has no
    "field_geo_point") and a garbled one. *)
Definition world_soils : world :=
  World (<["soils/mcclb_territories_place.json" :=
             Stored (JArr [geo "A"; JObj [("Nid", JStr "17")]; geo "Unknown"])]>
          {["soils/mchcl_settlements_place.json" := Unreadable]})
        [] 0 0.

(** ** extract_year (lines 71-83)

    Strings are sequences of bytes, as everywhere in this development; the
    whitespace of [str.split] and the digits of [str.isdigit] and of [\d]
    are the ASCII ones.  A period that holds other Unicode whitespace or
    digits is outside the model: what is stated of every period is stated
    of those that are [Str.isascii]. *)

Module Str.

(** [c.isspace()] on ASCII: tab to carriage return, the four separators
    28 to 31, and the space. *)
Definition is_space (c : ascii) : bool :=
  let n := nat_of_ascii c in
  ((9 <=? n) && (n <=? 13) || (28 <=? n) && (n <=? 32))%nat.

(** [c.isdigit()] on ASCII. *)
Definition is_digit (c : ascii) : bool :=
  let n := nat_of_ascii c in ((48 <=? n) && (n <=? 57))%nat.

(** [s.isascii()]: no byte above 127.  On such a string the whitespace
    of [str.split] and [str.strip] and the digits of [str.isdigit] and of
    [\d] are those of [is_space] and [is_digit], and no others. *)
Fixpoint isascii (s : string) : bool :=
  match s with
  | EmptyString => true
  | String c rest => (nat_of_ascii c <? 128)%nat && isascii rest
  end.

(** [s + c]. *)
Definition snoc (s : string) (c : ascii) : string := s +:+ String c "".

(** [s.split()]: the maximal runs of characters that are no whitespace;
    [cur] is the run being read. *)
Fixpoint split_go (cur : string) (s : string) : list string :=
  match s with
  | EmptyString => match cur with EmptyString => [] | _ => [cur] end
  | String c rest =>
      if is_space c then
        match cur with
        | EmptyString => split_go "" rest
        | _ => cur :: split_go "" rest
        end
      else split_go (snoc cur c) rest
  end.

Definition split (s : string) : list string := split_go "" s.

Fixpoint all_digits (s : string) : bool :=
  match s with
  | EmptyString => true
  | String c rest => is_digit c && all_digits rest
  end.

(** [s.isdigit()]: no character but digits, and one at least. *)
Definition isdigit (s : string) : bool :=
  match s with
  | EmptyString => false
  | _ => all_digits s
  end.

(** [re.match(r"\d{2}\.\d{2}\.\d{4}", s)]: the pattern at the start of the
    string, whatever follows. *)
Definition starts_with_date (s : string) : bool :=
  match s with
  | String a (String b (String "." (String c (String d (String "."
      (String e (String f (String g (String h _))))))))) =>
      is_digit a && is_digit b && is_digit c && is_digit d &&
      is_digit e && is_digit f && is_digit g && is_digit h
  | _ => false
  end.

(** [s.split(".")[-1]]: what follows the last dot, the string itself if
    it has none; [cur] is the piece being read. *)
Fixpoint last_piece (cur : string) (s : string) : string :=
  match s with
  | EmptyString => cur
  | String c rest =>
      if Ascii.eqb c "." then last_piece "" rest
      else last_piece (snoc cur c) rest
  end.

(** [s.lstrip()], [s.rstrip()] and [s.strip()]. *)
Fixpoint lstrip (s : string) : string :=
  match s with
  | EmptyString => ""
  | String c rest => if is_space c then lstrip rest else s
  end.

Fixpoint rstrip (s : string) : string :=
  match s with
  | EmptyString => ""
  | String c rest =>
      match rstrip rest with
      | EmptyString => if is_space c then "" else String c ""
      | rest' => String c rest'
      end
  end.

Definition strip (s : string) : string := rstrip (lstrip s).

End Str.

(** What [extract_year] writes to the root logger: that the period has no
    year, or that an [IndexError] was caught. *)
Inductive year_log : Type :=
| YearNotFound (period_str : string)
| YearError (period_str : string).

Definition extract_year (period_str : string) : string * option year_log :=
  let parts := Str.split period_str in
  match last parts with
  | None =>                                  (* parts[-1]: IndexError *)
      ("Unknown", Some (YearError period_str))
  | Some token =>
      if Str.isdigit token && (String.length token =? 4)%nat then
        (token, None)
      else if Str.starts_with_date period_str then
        (Str.last_piece "" period_str, None)
      else ("Unknown", Some (YearNotFound period_str))
  end.

(** Four digits. *)
Definition year_text (s : string) : Prop :=
  String.length s = 4%nat /\ Str.all_digits s = true.

Fixpoint all_space (s : string) : bool :=
  match s with
  | EmptyString => true
  | String c rest => Str.is_space c && all_space rest
  end.

Fixpoint no_dot (s : string) : bool :=
  match s with
  | EmptyString => true
  | String c rest => negb (Ascii.eqb c ".") && no_dot rest
  end.

(** ** The journal of the subclasses

    The lines that the subclasses log and [extract_year] sends to the
    root logger.  They are kept in a journal of their own, beside the
    trace of the world, in the order in which they are logged; the
    [debug] lines are below the level [INFO] of the loggers
    ([_setup_logging], line 26) and leave no line. *)
Inductive line : Type :=
| LineFetchFailed (api_name : string)                 (* line 600 *)
| LinePhpNotList (title : string) (php_parsed : json) (* line 633 *)
| LinePhpError (title : string)                       (* line 636 *)
| LinePhpMissing (title : string)                     (* line 638 *)
| LineProcessed (parsed_item : json)                  (* line 642 *)
| LineYear (l : year_log)                             (* lines 80, 82 *)
| LineApiError (api_name : string) (e : exn)          (* line 683 *)
| LineGeoPoints (n : nat) (category : string).        (* line 692 *)

Definition journal : Type := list (level * line).

Definition J (A : Type) : Type :=
  journal * world -> result A * (journal * world).

Definition jret {A} (a : A) : J A := fun s => (Ok a, s).

Definition jraise {A} (e : exn) : J A := fun s => (Raise e, s).

Definition jbind {A B} (m : J A) (k : A -> J B) : J B :=
  fun s => match m s with
           | (Ok a, s') => k a s'
           | (Raise e, s') => (Raise e, s')
           end.

Definition jlift {A} (r : result A) : J A := fun s => (r, s).

(** A method of [BaseParser], run on the world; the journal stays. *)
Definition base {A} (m : M A) : J A :=
  fun s => match m (snd s) with (r, w') => (r, (fst s, w')) end.

Definition say (lvl : level) (l : line) : J unit :=
  fun s => (Ok tt, (fst s ++ [(lvl, l)], snd s)).

Declare Scope j_scope.
Delimit Scope j_scope with J.
Notation "x <- m ;; k" := (jbind m (fun x => k))
  (at level 100, m at next level, right associativity) : j_scope.
Notation "m ;; k" := (jbind m (fun _ => k))
  (at level 100, right associativity) : j_scope.

(** [f"{v}"] for a value that a set can hold: a string is itself, an
    integer its decimal text, [True], [False] and [None] their names.  A
    set holds no list and no dict, [Py.set_add] raises on them. *)
Definition format (v : json) : result string :=
  match v with
  | JStr s => Ok s
  | JNum n => Ok (NilZero.string_of_int (Z.to_int n))
  | JBool true => Ok "True"
  | JBool false => Ok "False"
  | JNull => Ok "None"
  | JArr _ | JObj _ => Raise TypeError
  end.

(** [a | b] on sets: the elements of [a], then those of [b] that [a] has
    not. *)
Fixpoint union (a b : Py.pyset) : result Py.pyset :=
  match b with
  | [] => Ok a
  | v :: rest => (let? a' := Py.set_add v a in union a' rest)%res
  end.

(** ** RadiationParser (lines 583-698) *)

Module Radiation.

Definition api_endpoints : list (string * string) :=
  [("radiation_p_orsha", "https://orsha-ecokarta.gov.by/api/radiation_p_orsha");
   ("radiation_p_orsha_s",
    "https://orsha-ecokarta.gov.by/api/radiation_p_orsha_s")].

Definition levels_apis : list string := ["radiation_p_orsha_s"].

Definition place_apis : list string := ["radiation_p_orsha"].

(** [RadiationParser()]. *)
Definition new : parser := new_parser "radiation".

Section Parse.

Variable E : env.

(** [datetime.now().strftime("%Y-%m-%d %H:%M:%S")] when the record of
    the item at a given position is built. *)
Variable now : nat -> string.

(** *** _parse_endpoint, for an endpoint of [levels_apis] (lines 594-643) *)

(** [t.strip()]: only a string has the method. *)
Definition strip (t : json) : result string :=
  match t with
  | JStr s => Ok (Str.strip s)
  | _ => Raise AttributeError
  end.

(** [self.extract_year(p)]: [p.split()] is its first step, and only a
    string has the method; [AttributeError] is not among the exceptions
    that [extract_year] catches. *)
Definition year_of (p : json) : J string :=
  match p with
  | JStr period_str =>
      match extract_year period_str with
      | (year, Some l) => (say ERROR (LineYear l) ;; jret year)%J
      | (year, None) => jret year
      end
  | _ => jraise AttributeError
  end.

(** The dict built from one entry of the decoded "php". *)
Definition level_data (level : json) : result json :=
  (let? number := Py.get level "field_number_n" (JStr "Unknown") in
   let? lvl := Py.get level "field_yroven" (JStr "Unknown") in
   let? location := Py.get level "field_rasp_p" (JStr "Unknown") in
   let? name := Py.get level "field_naimenovanie" (JStr "Unknown") in
   Ok (JObj [("number", number); ("level", lvl);
             ("location", location); ("name", name)]))%res.

Fixpoint level_list (php_parsed : list json) : result (list json) :=
  match php_parsed with
  | [] => Ok []
  | level :: rest =>
      (let? d := level_data level in
       let? ds := level_list rest in
       Ok (d :: ds))%res
  end.

(** The body of [for item in nodes["nodes"]]; [i] is the position of the
    item. *)
Definition levels_item (i : nat) (item : json) : J json :=
  (node <- jlift (Py.get item "node" (JObj [])) ;;
   title <- jlift (let? t := Py.get node "title" (JStr "Unknown") in strip t)%res ;;
   Nid <- jlift (Py.get node "Nid" (JStr "Unknown")) ;;
   field_geo_point <- jlift (Py.get node "field_geo_point" (JStr "Unknown")) ;;
   title_1 <- jlift (Py.get node "title_1" (JStr "Unknown")) ;;
   field_source <- jlift (Py.get node "field_source" (JStr "Unknown")) ;;
   title_2 <- jlift (Py.get node "title_2" (JStr "Unknown")) ;;
   field_period <- jlift (Py.get node "field_period" (JStr "Unknown")) ;;
   p <- jlift (Py.get node "field_period" (JStr "Unknown")) ;;
   year <- year_of p ;;
   let parsed_item :=
     [("title", JStr title); ("Nid", Nid);
      ("field_geo_point", field_geo_point); ("title_1", title_1);
      ("field_source", field_source); ("title_2", title_2);
      ("field_period", field_period); ("year", JStr year);
      ("timestamp", JStr (now i))] in
   php_data <- jlift (Py.get node "php" (JStr "")) ;;
   radiation_levels <-
     (if Py.truthy php_data && Py.ne_str php_data "" then
        match php_data with
        | JStr text =>
            match loads E text with
            | Some (JArr php_parsed) => jlift (level_list php_parsed)
            | Some php_parsed =>
                say WARNING (LinePhpNotList title php_parsed) ;; jret []
            | None => say ERROR (LinePhpError title) ;; jret []
            end
        | _ => jraise TypeError   (* json.loads of a value that is no text *)
        end
      else say INFO (LinePhpMissing title) ;; jret []) ;;
   let parsed_item :=
     JObj (Py.assoc_set "radiation_levels" (JArr radiation_levels) parsed_item) in
   say INFO (LineProcessed parsed_item) ;;
   jret parsed_item)%J.

Fixpoint levels_items (i : nat) (items : list json) : J (list json) :=
  match items with
  | [] => jret []
  | item :: rest =>
      (parsed_item <- levels_item i item ;;
       parsed_data <- levels_items (S i) rest ;;
       jret (parsed_item :: parsed_data))%J
  end.

(** The logger of line 594 is that of an endpoint of the program: its
    file [logs/<api_name>_parse.log] is named by the program and opens in
    the directory that [ParserManager] creates. *)
Definition _parse_endpoint (self : parser) (api_name api_url : string)
  : J (list json) :=
  (nodes <- base (fetch_data E self api_name api_url) ;;
   if negb (Py.truthy nodes) then
     say ERROR (LineFetchFailed api_name) ;; jret []
   else
     items <- jlift (let? l := Py.getitem nodes "nodes" in Py.iter l)%res ;;
     levels_items 0 items)%J.

(** *** parse, after [asyncio.gather] has returned (lines 681-695)

    [results] holds, for each endpoint, what its task returned or the
    exception that ended it. *)

Definition data_type (api_name : string) : string :=
  if bool_decide (api_name ∈ levels_apis) then "levels" else "place".

Definition with_parsed_data (self : parser) (result : list json) : parser :=
  Parser (category self) result (retries self) (base_url self).

(** [for (api_name, _), result in zip(self.api_endpoints, results)]. *)
Fixpoint persist (self : parser)
    (results : list (string * string * result (list json)))
    (initial_parse : bool) : J parser :=
  match results with
  | [] => jret self
  | (api_name, _, Raise e) :: rest =>
      (say ERROR (LineApiError api_name e) ;;
       persist self rest initial_parse)%J
  | (api_name, _, Ok result) :: rest =>
      let self := with_parsed_data self result in
      (base (save_data E self api_name (data_type api_name) initial_parse) ;;
       persist self rest initial_parse)%J
  end.

(** [for geo_point in geo_points], over what the set holds. *)
Fixpoint visit (self : parser) (geo_points : list json)
    (initial_parse : bool) : J unit :=
  match geo_points with
  | [] => jret tt
  | v :: rest =>
      (geo_point <- jlift (format v) ;;
       point_data <- base (parse_point_data E self geo_point) ;;
       base (save_point_data E self geo_point point_data initial_parse) ;;
       visit self rest initial_parse)%J
  end.

Definition parse_tail (self : parser) (results : list (result (list json)))
    (initial_parse : bool) : J unit :=
  (self <- persist self (zip api_endpoints results) initial_parse ;;
   places <- base (extract_geo_points self "place") ;;
   levels <- base (extract_geo_points self "levels") ;;
   geo_points <- jlift (union places levels) ;;
   say INFO (LineGeoPoints (length geo_points) (category self)) ;;
   visit self geo_points initial_parse)%J.

End Parse.

End Radiation.

(** ** Further vocabulary: the records of RadiationParser *)

Definition is_text (v : json) : bool :=
  match v with JStr _ => true | _ => false end.

Definition is_dict (v : json) : bool :=
  match v with JObj _ => true | _ => false end.

(** The fields of a record of the levels endpoint, in order. *)
Definition field_names : list string :=
  ["title"; "Nid"; "field_geo_point"; "title_1"; "field_source"; "title_2";
   "field_period"; "year"; "timestamp"; "radiation_levels"].

(** The fields that a record takes over from its node as they are. *)
Definition copied : list string :=
  ["Nid"; "field_geo_point"; "title_1"; "field_source"; "title_2";
   "field_period"].

(** [record] is built from the node of [item]: a dict with the fields
    [field_names], the copied ones equal to those of the node, "Unknown"
    for those that the node has not. *)
Definition record_of (item record : json) : Prop :=
  exists node fields,
    Py.get item "node" (JObj []) = Ok node /\
    record = JObj fields /\
    map fst fields = field_names /\
    forall k, k ∈ copied ->
      Py.getitem record k = Py.get node k (JStr "Unknown").

(** The fields of an entry of "radiation_levels" and where each comes
    from. *)
Definition level_fields : list (string * string) :=
  [("number", "field_number_n"); ("level", "field_yroven");
   ("location", "field_rasp_p"); ("name", "field_naimenovanie")].

Definition level_of (level entry : json) : Prop :=
  exists fields,
    entry = JObj fields /\
    map fst fields = map fst level_fields /\
    forall k source, (k, source) ∈ level_fields ->
      Py.getitem entry k = Py.get level source (JStr "Unknown").

(** The "php" of a node can be processed: it is missing or falsy, or it is
    a text that does not decode, or decodes to something that is no list,
    or to a list of dicts. *)
Definition php_sound (E : env) (php_data : json) : bool :=
  if Py.truthy php_data then
    match php_data with
    | JStr text =>
        match loads E text with
        | Some (JArr php_parsed) => forallb is_dict php_parsed
        | _ => true
        end
    | _ => false
    end
  else true.

(** An item on which the body of the loop raises nothing: a dict whose
    "node" is a dict, with a text for "title" and for "field_period" if
    it has them, and a "php" that can be processed. *)
Definition sound (E : env) (item : json) : bool :=
  match Py.get item "node" (JObj []) with
  | Ok (JObj fields) =>
      is_text (default (JStr "Unknown") (Py.assoc "title" fields)) &&
      is_text (default (JStr "Unknown") (Py.assoc "field_period" fields)) &&
      php_sound E (default (JStr "") (Py.assoc "php" fields))
  | _ => false
  end.

(** Three items of a levels payload: the "php" of the first decodes to
    one level, the second has a title with blanks around it, a date for
    its period and no "php", the "php" of the third does not decode. *)
Definition levels_nodes : list json :=
  [JObj [("node", JObj [("title", JStr "Post 1"); ("Nid", JStr "7");
                        ("field_geo_point", JStr "A");
                        ("field_period", JStr "1 quarter 2020");
                        ("php", JStr "levels")])];
   JObj [("node", JObj [("title", JStr " Post 2 "); ("Nid", JStr "8");
                        ("field_period", JStr "01.02.2021")])];
   JObj [("node", JObj [("title", JStr "Post 3"); ("Nid", JStr "9");
                        ("php", JStr "garbled")])]].

Definition levels_payload : json := JObj [("nodes", JArr levels_nodes)].

(** A network that serves the payload and a decoder that knows the text
    "levels" only. *)
Definition env_levels : env :=
  Env (fun _ => RespHttp 200 (BodyJson levels_payload))
      (fun _ => WriteOk)
      (fun text =>
         if String.eqb text "levels" then
           Some (JArr [JObj [("field_number_n", JStr "1");
                             ("field_yroven", JStr "0.10")]])
         else None) logs_dir.

Definition clock : nat -> string := fun _ => "2024-01-01 00:00:00".

(** What the "php" of a node has become: the entries of
    "radiation_levels" and the line logged, given the lines of the run and
    the title of the record. *)
Definition levels_outcome (E : env) (lines : journal) (title : string)
    (php_data : json) (entries : list json) : Prop :=
  if Py.truthy php_data then
    match php_data with
    | JStr text =>
        match loads E text with
        | Some (JArr php_parsed) => Forall2 level_of php_parsed entries
        | Some php_parsed =>
            entries = [] /\ (WARNING, LinePhpNotList title php_parsed) ∈ lines
        | None => entries = [] /\ (ERROR, LinePhpError title) ∈ lines
        end
    | _ => True
    end
  else entries = [] /\ (INFO, LinePhpMissing title) ∈ lines.

(** [record] is the record of [item] in a run that logged [lines]. *)
Definition built (E : env) (lines : journal) (item record : json) : Prop :=
  record_of item record /\
  (INFO, LineProcessed record) ∈ lines /\
  exists fields title entries,
    Py.get item "node" (JObj []) = Ok (JObj fields) /\
    Py.getitem record "title" = Ok (JStr title) /\
    Py.getitem record "radiation_levels" = Ok (JArr entries) /\
    levels_outcome E lines title (default (JStr "") (Py.assoc "php" fields))
      entries.

(** * Properties *)

Lemma activity_app t1 t2 : activity (t1 ++ t2) = activity t1 ++ activity t2.
Proof. apply List.filter_app. Qed.

(** ** Running the monad *)

Ltac run :=
  repeat progress
    (cbv beta iota delta [bind catch ret raise lift log print emit
                          path_exists load_file http_get];
     cbn [fs trace requests writes fst snd negb andb]).

(** ** fetch_data *)

Section Fetch.

Variable E : env.
Variable self : parser.
Variable api_url : string.

(** Every request from the current one on times out: the loop uses up the
    remaining attempts and gives up. *)
Lemma fetch_loop_timeouts (fuel : nat) : forall (attempts : Z) (w : world),
  0 <= attempts < (retries self) ->
  Z.to_nat ((retries self) - attempts) = fuel ->
  (forall i, (requests w <= i)%nat -> net E i = RespTimeout) ->
  exists new,
    fetch_loop E fuel self api_url attempts w =
      (Ok (JArr []),
       World (fs w) (trace w ++ new ++ [EvLog ERROR MsgMaxAttempts])
             (requests w + fuel) (writes w)) /\
    activity new = backoff api_url (attempts + 1) fuel.
Proof.
  induction fuel as [|fuel IH]; intros attempts w Hrange Hfuel Hnet.
  { lia. }
  cbn [fetch_loop].
  destruct (Z.ltb_spec attempts (retries self)) as [_|]; [|lia].
  run. rewrite Hnet by lia. run.
  destruct (Z.eqb_spec (attempts + 1) (retries self)) as [Hlast|Hmore]; run.
  - assert (fuel = 0%nat) as -> by lia.
    eexists [_; _; _]. split.
    + simpl. rewrite <- !app_assoc. simpl. do 3 f_equal. lia.
    + reflexivity.
  - match goal with
    | |- context [fetch_loop E fuel self api_url ?a ?w1] =>
        destruct (IH a w1) as (new & Hrun & Hact)
    end.
    + lia.
    + lia.
    + intros i Hi. apply Hnet. simpl in Hi. lia.
    + rewrite Hrun. cbn [fs trace requests writes].
      eexists (_ :: _ :: _ :: _ :: new). split.
      * rewrite <- !app_assoc. simpl. do 2 f_equal. lia.
      * change (activity (?a :: ?b :: ?c :: ?d :: new))
          with (activity [a; b; c; d] ++ activity new).
        rewrite Hact.
        destruct fuel; [lia|]. reflexivity.
Qed.

Lemma fetch_loop_fatal (k : nat) : forall (fuel : nat) (attempts : Z) (w : world),
  0 <= attempts ->
  attempts + Z.of_nat k < (retries self) ->
  (k < fuel)%nat ->
  (forall i, (i < k)%nat -> net E (requests w + i) = RespTimeout) ->
  fatal (net E (requests w + k)) ->
  exists new,
    fetch_loop E fuel self api_url attempts w =
      (Ok (JArr []),
       World (fs w)
             (trace w ++ new ++
                [EvLog ERROR (fatal_message api_url (net E (requests w + k)))])
             (requests w + k + 1) (writes w)) /\
    activity new = backoff api_url (attempts + 1) (S k).
Proof.
  induction k as [|k IH]; intros fuel attempts w Hpos Hmax Hfuel Htime Hfatal.
  - destruct fuel as [|fuel]; [lia|].
    cbn [fetch_loop].
    destruct (Z.ltb_spec attempts (retries self)) as [_|]; [|lia].
    run. rewrite Nat.add_0_r in *.
    destruct (net E (requests w)) as [| |status b]; [done| |].
    + run. eexists [_; _].
      split; [rewrite <- !app_assoc; simpl; do 3 f_equal; lia | reflexivity].
    + destruct (Z.leb_spec 400 status) as [Hs|Hs].
      * exists [EvLog INFO (MsgAttempt (attempts + 1) (retries self) api_url);
                EvGet api_url].
        split; [|reflexivity]. unfold fatal_message.
        destruct (status =? 404); run;
          rewrite <- !app_assoc; simpl; do 3 f_equal; lia.
      * destruct Hfatal as [?| ->]; [lia|].
        assert ((status =? 404) = false) as Hne by lia.
        unfold fatal_message. rewrite Hne. run. eexists [_; _; _].
        split; [rewrite <- !app_assoc; simpl; do 3 f_equal; lia | reflexivity].
  - destruct fuel as [|fuel]; [lia|].
    cbn [fetch_loop].
    destruct (Z.ltb_spec attempts (retries self)) as [_|]; [|lia].
    run. pose proof (Htime 0%nat ltac:(lia)) as H0.
    rewrite Nat.add_0_r in H0. rewrite H0. clear H0. run.
    destruct (Z.eqb_spec (attempts + 1) (retries self)) as [|_]; [lia|]. run.
    match goal with
    | |- context [fetch_loop E fuel self api_url ?a ?w1] =>
        destruct (IH fuel a w1) as (new & Hrun & Hact)
    end; cbn [requests].
    + lia.
    + lia.
    + lia.
    + intros i Hi. rewrite Nat.add_succ_comm. apply Htime. lia.
    + by rewrite Nat.add_succ_comm.
    + rewrite Hrun. cbn [fs trace requests writes].
      rewrite !(Nat.add_succ_comm (requests w)).
      eexists (_ :: _ :: _ :: _ :: new). split.
      * rewrite <- !app_assoc. simpl. do 2 f_equal; lia.
      * change (activity (?a :: ?b :: ?c :: ?d :: new))
          with (activity [a; b; c; d] ++ activity new).
        rewrite Hact. reflexivity.
Qed.

(** The bound on the iterations is never reached. *)
Lemma fetch_loop_finishes (fuel : nat) : forall (attempts : Z) (w : world),
  (Z.to_nat ((retries self) - attempts) <= fuel)%nat ->
  fst (fetch_loop E fuel self api_url attempts w) <> Raise OutOfFuel.
Proof.
  induction fuel as [|fuel IH]; intros attempts w Hfuel;
    cbn [fetch_loop];
    destruct (Z.ltb_spec attempts (retries self)) as [Hlt|Hge];
    try done; try lia.
  run. destruct (net E (requests w)) as [| |status b]; run.
  - destruct (Z.eqb_spec (attempts + 1) (retries self)); run; [done|].
    apply IH. lia.
  - done.
  - destruct (400 <=? status); [by destruct (status =? 404)|].
    run. destruct b as [data| |]; run; [| by destruct (status =? 404) | done].
    destruct data; simpl; try done;
      match goal with |- context [negb ?b] => by destruct b end.
Qed.

End Fetch.

Lemma fetch_data_finishes E self api_name api_url w :
  fst (fetch_data E self api_name api_url w) <> Raise OutOfFuel.
Proof.
  unfold fetch_data. run. apply fetch_loop_finishes. lia.
Qed.

(** C7. A fetch whose every request times out makes exactly [retries]
    requests, sleeps [2^1], [2^2], ... seconds between consecutive ones
    (and not after the last), returns the empty list and logs that the
    maximum number of attempts was reached. *)
Theorem fetch_data_retry_bound E self api_name api_url w :
  1 <= retries self ->
  (forall i, (requests w <= i)%nat -> net E i = RespTimeout) ->
  exists new,
    fetch_data E self api_name api_url w =
      (Ok (JArr []),
       World (fs w)
             (trace w ++ EvJitter :: new ++ [EvLog ERROR MsgMaxAttempts])
             (requests w + Z.to_nat (retries self)) (writes w)) /\
    activity new = backoff api_url 1 (Z.to_nat (retries self)).
Proof.
  intros Hretries Hnet. unfold fetch_data. run.
  match goal with
  | |- context [fetch_loop E ?fuel self api_url ?a ?w1] =>
      destruct (fetch_loop_timeouts E self api_url fuel a w1)
        as (new & Hrun & Hact)
  end; cbn [requests]; try lia; try done.
  exists new. rewrite Hrun. cbn [fs trace requests writes].
  split; [|done]. by rewrite <- app_assoc.
Qed.

Lemma fetch_data_retry_bound_witness :
  exists new,
    fetch_data env_timeouts (new_parser "air") "ala_place" "u" world0 =
      (Ok (JArr []),
       World ∅ ([] ++ EvJitter :: new ++ [EvLog ERROR MsgMaxAttempts])
             (0 + Z.to_nat 3) 0) /\
    activity new = [EvGet "u"; EvSleep 2; EvGet "u"; EvSleep 4; EvGet "u"].
Proof.
  apply (fetch_data_retry_bound env_timeouts (new_parser "air")
           "ala_place" "u" world0).
  - simpl. lia.
  - reflexivity.
Defined.

(** C8. A failure that is no timeout ends the fetch at once: when the
    request after [k] timeouts meets a transport error, an error status
    (404 among them) or a body of the wrong content type, [fetch_data]
    returns the empty list after exactly [k + 1] requests, the last of
    them unrepeated and followed by no sleep, and logs the error.  With
    [k = 0] and the status 404 this is one single request. *)
Theorem fetch_data_fatal E self api_name api_url w (k : nat) :
  (k < Z.to_nat (retries self))%nat ->
  (forall i, (i < k)%nat -> net E (requests w + i) = RespTimeout) ->
  fatal (net E (requests w + k)) ->
  exists new,
    fetch_data E self api_name api_url w =
      (Ok (JArr []),
       World (fs w)
             (trace w ++ EvJitter :: new ++
                [EvLog ERROR (fatal_message api_url (net E (requests w + k)))])
             (requests w + k + 1) (writes w)) /\
    activity new = backoff api_url 1 (S k).
Proof.
  intros Hk Htime Hfatal. unfold fetch_data. run.
  match goal with
  | |- context [fetch_loop E ?fuel self api_url ?a ?w1] =>
      destruct (fetch_loop_fatal E self api_url k fuel a w1)
        as (new & Hrun & Hact)
  end; cbn [requests]; try lia; try done.
  exists new. rewrite Hrun. cbn [fs trace requests writes].
  split; [|done]. by rewrite <- app_assoc.
Qed.

Lemma fetch_data_fatal_witness :
  exists new,
    fetch_data env_not_found (new_parser "air") "ala_place" "u" world0 =
      (Ok (JArr []),
       World ∅ ([] ++ EvJitter :: new ++ [EvLog ERROR (MsgNotFound "u")])
             (0 + 0 + 1) 0) /\
    activity new = [EvGet "u"].
Proof.
  apply (fetch_data_fatal env_not_found (new_parser "air")
           "ala_place" "u" world0 0).
  - simpl. lia.
  - intros i Hi. lia.
  - simpl. lia.
Defined.

(** ** Set and list comprehensions over identity keys *)

Section Comprehensions.

Variable key : json -> result json.

Lemma has_key_true k (s : Py.pyset) :
  Py.has_key k s = true <-> exists e, e ∈ s /\ Py.hash e = Ok k.
Proof.
  unfold Py.has_key. rewrite existsb_exists. split.
  - intros (e & Hin & He). exists e. split.
    + by apply list_elem_of_In.
    + by apply bool_decide_eq_true in He.
  - intros (e & Hin & He). exists e. split.
    + by apply list_elem_of_In.
    + by apply bool_decide_eq_true.
Qed.

Lemma has_key_snoc k (s : Py.pyset) v :
  Py.has_key k (s ++ [v]) = Py.has_key k s || bool_decide (Py.hash v = Ok k).
Proof.
  unfold Py.has_key. rewrite existsb_app. simpl. by rewrite orb_false_r.
Qed.

Lemma key_of_Some item k :
  key_of key item = Some k <->
  exists v, key item = Ok v /\ Py.hash v = Ok k.
Proof.
  unfold key_of. split.
  - destruct (key item) as [v|]; [|done].
    destruct (Py.hash v) as [k'|] eqn:Hh; [|done].
    intros [= ->]. eauto.
  - intros (v & -> & ->). done.
Qed.

Lemma set_of_inv items : forall acc s,
  Py.set_of key items acc = Ok s ->
  Forall (keyed key) items /\
  forall k, Py.has_key k s = true <->
            Py.has_key k acc = true \/ Some k ∈ key_of key <$> items.
Proof.
  induction items as [|item rest IH]; intros acc s Hs; simpl in Hs.
  - injection Hs as <-. split; [constructor|].
    intros k. rewrite fmap_nil, elem_of_nil. tauto.
  - destruct (key item) as [v|] eqn:Hv; [|done]. simpl in Hs.
    unfold Py.set_add in Hs.
    destruct (Py.hash v) as [kv|] eqn:Hh; [|done]. simpl in Hs.
    assert (key_of key item = Some kv) as Hitem
      by (apply key_of_Some; eauto).
    apply IH in Hs as [Hall Hmem]. split.
    + constructor; [by exists kv | done].
    + intros k. rewrite Hmem, fmap_cons, elem_of_cons, Hitem.
      destruct (Py.has_key kv acc) eqn:Hdup.
      * split; [tauto|]. intros [?|[[= ->]|?]]; tauto.
      * rewrite has_key_snoc, orb_true_iff, bool_decide_eq_true, Hh.
        split; [intros [[?|[= ->]]|?] | intros [?|[[= ->]|?]]]; tauto.
Qed.

Lemma set_of_total items : forall acc,
  Forall (keyed key) items -> exists s, Py.set_of key items acc = Ok s.
Proof.
  induction items as [|item rest IH]; intros acc Hall; simpl; [eauto|].
  inversion Hall as [|? ? [k Hk] Hrest]; subst.
  apply key_of_Some in Hk as (v & -> & Hh). simpl.
  unfold Py.set_add. rewrite Hh. simpl. by apply IH.
Qed.

Lemma not_in_inv (existing : list json) (seen : Py.pyset) :
  (forall k, Py.has_key k seen = true <-> Some k ∈ key_of key <$> existing) ->
  forall batch new,
    Py.not_in key seen batch = Ok new ->
    Forall (keyed key) batch /\ new = fresh key existing batch.
Proof.
  intros Hseen. induction batch as [|item rest IH]; intros new Hnew;
    simpl in Hnew.
  - injection Hnew as <-. by split.
  - destruct (key item) as [v|] eqn:Hv; [|done]. simpl in Hnew.
    unfold Py.set_mem in Hnew.
    destruct (Py.hash v) as [kv|] eqn:Hh; [|done]. simpl in Hnew.
    destruct (Py.not_in key seen rest) as [tl|] eqn:Htl; [|done].
    simpl in Hnew. injection Hnew as <-.
    assert (key_of key item = Some kv) as Hitem
      by (apply key_of_Some; eauto).
    destruct (IH tl eq_refl) as [Hall ->]. split.
    + constructor; [by exists kv | done].
    + unfold fresh. rewrite filter_cons, Hitem.
      destruct (Py.has_key kv seen) eqn:Hdup.
      * apply Hseen in Hdup. by rewrite decide_False by tauto.
      * rewrite decide_True; [done|].
        intros Hin. apply Hseen in Hin. congruence.
Qed.

Lemma not_in_total (existing : list json) (seen : Py.pyset) :
  (forall k, Py.has_key k seen = true <-> Some k ∈ key_of key <$> existing) ->
  forall batch,
    Forall (keyed key) batch ->
    Py.not_in key seen batch = Ok (fresh key existing batch).
Proof.
  intros Hseen. induction batch as [|item rest IH]; intros Hall; [done|].
  inversion Hall as [|? ? [k Hk] Hrest]; subst. simpl.
  pose proof Hk as Hitem.
  apply key_of_Some in Hk as (v & -> & Hh). simpl.
  unfold Py.set_mem. rewrite Hh. simpl. rewrite (IH Hrest). simpl.
  unfold fresh. rewrite filter_cons, Hitem.
  destruct (Py.has_key k seen) eqn:Hdup.
  - apply Hseen in Hdup. by rewrite decide_False by tauto.
  - rewrite decide_True; [done|].
    intros Hin. apply Hseen in Hin. congruence.
Qed.

(** What the two comprehensions of a merge compute, when they succeed. *)
Lemma merge_inv existing batch seen new :
  Py.set_of key existing [] = Ok seen ->
  Py.not_in key seen batch = Ok new ->
  Forall (keyed key) existing /\ Forall (keyed key) batch /\
  new = fresh key existing batch.
Proof.
  intros Hseen Hnew. apply set_of_inv in Hseen as [Hex Hmem].
  destruct (not_in_inv existing seen) with (batch := batch) (new := new)
    as [Hall ->]; [|done|done].
  intros k. rewrite Hmem. simpl. split; [intros [?|?]|]; by auto.
Qed.

(** They succeed as soon as every record carries a hashable key. *)
Lemma merge_total existing batch :
  Forall (keyed key) existing -> Forall (keyed key) batch ->
  exists seen,
    Py.set_of key existing [] = Ok seen /\
    Py.not_in key seen batch = Ok (fresh key existing batch).
Proof.
  intros Hex Hbatch.
  destruct (set_of_total existing [] Hex) as [seen Hseen].
  exists seen. split; [done|].
  apply set_of_inv in Hseen as [_ Hmem].
  apply not_in_total; [|done].
  intros k. rewrite Hmem. simpl. split; [intros [?|?]|]; by auto.
Qed.

Lemma keys_app l1 l2 : keys key (l1 ++ l2) = keys key l1 ++ keys key l2.
Proof. apply omap_app. Qed.

Lemma keys_filter_NoDup (P : json -> Prop) `{forall x, Decision (P x)} l :
  NoDup (keys key l) -> NoDup (keys key (filter P l)).
Proof.
  unfold keys. induction l as [|x l IH]; [done|].
  rewrite filter_cons. simpl. destruct (key_of key x) as [k|] eqn:Hk.
  - rewrite NoDup_cons. intros [Hnotin Hnd].
    destruct (decide (P x)); [|by apply IH].
    simpl. rewrite Hk. apply NoDup_cons. split; [|by apply IH].
    rewrite list_elem_of_omap in *. intros (y & Hy & Hky).
    apply Hnotin. exists y. split; [|done].
    apply list_elem_of_filter in Hy. tauto.
  - intros Hnd. destruct (decide (P x)); [|by apply IH].
    simpl. rewrite Hk. by apply IH.
Qed.

(** Appending the fresh records of a batch keeps the keys distinct, when
    the batch does not repeat a key itself. *)
Lemma unique_merge existing batch :
  NoDup (keys key existing) -> NoDup (keys key batch) ->
  NoDup (keys key (existing ++ fresh key existing batch)).
Proof.
  intros Hex Hbatch. rewrite keys_app. apply NoDup_app.
  split; [done|]. split; [|by apply keys_filter_NoDup].
  intros k Hk Hk'. unfold keys in Hk, Hk'.
  apply list_elem_of_omap in Hk as (e & He & Hke).
  apply list_elem_of_omap in Hk' as (item & Hitem & Hki).
  apply list_elem_of_filter in Hitem as [Hfresh _].
  apply Hfresh. rewrite Hki, <- Hke. apply list_elem_of_fmap. eauto.
Qed.

End Comprehensions.

(** ** Writing back *)

Lemma write_back_spec E echo filename doc w :
  write_back E echo filename doc w = (Ok tt, written E echo filename doc w).
Proof.
  unfold write_back, written, dump_file, echoed. run.
  destruct (disk E (writes w)); run.
  - destruct (Py.len doc) as [total|]; run;
      destruct echo; run; by rewrite <- !app_assoc.
  - destruct echo; run; by rewrite <- ?app_assoc.
  - destruct echo; run; by rewrite <- !app_assoc.
Qed.

(** ** save_data and save_point_data, case by case *)

Lemma logged_nil w : w = logged w [].
Proof. destruct w. unfold logged. simpl. by rewrite app_nil_r. Qed.

Lemma exists_Some {A} (x : A) : bool_decide (is_Some (Some x)) = true.
Proof. apply bool_decide_eq_true. eauto. Qed.

Lemma exists_None : bool_decide (is_Some (@None file)) = false.
Proof. apply bool_decide_eq_false. by intros [? ?]. Qed.

(** Case analysis on what the target of a merge holds. *)
Ltac on_file w filename Hfile :=
  destruct (fs w !! filename) as [[?doc| |]|] eqn:Hfile;
  rewrite ?exists_Some, ?exists_None; run; rewrite ?Hfile; run.

Ltac no_write evs :=
  left; eexists _, evs; split;
  [first [ by rewrite <- logged_nil
         | unfold logged; rewrite <- ?app_assoc; reflexivity ]
  | reflexivity].

Lemma save_data_cases E self api_name data_type initial_parse w :
  merge_cases E nid true (data_file self api_name data_type)
    (JArr (parsed_data self)) initial_parse w
    (save_data E self api_name data_type initial_parse w).
Proof.
  unfold save_data, merge_cases.
  set (filename := data_file self api_name data_type).
  destruct (parsed_data self) as [|item batch] eqn:Hbatch.
  { run. no_write [EvLog INFO (MsgNothingToSave api_name data_type);
                   EvPrint (MsgNothingToSave api_name data_type)]. }
  rewrite <- Hbatch. run.
  destruct initial_parse.
  { rewrite ?andb_false_r. run. rewrite write_back_spec.
    right. exists [], (JArr (parsed_data self)). rewrite <- logged_nil.
    split; [done|]. split; [done|]. by left. }
  rewrite ?andb_true_r.
  on_file w filename Hfile.
  - (* the file holds a document *)
    destruct (Py.iter doc) as [items|] eqn:Hiter; run;
      [|no_write [EvOpenRead filename]].
    destruct (Py.set_of nid items []) as [seen|] eqn:Hseen; run;
      [|no_write [EvOpenRead filename]].
    destruct (Py.not_in nid seen (parsed_data self)) as [new|] eqn:Hnew; run;
      [|no_write [EvOpenRead filename]].
    destruct new as [|n new'] eqn:Hn; run.
    { no_write [EvOpenRead filename; EvLog INFO (MsgNoNewData api_name data_type);
                EvPrint (MsgNoNewData api_name data_type)]. }
    rewrite <- Hn in *. clear Hn.
    destruct doc as [| | | |existing|]; simpl in Hiter |- *; run;
      try (no_write [EvOpenRead filename]).
    injection Hiter as <-.
    destruct (merge_inv nid existing (parsed_data self) seen new Hseen Hnew)
      as (Hex & Hb & ->).
    rewrite write_back_spec. right.
    exists [EvOpenRead filename;
            EvLog INFO (MsgFoundNew
              (length (fresh nid existing (parsed_data self)))
              api_name data_type)],
           (JArr (existing ++ fresh nid existing (parsed_data self))).
    split; [unfold logged; by rewrite <- !app_assoc|]. split; [done|].
    right. split; [done|]. exists existing. unfold stored. simpl. eauto 6.
  - no_write [EvOpenRead filename; EvLog ERROR (MsgReadError filename);
              EvPrint (MsgReadError filename)].
  - no_write [EvOpenRead filename; EvLog ERROR (MsgReadError filename);
              EvPrint (MsgReadError filename)].
  - (* no file yet *)
    cbn [Py.iter Py.set_of].
    destruct (Py.not_in nid [] (parsed_data self)) as [new|] eqn:Hnew; run;
      [|no_write (@nil event)].
    destruct new as [|n new'] eqn:Hn; run.
    { no_write [EvLog INFO (MsgNoNewData api_name data_type);
                EvPrint (MsgNoNewData api_name data_type)]. }
    rewrite <- Hn in *. clear Hn.
    destruct (merge_inv nid [] (parsed_data self) [] new eq_refl Hnew)
      as (Hex & Hb & ->).
    cbn [Py.add_list]. run. rewrite write_back_spec. right.
    exists [EvLog INFO (MsgFoundNew
              (length (fresh nid [] (parsed_data self)))
              api_name data_type)],
           (JArr ([] ++ fresh nid [] (parsed_data self))).
    split; [done|]. split; [done|].
    right. split; [done|]. exists []. unfold stored. simpl. eauto 6.
Qed.

Lemma get_truthy_getitem data k v :
  Py.get data k JNull = Ok v -> Py.truthy v = true -> Py.getitem data k = Ok v.
Proof.
  destruct data; try done. simpl.
  destruct (Py.assoc k fields); intros [= <-]; done.
Qed.

(** Iterating over a non-empty dict or string yields strings, which have
    no period. *)
Lemma not_in_period_strings seen nodes items :
  Py.truthy nodes = true ->
  Py.iter nodes = Ok items ->
  (forall l, nodes <> JArr l) ->
  exists e, Py.not_in period seen items = Raise e.
Proof.
  intros Htruthy Hiter Hnot.
  destruct nodes as [| | |s|l|kv]; try done; simpl in *.
  - injection Hiter as <-. destruct s; [done|]. simpl. eauto.
  - by destruct (Hnot l).
  - injection Hiter as <-. destruct kv; [done|]. simpl. eauto.
Qed.

Lemma save_point_data_cases E self geo_point data initial_parse w :
  merge_cases E period false (point_file self geo_point)
    (nodes_of data) initial_parse w
    (save_point_data E self geo_point data initial_parse w).
Proof.
  unfold save_point_data, merge_cases, nodes_of.
  set (filename := point_file self geo_point).
  set (dir := path_join (category self) "point_data").
  destruct (Py.truthy data) eqn:Hdata; run;
    [|no_write [EvLog INFO (MsgNoPointToSave geo_point)]].
  destruct (Py.get data "nodes" JNull) as [nodes|] eqn:Hget; run;
    [|no_write (@nil event)].
  destruct (Py.truthy nodes) eqn:Hnodes; run;
    [|no_write [EvLog INFO (MsgNoPointToSave geo_point)]].
  rewrite (get_truthy_getitem _ _ _ Hget Hnodes).
  destruct initial_parse; cbn [negb].
  { rewrite ?andb_false_r. run. rewrite write_back_spec.
    right. exists [EvMakedirs dir], nodes.
    split; [done|]. split; [done|]. by left. }
  rewrite ?andb_true_r.
  on_file w filename Hfile.
  - (* the file holds a document *)
    destruct (Py.iter doc) as [items|] eqn:Hiter; run;
      [|no_write [EvMakedirs dir; EvOpenRead filename]].
    destruct (Py.set_of period items []) as [seen|] eqn:Hseen; run;
      [|no_write [EvMakedirs dir; EvOpenRead filename]].
    destruct (Py.iter nodes) as [fetched|] eqn:Hfetched; run;
      [|no_write [EvMakedirs dir; EvOpenRead filename]].
    destruct (Py.not_in period seen fetched) as [new|] eqn:Hnew; run;
      [|no_write [EvMakedirs dir; EvOpenRead filename]].
    destruct new as [|n new'] eqn:Hn; run.
    { no_write [EvMakedirs dir; EvOpenRead filename;
                EvLog INFO (MsgNoNewPoint geo_point)]. }
    rewrite <- Hn in *. clear Hn.
    destruct doc as [| | | |existing|]; simpl in Hiter |- *; run;
      try (no_write [EvMakedirs dir; EvOpenRead filename]).
    injection Hiter as <-.
    assert (exists l, nodes = JArr l) as [l ->].
    { destruct nodes as [| | |s|l|kv]; try done; eauto;
        edestruct (not_in_period_strings seen) as [e He]; try done;
        congruence. }
    injection Hfetched as <-.
    destruct (merge_inv period existing l seen new Hseen Hnew)
      as (Hex & Hb & ->).
    rewrite write_back_spec. right.
    exists [EvMakedirs dir; EvOpenRead filename;
            EvLog INFO (MsgFoundNewPoint
              (length (fresh period existing l)) geo_point)],
           (JArr (existing ++ fresh period existing l)).
    split; [unfold logged; by rewrite <- !app_assoc|]. split; [done|].
    right. split; [done|]. exists existing. unfold stored. simpl. eauto 6.
  - no_write [EvMakedirs dir; EvOpenRead filename;
              EvLog ERROR (MsgReadError filename)].
  - no_write [EvMakedirs dir; EvOpenRead filename;
              EvLog ERROR (MsgReadError filename)].
  - (* no file yet *)
    cbn [Py.iter Py.set_of].
    destruct (Py.iter nodes) as [fetched|] eqn:Hfetched; run;
      [|no_write [EvMakedirs dir]].
    destruct (Py.not_in period [] fetched) as [new|] eqn:Hnew; run;
      [|no_write [EvMakedirs dir]].
    destruct new as [|n new'] eqn:Hn; run.
    { no_write [EvMakedirs dir; EvLog INFO (MsgNoNewPoint geo_point)]. }
    rewrite <- Hn in *. clear Hn.
    assert (exists l, nodes = JArr l) as [l ->].
    { destruct nodes as [| | |s|l|kv]; try done; eauto;
        edestruct (not_in_period_strings []) as [e He]; try done;
        congruence. }
    injection Hfetched as <-.
    destruct (merge_inv period [] l [] new eq_refl Hnew) as (Hex & Hb & ->).
    cbn [Py.add_list]. run. rewrite write_back_spec. right.
    exists [EvMakedirs dir;
            EvLog INFO (MsgFoundNewPoint (length (fresh period [] l)) geo_point)],
           (JArr ([] ++ fresh period [] l)).
    split; [unfold logged; by rewrite <- ?app_assoc|]. split; [done|].
    right. split; [done|]. exists []. unfold stored. simpl. eauto 6.
Qed.

(** ** Incremental merge *)

(** C2. An incremental merge of a non-empty batch onto the snapshot
    [existing] persists [existing] followed by the records of the batch
    whose "Nid" is not among those of [existing], in their order, and logs
    their number; when there is no such record nothing is written, and
    "no new data" is logged and printed instead. *)
Theorem save_data_incremental E self api_name data_type w existing :
  let filename := data_file self api_name data_type in
  let new := fresh nid existing (parsed_data self) in
  parsed_data self <> [] ->
  fs w !! filename = Some (Stored (JArr existing)) ->
  Forall (keyed nid) existing ->
  Forall (keyed nid) (parsed_data self) ->
  disk E (writes w) = WriteOk ->
  save_data E self api_name data_type false w =
    match new with
    | [] =>
        (Ok tt,
         logged w [EvOpenRead filename;
                   EvLog INFO (MsgNoNewData api_name data_type);
                   EvPrint (MsgNoNewData api_name data_type)])
    | _ :: _ =>
        (Ok tt,
         World (<[filename := Stored (JArr (existing ++ new))]> (fs w))
               (trace w ++
                  [EvOpenRead filename;
                   EvLog INFO (MsgFoundNew (length new) api_name data_type);
                   EvOpenWrite filename;
                   EvLog INFO (MsgSaved filename (length (existing ++ new)));
                   EvPrint (MsgSaved filename (length (existing ++ new)))])
               (requests w) (S (writes w)))
    end.
Proof.
  intros filename new Hbatch Hfile Hex Hnew Hdisk.
  destruct (merge_total nid existing (parsed_data self) Hex Hnew)
    as (seen & Hseen & Hfresh).
  subst filename new. unfold save_data.
  destruct (parsed_data self) as [|item batch] eqn:Hpd; [done|].
  rewrite <- Hpd in *. run. rewrite Hfile, exists_Some. run.
  rewrite Hfile. run. cbn [Py.iter]. rewrite Hseen, Hfresh.
  destruct (fresh nid existing (parsed_data self)) as [|n new'] eqn:Hn.
  - run. unfold logged. by rewrite <- !app_assoc.
  - rewrite <- Hn. cbn [Py.add_list]. run. rewrite write_back_spec.
    unfold written. cbn [fs trace requests writes]. rewrite Hdisk.
    cbn [Py.len echoed]. by rewrite <- !app_assoc.
Qed.

Lemma save_data_incremental_witness :
  save_data env_timeouts (air [record 1; record 2]) "ala_place" "data" false
    (world_with "air/ala_place_data.json" (Stored (JArr [record 1]))) =
  (Ok tt,
   World (<["air/ala_place_data.json" := Stored (JArr [record 1; record 2])]>
            {["air/ala_place_data.json" := Stored (JArr [record 1])]})
         [EvOpenRead "air/ala_place_data.json";
          EvLog INFO (MsgFoundNew 1 "ala_place" "data");
          EvOpenWrite "air/ala_place_data.json";
          EvLog INFO (MsgSaved "air/ala_place_data.json" 2);
          EvPrint (MsgSaved "air/ala_place_data.json" 2)]
         0 1).
Proof.
  apply (save_data_incremental env_timeouts (air [record 1; record 2])
           "ala_place" "data"
           (world_with "air/ala_place_data.json" (Stored (JArr [record 1])))
           [record 1]).
  - done.
  - reflexivity.
  - repeat constructor; by eexists.
  - repeat constructor; by eexists.
  - reflexivity.
Defined.

(** ** Unreadable snapshot *)

(** C6. When the target of an incremental merge exists and cannot be
    loaded, the merge stops there: the read error is logged (and printed by
    [save_data]), no write is attempted and the world keeps its files. *)
Theorem merge_aborts_on_read_failure E self api_name data_type geo_point data w :
  (parsed_data self <> [] ->
   unreadable (fs w !! data_file self api_name data_type) ->
   save_data E self api_name data_type false w =
     (Ok tt,
      logged w [EvOpenRead (data_file self api_name data_type);
                EvLog ERROR (MsgReadError (data_file self api_name data_type));
                EvPrint (MsgReadError (data_file self api_name data_type))]))
  /\
  (Py.truthy (nodes_of data) = true ->
   unreadable (fs w !! point_file self geo_point) ->
   save_point_data E self geo_point data false w =
     (Ok tt,
      logged w [EvMakedirs (path_join (category self) "point_data");
                EvOpenRead (point_file self geo_point);
                EvLog ERROR (MsgReadError (point_file self geo_point))])).
Proof.
  split.
  - intros Hbatch Hfile. unfold save_data.
    destruct (parsed_data self) as [|item batch]; [done|]. run.
    destruct Hfile as [Hfile|Hfile]; rewrite Hfile, exists_Some; run;
      rewrite Hfile; run; unfold logged; by rewrite <- !app_assoc.
  - intros Hnodes Hfile. unfold save_point_data, nodes_of in *.
    destruct (Py.truthy data) eqn:Hdata.
    + run. destruct (Py.get data "nodes" JNull) as [nodes|]; [|done].
      run. rewrite Hnodes. run.
      destruct Hfile as [Hfile|Hfile]; rewrite Hfile, exists_Some; run;
        rewrite Hfile; run; unfold logged; by rewrite <- !app_assoc.
    + destruct data as [| | | | |kv]; try done. by destruct kv.
Qed.

Lemma merge_aborts_on_read_failure_witness :
  save_data env_timeouts (air [record 1]) "ala_place" "data" false
    world_unreadable =
    (Ok tt,
     logged world_unreadable
       [EvOpenRead "air/ala_place_data.json";
        EvLog ERROR (MsgReadError "air/ala_place_data.json");
        EvPrint (MsgReadError "air/ala_place_data.json")])
  /\
  save_point_data env_timeouts (air []) "7" (JObj [("nodes", JArr [point "2020"])])
    false world_unreadable =
    (Ok tt,
     logged world_unreadable
       [EvMakedirs "air/point_data";
        EvOpenRead "air/point_data/point_7.json";
        EvLog ERROR (MsgReadError "air/point_data/point_7.json")]).
Proof.
  split.
  - apply (merge_aborts_on_read_failure env_timeouts (air [record 1])
             "ala_place" "data" "7" JNull world_unreadable).
    + done.
    + left. reflexivity.
  - apply (merge_aborts_on_read_failure env_timeouts (air [])
             "ala_place" "data" "7" (JObj [("nodes", JArr [point "2020"])])
             world_unreadable).
    + reflexivity.
    + right. reflexivity.
Defined.

(** ** Initial merge *)

Lemma save_data_initial E self api_name data_type w :
  parsed_data self <> [] ->
  save_data E self api_name data_type true w =
    (Ok tt, written E true (data_file self api_name data_type)
              (JArr (parsed_data self)) w).
Proof.
  intros Hbatch. unfold save_data.
  destruct (parsed_data self) as [|item batch] eqn:Hpd; [done|].
  rewrite <- Hpd. run. rewrite ?andb_false_r. run. apply write_back_spec.
Qed.

Lemma save_point_data_initial E self geo_point data w :
  Py.truthy (nodes_of data) = true ->
  save_point_data E self geo_point data true w =
    (Ok tt, written E false (point_file self geo_point) (nodes_of data)
              (logged w [EvMakedirs (path_join (category self) "point_data")])).
Proof.
  unfold save_point_data, nodes_of. intros Hnodes.
  destruct (Py.truthy data) eqn:Hdata.
  - run. destruct (Py.get data "nodes" JNull) as [nodes|] eqn:Hget; [|done].
    run. rewrite Hnodes. run. rewrite ?andb_false_r. run.
    rewrite (get_truthy_getitem _ _ _ Hget Hnodes). apply write_back_spec.
  - destruct data as [| | | | |kv]; try done. by destruct kv.
Qed.

Lemma save_point_data_nothing E self geo_point data initial_parse w :
  Py.truthy (nodes_of data) = false ->
  exists r evs,
    save_point_data E self geo_point data initial_parse w = (r, logged w evs) /\
    files_written evs = [].
Proof.
  unfold save_point_data, nodes_of. intros Hnodes.
  destruct (Py.truthy data) eqn:Hdata; run.
  - destruct (Py.get data "nodes" JNull) as [nodes|] eqn:Hget; run.
    + rewrite Hnodes. run.
      by exists (Ok tt), [EvLog INFO (MsgNoPointToSave geo_point)].
    + exists (Raise e), []. by rewrite <- logged_nil.
  - by exists (Ok tt), [EvLog INFO (MsgNoPointToSave geo_point)].
Qed.

(** C4, as the code has it.  An initial merge of a non-empty batch whose
    write completes replaces the target by exactly the batch, whatever the
    target held; an initial merge of an empty batch is skipped, and the
    files stay as they were. *)
Theorem initial_merge_replaces E self api_name data_type geo_point data w :
  (parsed_data self <> [] ->
   disk E (writes w) = WriteOk ->
   fs (snd (save_data E self api_name data_type true w)) =
     <[data_file self api_name data_type := Stored (JArr (parsed_data self))]>
       (fs w))
  /\
  (parsed_data self = [] ->
   save_data E self api_name data_type true w =
     (Ok tt, logged w [EvLog INFO (MsgNothingToSave api_name data_type);
                       EvPrint (MsgNothingToSave api_name data_type)]))
  /\
  (Py.truthy (nodes_of data) = true ->
   disk E (writes w) = WriteOk ->
   fs (snd (save_point_data E self geo_point data true w)) =
     <[point_file self geo_point := Stored (nodes_of data)]> (fs w))
  /\
  (Py.truthy (nodes_of data) = false ->
   exists r evs,
     save_point_data E self geo_point data true w = (r, logged w evs) /\
     files_written evs = []).
Proof.
  repeat split.
  - intros Hbatch Hdisk. rewrite save_data_initial by done.
    unfold written. by rewrite Hdisk.
  - intros Hbatch. unfold save_data. rewrite Hbatch. run.
    unfold logged. by rewrite <- app_assoc.
  - intros Hnodes Hdisk. rewrite save_point_data_initial by done.
    unfold written. cbn [writes logged]. by rewrite Hdisk.
  - apply save_point_data_nothing.
Qed.

Lemma initial_merge_replaces_witness :
  fs (snd (save_data env_timeouts (air [record 2]) "ala_place" "data" true
             (world_with "air/ala_place_data.json" (Stored (JArr [record 1])))))
  = <["air/ala_place_data.json" := Stored (JArr [record 2])]>
      {["air/ala_place_data.json" := Stored (JArr [record 1])]}
  /\
  save_data env_timeouts (air []) "ala_place" "data" true
    (world_with "air/ala_place_data.json" (Stored (JArr [record 1]))) =
  (Ok tt,
   logged (world_with "air/ala_place_data.json" (Stored (JArr [record 1])))
     [EvLog INFO (MsgNothingToSave "ala_place" "data");
      EvPrint (MsgNothingToSave "ala_place" "data")]).
Proof.
  split.
  - apply (initial_merge_replaces env_timeouts (air [record 2])
             "ala_place" "data" "7" JNull
             (world_with "air/ala_place_data.json" (Stored (JArr [record 1])))).
    + done.
    + reflexivity.
  - apply (initial_merge_replaces env_timeouts (air [])
             "ala_place" "data" "7" JNull
             (world_with "air/ala_place_data.json" (Stored (JArr [record 1])))).
    reflexivity.
Defined.

(** C4, as stated, fails: an initial merge of the empty batch leaves the
    previous snapshot in place instead of replacing it by the empty one. *)
Lemma initial_merge_of_nothing_keeps_snapshot :
  let w := world_with "air/ala_place_data.json" (Stored (JArr [record 1])) in
  let w' := snd (save_data env_timeouts (air []) "ala_place" "data" true w) in
  fs w' !! "air/ala_place_data.json" = Some (Stored (JArr [record 1])) /\
  fs w' !! "air/ala_place_data.json" <> Some (Stored (JArr (parsed_data (air [])))).
Proof.
  split; [reflexivity|]. vm_compute. discriminate.
Qed.

(** ** What a merge does to the files *)

Section MergeCases.

Variable E : env.
Variable key : json -> result json.
Variable echo : bool.
Variable filename : string.
Variable records_in : json.
Variable initial_parse : bool.
Variable w : world.
Variable out : result unit * world.
Hypothesis Hcases :
  merge_cases E key echo filename records_in initial_parse w out.

Lemma written_writes f doc w0 : writes (written E echo f doc w0) = S (writes w0).
Proof. unfold written. by destruct (disk E (writes w0)). Qed.

(** A merge issues at most one write. *)
Lemma merge_writes :
  writes (snd out) = writes w \/ writes (snd out) = S (writes w).
Proof.
  destruct Hcases as [(r & evs & -> & _)|(evs & doc & -> & _)].
  - by left.
  - right. cbn [snd]. by rewrite written_writes.
Qed.

(** Files other than the target are left alone. *)
Lemma merge_other_files f : f <> filename -> fs (snd out) !! f = fs w !! f.
Proof.
  intros Hf.
  destruct Hcases as [(r & evs & -> & _)|(evs & doc & -> & _)]; [done|].
  unfold written. cbn [snd logged fs writes].
  destruct (disk E (writes w)); cbn [fs];
    by rewrite ?lookup_insert_ne.
Qed.

(** When the disk refuses to open the file, nothing changes on it. *)
Lemma merge_open_fails : disk E (writes w) = OpenFails -> fs (snd out) = fs w.
Proof.
  intros Hdisk.
  destruct Hcases as [(r & evs & -> & _)|(evs & doc & -> & _)]; [done|].
  unfold written. cbn [snd logged fs writes]. by rewrite Hdisk.
Qed.

(** And a merge that had reached its write ends normally with the error
    logged. *)
Lemma merge_open_fails_logged :
  disk E (writes w) = OpenFails ->
  writes (snd out) = S (writes w) ->
  fst out = Ok tt /\
  EvLog ERROR (MsgWriteError filename) ∈ trace (snd out).
Proof.
  intros Hdisk Hwrites.
  destruct Hcases as [(r & evs & -> & _)|(evs & doc & -> & _)];
    [cbn [snd logged writes] in Hwrites; lia|].
  unfold written. cbn [snd fst logged fs writes trace].
  rewrite Hdisk. cbn [fs trace]. split; [done|].
  rewrite elem_of_app. right. rewrite !elem_of_cons. auto.
Qed.

(** When the dump breaks off, a merge that had reached its write ends
    normally with the error logged, and the target holds partial text. *)
Lemma merge_dump_fails :
  disk E (writes w) = DumpFails ->
  writes (snd out) = S (writes w) ->
  fst out = Ok tt /\
  fs (snd out) = <[filename := Truncated]> (fs w) /\
  EvLog ERROR (MsgWriteError filename) ∈ trace (snd out).
Proof.
  intros Hdisk Hwrites.
  destruct Hcases as [(r & evs & -> & _)|(evs & doc & -> & _)];
    [cbn [snd logged writes] in Hwrites; lia|].
  unfold written. cbn [snd fst logged fs writes trace].
  rewrite Hdisk. cbn [fs trace]. split; [done|]. split; [done|].
  rewrite elem_of_app. right. rewrite !elem_of_cons. auto.
Qed.

(** In incremental mode, a snapshot keeps its records where they are as
    long as no dump breaks off. *)
Lemma merge_appends f l :
  initial_parse = false ->
  disk E (writes w) <> DumpFails ->
  fs w !! f = Some (Stored (JArr l)) ->
  exists extra, fs (snd out) !! f = Some (Stored (JArr (l ++ extra))).
Proof.
  intros Hmode Hdisk Hf.
  destruct Hcases as [(r & evs & -> & _)|(evs & doc & -> & _ & Hdoc)].
  { exists []. by rewrite app_nil_r. }
  destruct Hdoc as [[? _]|(_ & existing & Hstored & _ & _ & ->)]; [congruence|].
  unfold written. cbn [snd logged fs writes].
  destruct (disk E (writes w)) eqn:Hd; [| |done]; cbn [fs].
  - destruct (decide (f = filename)) as [->|Hne].
    + rewrite lookup_insert_eq.
      destruct Hstored as [Hs|[Hs _]]; [|congruence].
      rewrite Hf in Hs. injection Hs as <-. eauto.
    + rewrite lookup_insert_ne by done. exists []. by rewrite app_nil_r.
  - exists []. by rewrite app_nil_r.
Qed.

(** A merge of a batch that repeats no key leaves every file with
    distinct keys, if it found them so. *)
Lemma merge_unique :
  NoDup (keys key (records records_in)) ->
  (forall f, unique key (fs w !! f)) ->
  forall f, unique key (fs (snd out) !! f).
Proof.
  intros Hbatch Hinv f.
  destruct Hcases as [(r & evs & -> & _)|(evs & doc & -> & _ & Hdoc)];
    [apply Hinv|].
  unfold written. cbn [snd logged fs writes].
  destruct (disk E (writes w)); cbn [fs]; [| apply Hinv |].
  - destruct (decide (f = filename)) as [->|Hne];
      [|rewrite lookup_insert_ne by done; apply Hinv].
    rewrite lookup_insert_eq. cbn [unique].
    destruct Hdoc as [[_ ->]|(_ & existing & Hstored & _ & _ & ->)]; [done|].
    cbn [records]. apply unique_merge; [|done].
    destruct Hstored as [Hs|[_ ->]]; [|constructor].
    specialize (Hinv filename). by rewrite Hs in Hinv.
  - destruct (decide (f = filename)) as [->|Hne];
      [|rewrite lookup_insert_ne by done; apply Hinv].
    by rewrite lookup_insert_eq.
Qed.

End MergeCases.

Lemma perform_cases_collection E op w :
  on_collection op ->
  merge_cases E nid true (target op) (JArr (batch_of op)) (mode op) w
    (perform E op w).
Proof. destruct op; [intros _; apply save_data_cases | done]. Qed.

Lemma perform_cases_point E op w :
  on_point op ->
  exists nodes,
    records nodes = batch_of op /\
    merge_cases E period false (target op) nodes (mode op) w (perform E op w).
Proof.
  destruct op; [done|]. intros _. exists (nodes_of data).
  split; [done|]. apply save_point_data_cases.
Qed.

Lemma perform_cases E op w :
  exists key echo nodes,
    records nodes = batch_of op /\
    ((on_collection op /\ key = nid) \/ (on_point op /\ key = period)) /\
    merge_cases E key echo (target op) nodes (mode op) w (perform E op w).
Proof.
  destruct op.
  - exists nid, true, (JArr (parsed_data self)).
    split; [done|]. split; [by left|]. apply save_data_cases.
  - exists period, false, (nodes_of data).
    split; [done|]. split; [by right|]. apply save_point_data_cases.
Qed.

(** ** Failing writes *)

(** C3, as the code has it.  A write is not all-or-nothing.  In either
    mode a merge touches no file but its target, and a failure of the
    write that it attempts is caught and logged: the merge ends normally
    with the write error of its target in the log.  When the file cannot
    be opened for writing the files stay as they were; when the dump
    breaks off after the file was opened, the target is left with partial
    text in place of its previous contents. *)
Theorem write_failure_effect E op w :
  (forall f, f <> target op -> fs (snd (perform E op w)) !! f = fs w !! f)
  /\
  (disk E (writes w) = OpenFails ->
   fs (snd (perform E op w)) = fs w /\
   (writes (snd (perform E op w)) = S (writes w) ->
    fst (perform E op w) = Ok tt /\
    EvLog ERROR (MsgWriteError (target op)) ∈ trace (snd (perform E op w))))
  /\
  (disk E (writes w) = DumpFails ->
   writes (snd (perform E op w)) = S (writes w) ->
   fst (perform E op w) = Ok tt /\
   fs (snd (perform E op w)) = <[target op := Truncated]> (fs w) /\
   EvLog ERROR (MsgWriteError (target op)) ∈ trace (snd (perform E op w))).
Proof.
  destruct (perform_cases E op w) as (key & echo & nodes & _ & _ & Hcases).
  split; [|split].
  - intros f. by eapply merge_other_files.
  - intros Hdisk. split; [by eapply merge_open_fails|].
    by eapply merge_open_fails_logged.
  - by eapply merge_dump_fails.
Qed.

Lemma write_failure_effect_witness :
  let op := SaveData (air [record 2]) "ala_place" "data" false in
  let w := world_with "air/ala_place_data.json" (Stored (JArr [record 1])) in
  (fs (snd (perform env_open_fails op w)) = fs w /\
   fst (perform env_open_fails op w) = Ok tt /\
   EvLog ERROR (MsgWriteError "air/ala_place_data.json")
     ∈ trace (snd (perform env_open_fails op w))) /\
  (fst (perform env_dump_fails op w) = Ok tt /\
   fs (snd (perform env_dump_fails op w)) =
     <["air/ala_place_data.json" := Truncated]> (fs w) /\
   EvLog ERROR (MsgWriteError "air/ala_place_data.json")
     ∈ trace (snd (perform env_dump_fails op w))).
Proof.
  split.
  - destruct (write_failure_effect env_open_fails
                (SaveData (air [record 2]) "ala_place" "data" false)
                (world_with "air/ala_place_data.json"
                   (Stored (JArr [record 1]))))
      as (_ & Hopen & _).
    destruct (Hopen eq_refl) as [Hfs Hlog]. split; [exact Hfs|].
    exact (Hlog eq_refl).
  - apply (write_failure_effect env_dump_fails
             (SaveData (air [record 2]) "ala_place" "data" false)
             (world_with "air/ala_place_data.json" (Stored (JArr [record 1])))).
    + reflexivity.
    + reflexivity.
Defined.

(** C3, as stated, fails: an incremental merge whose dump breaks off
    leaves the file with partial text, and the snapshot it held is gone. *)
Lemma interrupted_write_loses_snapshot :
  let w := world_with "air/ala_place_data.json" (Stored (JArr [record 1])) in
  let w' := snd (save_data env_dump_fails (air [record 2]) "ala_place" "data"
                   false w) in
  fs w !! "air/ala_place_data.json" = Some (Stored (JArr [record 1])) /\
  fs w' !! "air/ala_place_data.json" = Some Truncated /\
  fst (load_file "air/ala_place_data.json" w') = Raise JSONDecodeError.
Proof. by vm_compute. Qed.

(** ** Monotonic growth *)

(** C5, as the code has it.  Along any sequence of incremental merges in
    which no dump breaks off after the file was opened, a snapshot only
    grows at its end: the records it held are still there, unchanged and
    at their positions, and their number does not decrease. *)
Theorem incremental_merges_append E ops : forall w f l,
  Forall (fun op => mode op = false) ops ->
  (forall i, disk E i <> DumpFails) ->
  fs w !! f = Some (Stored (JArr l)) ->
  exists extra,
    fs (after E ops w) !! f = Some (Stored (JArr (l ++ extra))) /\
    (length l <= length (l ++ extra))%nat /\
    (forall i r, l !! i = Some r -> (l ++ extra) !! i = Some r).
Proof.
  assert (forall w f l,
    Forall (fun op => mode op = false) ops ->
    (forall i, disk E i <> DumpFails) ->
    fs w !! f = Some (Stored (JArr l)) ->
    exists extra, fs (after E ops w) !! f = Some (Stored (JArr (l ++ extra))))
    as Happend.
  { induction ops as [|op ops' IH]; intros w f l Hmodes Hdisk Hf.
    - exists []. by rewrite app_nil_r.
    - inversion Hmodes as [|? ? Hmode Hrest]; subst.
      destruct (perform_cases E op w) as (key & echo & nodes & _ & _ & Hcases).
      rewrite Hmode in Hcases.
      destruct (merge_appends E key echo (target op) nodes false w _ Hcases
                  f l eq_refl (Hdisk _) Hf) as [extra1 Hf1].
      destruct (IH _ f _ Hrest Hdisk Hf1) as [extra2 Hf2].
      exists (extra1 ++ extra2). by rewrite app_assoc. }
  intros w f l Hmodes Hdisk Hf.
  destruct (Happend w f l Hmodes Hdisk Hf) as [extra Hextra].
  exists extra. split; [done|]. split.
  - rewrite length_app. lia.
  - intros i r Hi. by apply lookup_app_l_Some.
Qed.

Lemma incremental_merges_append_witness :
  exists extra,
    fs (after env_timeouts two_point_harvests
          (world_with "air/point_data/point_7.json" (Stored (JArr [point "2019"]))))
      !! "air/point_data/point_7.json"
    = Some (Stored (JArr ([point "2019"] ++ extra))) /\
    (length [point "2019"] <= length ([point "2019"] ++ extra))%nat /\
    (forall i r, [point "2019"] !! i = Some r ->
                 ([point "2019"] ++ extra) !! i = Some r).
Proof.
  apply (incremental_merges_append env_timeouts two_point_harvests
           (world_with "air/point_data/point_7.json" (Stored (JArr [point "2019"])))
           "air/point_data/point_7.json" [point "2019"]).
  - repeat constructor.
  - intros i. simpl. discriminate.
  - reflexivity.
Defined.

(** C5, as stated, fails: an incremental merge whose dump breaks off
    leaves its target without the records that it held. *)
Lemma interrupted_merge_drops_records :
  let op := SaveData (air [record 2]) "ala_place" "data" false in
  let w := world_with "air/ala_place_data.json" (Stored (JArr [record 1])) in
  mode op = false /\
  fs w !! target op = Some (Stored (JArr [record 1])) /\
  fs (after env_dump_fails [op] w) !! target op = Some Truncated /\
  forall extra,
    fs (after env_dump_fails [op] w) !! target op <>
      Some (Stored (JArr ([record 1] ++ extra))).
Proof.
  split; [reflexivity|]. split; [reflexivity|].
  assert (fs (after env_dump_fails
                [SaveData (air [record 2]) "ala_place" "data" false]
                (world_with "air/ala_place_data.json"
                   (Stored (JArr [record 1]))))
            !! "air/ala_place_data.json" = Some Truncated) as H
    by (by vm_compute).
  split; [exact H|]. intros extra. cbn zeta.
  change (target (SaveData (air [record 2]) "ala_place" "data" false))
    with "air/ala_place_data.json".
  by rewrite H.
Qed.

(** ** Uniqueness of identities *)

Lemma merges_unique E key (P : merge -> Prop) ops :
  (forall op, P op ->
     (on_collection op /\ key = nid) \/ (on_point op /\ key = period)) ->
  forall w,
    Forall (fun op => P op /\ NoDup (keys key (batch_of op))) ops ->
    (forall f, unique key (fs w !! f)) ->
    forall f, unique key (fs (after E ops w) !! f).
Proof.
  intros HP. induction ops as [|op ops' IH]; intros w Hops Hinv; [done|].
  inversion Hops as [|? ? [Hop Hnd] Hrest]; subst.
  apply IH; [done|].
  destruct (perform_cases E op w)
    as (key' & echo & nodes & Hnodes & Hkind & Hcases).
  assert (key' = key) as ->.
  { destruct (HP op Hop) as [[? ->]|[? ->]], Hkind as [[? ->]|[? ->]];
      try done; by destruct op. }
  eapply merge_unique; [done| |done]. by rewrite Hnodes.
Qed.

(** C1, as the code has it.  Along any sequence of merges into the
    collection files, in either mode, no two records of a persisted file
    share a "Nid", provided no batch holds two records with the same "Nid"
    (and the files started so); likewise for the point files and the
    "field_period" of their nodes.  A merge drops the records whose
    identity the snapshot has and compares no two records of one batch. *)
Theorem merges_keep_identities_unique E ops w :
  (Forall (fun op => on_collection op /\ NoDup (keys nid (batch_of op))) ops ->
   (forall f, unique nid (fs w !! f)) ->
   forall f, unique nid (fs (after E ops w) !! f))
  /\
  (Forall (fun op => on_point op /\ NoDup (keys period (batch_of op))) ops ->
   (forall f, unique period (fs w !! f)) ->
   forall f, unique period (fs (after E ops w) !! f)).
Proof.
  split.
  - apply (merges_unique E nid on_collection). intros op Hop. by left.
  - apply (merges_unique E period on_point). intros op Hop. by right.
Qed.

Lemma merges_keep_identities_unique_witness :
  unique nid (fs (after env_timeouts two_harvests world0)
                !! "air/ala_place_data.json") /\
  unique period (fs (after env_timeouts two_point_harvests world0)
                   !! "air/point_data/point_7.json").
Proof.
  split.
  - apply (merges_keep_identities_unique env_timeouts two_harvests world0).
    + repeat (constructor;
                [split; [exact I | apply (bool_decide_unpack _); by vm_compute]|]).
      constructor.
    + intros f. simpl. by rewrite lookup_empty.
  - apply (merges_keep_identities_unique env_timeouts two_point_harvests world0).
    + repeat (constructor;
                [split; [exact I | apply (bool_decide_unpack _); by vm_compute]|]).
      constructor.
    + intros f. simpl. by rewrite lookup_empty.
Defined.

(** C1, as stated, fails: a batch that holds a "Nid" twice is persisted
    with both records by an initial merge, and so is a batch of nodes that
    holds a period twice by an incremental merge into a new point file. *)
Lemma repeated_identity_is_persisted :
  let w1 := snd (save_data env_timeouts (air [record 1; record 1])
                   "ala_place" "data" true world0) in
  let w2 := snd (save_point_data env_timeouts (air []) "7"
                   (JObj [("nodes", JArr [point "2020"; point "2020"])])
                   false world0) in
  (fs w1 !! "air/ala_place_data.json" =
     Some (Stored (JArr [record 1; record 1])) /\
   ~ unique nid (fs w1 !! "air/ala_place_data.json")) /\
  (fs w2 !! "air/point_data/point_7.json" =
     Some (Stored (JArr [point "2020"; point "2020"])) /\
   ~ unique period (fs w2 !! "air/point_data/point_7.json")).
Proof.
  split; (split; [by vm_compute|]).
  - intros Hu. vm_compute in Hu. apply NoDup_cons in Hu as [Hin _].
    apply Hin. left.
  - intros Hu. vm_compute in Hu. apply NoDup_cons in Hu as [Hin _].
    apply Hin. left.
Qed.

(** ** Geo-point discovery *)

Lemma logged_logged w evs1 evs2 :
  logged (logged w evs1) evs2 = logged w (evs1 ++ evs2).
Proof. unfold logged. simpl. by rewrite app_assoc. Qed.

Lemma files_read_app t1 t2 :
  files_read (t1 ++ t2) = files_read t1 ++ files_read t2.
Proof. apply omap_app. Qed.

Lemma ne_str_true v lit : Py.ne_str v lit = true -> v <> JStr lit.
Proof.
  destruct v; try done. simpl. intros Hne [= ->].
  by rewrite String.eqb_refl in Hne.
Qed.

Lemma discovered_nil : discovered [].
Proof. repeat split; constructor. Qed.

Lemma set_add_discovered v s s' :
  Py.set_add v s = Ok s' ->
  Py.truthy v = true -> Py.ne_str v "Unknown" = true ->
  discovered s -> discovered s'.
Proof.
  unfold Py.set_add. destruct (Py.hash v) as [k|] eqn:Hk; [|done]. simpl.
  intros [= <-] Htruthy Hne (Hkeyed & Hnd & Hvals).
  destruct (Py.has_key k s) eqn:Hdup; [done|].
  assert (key_of itself v = Some k) as Hv by (unfold key_of; simpl; by rewrite Hk).
  repeat split.
  - apply Forall_app. split; [done|]. constructor; [by exists k | constructor].
  - rewrite keys_app. apply NoDup_app. split; [done|]. split.
    + intros k' Hk' Hin. unfold keys in Hin, Hk'. simpl in Hin. rewrite Hv in Hin.
      apply list_elem_of_singleton in Hin as ->.
      apply list_elem_of_omap in Hk' as (e & He & Hke).
      apply key_of_Some in Hke as (e' & [= <-] & Hhash).
      assert (Py.has_key k s = true) by (apply has_key_true; eauto).
      congruence.
    + unfold keys. simpl. rewrite Hv. apply NoDup_singleton.
  - apply Forall_app. split; [done|].
    constructor; [|constructor]. split; [done|]. by apply ne_str_true.
Qed.

Lemma water_body_scanning filename : scanning_body (water_body filename).
Proof.
  intros item s w Hs. unfold water_body. run.
  destruct (Py.get item "field_geo_point" (JStr "")) as [v|]; run; [|eauto].
  destruct (Py.truthy v) eqn:Htruthy; cbn [andb];
    [destruct (Py.ne_str v "Unknown") eqn:Hne|]; run.
  - destruct (Py.set_add v s) as [s'|] eqn:Hadd; run; [|eauto].
    left. exists s', [EvLog INFO (MsgGeoPoint v filename)].
    split; [done|]. split; [done|]. by eapply set_add_discovered.
  - left. exists s, []. by rewrite <- logged_nil.
  - left. exists s, []. by rewrite <- logged_nil.
Qed.

Lemma other_body_scanning : scanning_body other_body.
Proof.
  intros item s w Hs. unfold other_body. run.
  destruct (Py.get item "Nid" (JStr "")) as [fallback|]; run; [|eauto].
  destruct (Py.get item "field_geo_point" fallback) as [v|]; run; [|eauto].
  destruct (Py.truthy v) eqn:Htruthy; cbn [andb];
    [destruct (Py.ne_str v "Unknown") eqn:Hne|]; run.
  - destruct (Py.set_add v s) as [s'|] eqn:Hadd; run; [|eauto].
    left. exists s', []. rewrite <- logged_nil.
    split; [done|]. split; [done|]. by eapply set_add_discovered.
  - left. exists s, []. by rewrite <- logged_nil.
  - left. exists s, []. by rewrite <- logged_nil.
Qed.

Lemma for_items_scanning body items :
  scanning_body body ->
  forall s w,
    discovered s ->
    exists s' e evs,
      for_items body items s w = (Ok (s', e), logged w evs) /\
      files_read evs = [] /\ discovered s'.
Proof.
  intros Hbody. induction items as [|item rest IH]; intros s w Hs; simpl.
  - exists s, None, []. by rewrite <- logged_nil.
  - destruct (Hbody item s w Hs) as [(s1 & evs1 & -> & Hr1 & Hs1)|[e ->]].
    + destruct (IH s1 (logged w evs1) Hs1) as (s2 & e & evs2 & -> & Hr2 & Hs2).
      exists s2, e, (evs1 ++ evs2). rewrite logged_logged, files_read_app, Hr1, Hr2.
      done.
    + exists s, (Some e), []. by rewrite <- logged_nil.
Qed.

Lemma scan_file_scanning filepath body s w :
  scanning_body body ->
  discovered s ->
  exists s' evs,
    scan_file filepath body s w = (Ok s', logged w evs) /\
    files_read evs = [filepath] /\ discovered s'.
Proof.
  intros Hbody Hs. unfold scan_file. run.
  assert (exists s' evs,
            (log ERROR (MsgReadError filepath) ;; ret s)%M
              (logged w [EvOpenRead filepath]) = (Ok s', logged w evs) /\
            files_read evs = [filepath] /\ discovered s') as Hfail.
  { exists s, [EvOpenRead filepath; EvLog ERROR (MsgReadError filepath)].
    run. unfold logged. cbn [fs trace requests writes].
    by rewrite <- app_assoc. }
  unfold logged in Hfail. cbn [fs trace requests writes] in Hfail.
  revert Hfail. run. intros Hfail.
  destruct (fs w !! filepath) as [[doc| |]|]; run; try done.
  destruct (Py.iter doc) as [items|]; run; [|done].
  match goal with
  | |- context [for_items body items s ?w1] =>
      destruct (for_items_scanning body items Hbody s w1 Hs)
        as (s' & e & evs & -> & Hr & Hs')
  end.
  unfold logged. cbn [fs trace requests writes].
  destruct e as [e|]; run.
  - exists s', (EvOpenRead filepath :: evs ++ [EvLog ERROR (MsgReadError filepath)]).
    split; [unfold logged; by rewrite <- !app_assoc|].
    split; [|done]. cbn. change (omap _ ?t) with (files_read t).
    by rewrite files_read_app, Hr.
  - exists s', (EvOpenRead filepath :: evs).
    split; [unfold logged; by rewrite <- !app_assoc|].
    split; [|done]. cbn. change (omap _ ?t) with (files_read t).
    by rewrite Hr.
Qed.

Lemma scan_targets_scanning self filenames : forall s w,
  discovered s ->
  exists s' evs,
    scan_targets self filenames s w = (Ok s', logged w evs) /\
    files_read evs ⊆ path_join (category self) <$> filenames /\
    discovered s'.
Proof.
  induction filenames as [|filename rest IH]; intros s w Hs; simpl.
  - exists s, []. rewrite <- logged_nil.
    split; [done|]. split; [|done]. intros x Hx. by apply elem_of_nil in Hx.
  - run. destruct (bool_decide (is_Some (fs w !! path_join (category self) filename))).
    + destruct (scan_file_scanning (path_join (category self) filename)
                  (water_body filename) s w (water_body_scanning filename) Hs)
        as (s1 & evs1 & -> & Hr1 & Hs1).
      destruct (IH s1 (logged w evs1) Hs1) as (s2 & evs2 & -> & Hr2 & Hs2).
      exists s2, (evs1 ++ evs2). rewrite logged_logged, files_read_app, Hr1.
      split; [done|]. split; [|done].
      intros x Hx. apply elem_of_app in Hx as [Hx|Hx].
      * apply list_elem_of_singleton in Hx as ->. apply elem_of_cons. by left.
      * apply elem_of_cons. right. by apply Hr2.
    + run.
      match goal with
      | |- context [scan_targets self rest s ?w1] =>
          change w1 with (logged w [EvLog WARNING
                            (MsgFileNotFound (path_join (category self) filename))])
      end.
      destruct (IH s (logged w [EvLog WARNING
                  (MsgFileNotFound (path_join (category self) filename))]) Hs)
        as (s2 & evs2 & -> & Hr2 & Hs2).
      eexists s2, (_ :: evs2). rewrite logged_logged.
      split; [done|]. split; [|done]. cbn.
      change (omap _ ?t) with (files_read t).
      intros x Hx. apply elem_of_cons. right. by apply Hr2.
Qed.

Lemma scan_listing_scanning self data_type filenames : forall s w,
  discovered s ->
  exists s' evs,
    scan_listing self data_type filenames s w = (Ok s', logged w evs) /\
    discovered s'.
Proof.
  induction filenames as [|filename rest IH]; intros s w Hs; simpl.
  - exists s, []. by rewrite <- logged_nil.
  - run. destruct (Py.endswith filename _).
    + destruct (scan_file_scanning (path_join (category self) filename)
                  other_body s w other_body_scanning Hs)
        as (s1 & evs1 & -> & Hr1 & Hs1).
      destruct (IH s1 (logged w evs1) Hs1) as (s2 & evs2 & -> & Hs2).
      exists s2, (evs1 ++ evs2). by rewrite logged_logged.
    + run. apply IH. done.
Qed.

(** ** Fan-out: the embedded "php" document *)

Lemma assoc_set_eq k v kv : Py.assoc k (Py.assoc_set k v kv) = Some v.
Proof.
  induction kv as [|[k' v'] rest IH]; simpl.
  - by rewrite String.eqb_refl.
  - destruct (String.eqb_spec k k') as [->|Hne]; simpl.
    + by rewrite String.eqb_refl.
    + by destruct (String.eqb_spec k k').
Qed.

Lemma assoc_set_ne k k' v kv :
  k <> k' -> Py.assoc k' (Py.assoc_set k v kv) = Py.assoc k' kv.
Proof.
  intros Hne. induction kv as [|[k0 v0] rest IH]; simpl.
  - by destruct (String.eqb_spec k' k).
  - destruct (String.eqb_spec k k0) as [->|Hne0]; simpl.
    + by destruct (String.eqb_spec k' k0).
    + by rewrite IH.
Qed.

Lemma assoc_del_ne k k' kv :
  k <> k' -> Py.assoc k' (Py.assoc_del k kv) = Py.assoc k' kv.
Proof.
  intros Hne. induction kv as [|[k0 v0] rest IH]; simpl; [done|].
  destruct (String.eqb_spec k k0) as [->|Hne0]; simpl.
  - by destruct (String.eqb_spec k' k0).
  - by rewrite IH.
Qed.

(** Replacing the node of an item by one that has the same period keeps
    the period of the item. *)
Lemma period_set_node item_fields node_fields node_fields' :
  Py.assoc "node" item_fields = Some (JObj node_fields) ->
  Py.assoc "field_period" node_fields' = Py.assoc "field_period" node_fields ->
  period (JObj (Py.assoc_set "node" (JObj node_fields') item_fields)) =
  period (JObj item_fields).
Proof.
  intros Hnode Hperiod. unfold period, Py.getitem.
  rewrite assoc_set_eq, Hnode. simpl. by rewrite Hperiod.
Qed.

Section Expand.

Variable E : env.
Variable geo_point : string.

Lemma expand_php_spec item w :
  expandable item ->
  exists item' evs,
    expand_php E geo_point item w = (Ok item', logged w evs) /\
    expanded E geo_point item item' evs.
Proof.
  intros (node & php_data & Hnode & Hphp & Hkind). unfold expand_php.
  rewrite Hnode. run. rewrite Hphp. run.
  destruct item as [| | | | |item_fields]; try done.
  destruct node as [| | | | |node_fields]; try done.
  simpl in Hnode, Hphp. injection Hnode as Hnode. injection Hphp as Hphp.
  destruct (Py.truthy php_data) eqn:Htruthy.
  - destruct Hkind as [|[text ->]]; [done|].
    destruct (Py.assoc "node" item_fields) as [node|] eqn:Hassoc;
      [subst node
      | injection Hnode as <-; simpl in Hphp; by injection Hphp as <-].
    destruct (Py.assoc "php" node_fields) as [php|] eqn:Hassoc';
      [subst php | by injection Hphp as <-].
    assert (php_text (JObj item_fields) = Some text) as Htext.
    { simpl. rewrite Hassoc, Hassoc'.
      simpl in Htruthy. by destruct (String.eqb text ""). }
    destruct (loads E text) as [substances|] eqn:Hloads; run.
    + eexists _, []. rewrite <- logged_nil. split; [done|]. split.
      * apply (period_set_node _ node_fields); [done|].
        by rewrite assoc_del_ne, assoc_set_ne.
      * intros text' Htext' Hnone. congruence.
    + eexists _, [_]. split; [done|]. split.
      * apply (period_set_node _ node_fields); [done|].
        by rewrite assoc_set_ne.
      * intros text' Htext' Hnone. simpl. by rewrite Hassoc.
  - exists (JObj item_fields), []. rewrite <- logged_nil. split; [done|]. split; [done|].
    intros text Htext. exfalso. simpl in Htext.
    destruct (Py.assoc "node" item_fields) as [node|]; [subst node|done].
    destruct (Py.assoc "php" node_fields) as [php|]; [subst php|done].
    destruct php_data as [| | |s| |]; try done. simpl in Htruthy.
    by destruct (String.eqb s "").
Qed.

Lemma expand_all_spec items : forall w,
  Forall expandable items ->
  exists items' evs,
    expand_all E geo_point items w = (Ok items', logged w evs) /\
    length items' = length items /\
    Forall2 (fun item item' => period item' = period item) items items' /\
    forall i item text,
      items !! i = Some item ->
      php_text item = Some text -> loads E text = None ->
      items' !! i = Some (degraded item) /\
      EvLog ERROR (MsgPhpError geo_point) ∈ evs.
Proof.
  induction items as [|item rest IH]; intros w Hall; simpl.
  - exists [], []. rewrite <- logged_nil. repeat split; try done.
    all: intros i item text Hi; by rewrite lookup_nil in Hi.
  - inversion Hall as [|? ? Hitem Hrest]; subst. run.
    destruct (expand_php_spec item w Hitem) as (item' & evs1 & -> & Hp & Hdeg).
    destruct (IH (logged w evs1) Hrest)
      as (rest' & evs2 & -> & Hlen & Hperiods & Hdegs).
    exists (item' :: rest'), (evs1 ++ evs2). rewrite logged_logged.
    split; [done|]. split; [simpl; by rewrite Hlen|].
    split; [by constructor|].
    intros [|i] it text Hi Htext Hnone; simpl in Hi.
    + injection Hi as <-. destruct (Hdeg text Htext Hnone) as [-> ->].
      split; [done|]. apply elem_of_app. left. by apply list_elem_of_singleton.
    + destruct (Hdegs i it text Hi Htext Hnone) as [Hit Hlog].
      split; [done|]. apply elem_of_app. by right.
Qed.

End Expand.

Lemma setup_logging_opens E api_name w :
  opens E api_name -> _setup_logging E api_name w = (Ok tt, w).
Proof. unfold opens, _setup_logging. by intros ->. Qed.

Lemma degraded_substances item text :
  php_text item = Some text ->
  substances_of (degraded item) = Ok (JArr []) /\
  php_of (degraded item) = Ok (JStr text).
Proof.
  unfold php_text, degraded, substances_of, php_of.
  destruct item as [| | | | |item_fields]; try done.
  destruct (Py.assoc "node" item_fields) as [[| | | | |node_fields]|] eqn:Hnode;
    try done.
  destruct (Py.assoc "php" node_fields) as [[| | |s| |]|] eqn:Hphp; try done.
  destruct (String.eqb s ""); [done|]. intros [= ->].
  cbn [Py.getitem]. rewrite !assoc_set_eq. cbn [rbind Py.getitem].
  rewrite assoc_set_eq, assoc_set_ne by done. by rewrite Hphp.
Qed.

Lemma fetch_data_ok E self api_name api_url w status data :
  1 <= retries self ->
  net E (requests w) = RespHttp status (BodyJson data) ->
  status < 400 ->
  Py.contains_str "nodes" data = Ok true ->
  fetch_data E self api_name api_url w =
    (Ok data,
     World (fs w)
           (trace w ++ [EvJitter;
                        EvLog INFO (MsgAttempt 1 (retries self) api_url);
                        EvGet api_url;
                        EvLog INFO (MsgRequestOk status)])
           (S (requests w)) (writes w)).
Proof.
  intros Hretries Hnet Hstatus Hnodes. unfold fetch_data. run.
  destruct (Z.to_nat (retries self)) as [|fuel] eqn:Hfuel; [lia|].
  cbn [fetch_loop].
  destruct (Z.ltb_spec 0 (retries self)) as [_|]; [|lia].
  run. rewrite Hnet. run.
  destruct (Z.leb_spec 400 status) as [|_]; [lia|]. run.
  rewrite Hnodes. run. by rewrite <- !app_assoc.
Qed.

Lemma save_point_data_incremental E self geo_point fields l w existing :
  Py.assoc "nodes" fields = Some (JArr l) ->
  stored (fs w !! point_file self geo_point) existing ->
  Forall (keyed period) existing ->
  Forall (keyed period) l ->
  fresh period existing l <> [] ->
  disk E (writes w) = WriteOk ->
  fs (snd (save_point_data E self geo_point (JObj fields) false w)) =
    <[point_file self geo_point :=
        Stored (JArr (existing ++ fresh period existing l))]> (fs w).
Proof.
  intros Hnodes Hstored Hex Hl Hfresh Hdisk.
  destruct (merge_total period existing l Hex Hl) as (seen & Hseen & Hnew).
  assert (l <> []) as Hne by (intros ->; by apply Hfresh).
  unfold save_point_data.
  assert (Py.truthy (JObj fields) = true) as -> by (by destruct fields).
  cbn [Py.get Py.getitem]. rewrite Hnodes. run.
  assert (Py.truthy (JArr l) = true) as -> by (by destruct l).
  run.
  destruct Hstored as [Hfile|[Hfile ->]];
    repeat progress
      (cbn [Py.iter Py.getitem];
       rewrite ?Hfile, ?exists_Some, ?exists_None, ?Hnodes, ?Hseen, ?Hnew;
       run).
  - destruct (fresh period existing l) as [|n new'] eqn:Hn; [done|].
    rewrite <- Hn. cbn [Py.add_list]. run. rewrite write_back_spec.
    unfold written. cbn [fs trace requests writes snd]. by rewrite Hdisk.
  - destruct (fresh period [] l) as [|n new'] eqn:Hn; [done|].
    rewrite <- Hn. cbn [Py.add_list]. run. rewrite write_back_spec.
    unfold written. cbn [fs trace requests writes snd]. by rewrite Hdisk.
Qed.

(** C10, as the code has it.  When the logger of the geo point is set up
    and the response carries nodes on which the expansion raises nothing,
    [parse_point_data] returns the response with as many nodes as it had;
    a node whose "php" is a non-empty text that does not decode comes back
    at its place with "substances" set to the empty list and its "php"
    left as it was, an error is logged for it, and a [save_point_data] of
    the result whose write completes persists it: always in initial mode,
    and in incremental mode when the periods are hashable and its period
    is not in the snapshot of the point. *)
Theorem malformed_php_node_is_kept E self geo_point w status fields items
    initial_parse existing :
  opens E ("sources_values_" +:+ geo_point) ->
  1 <= retries self ->
  net E (requests w) = RespHttp status (BodyJson (JObj fields)) ->
  status < 400 ->
  Py.assoc "nodes" fields = Some (JArr items) ->
  items <> [] ->
  Forall expandable items ->
  exists items' evs,
    let data' := JObj (Py.assoc_set "nodes" (JArr items') fields) in
    let w1 := World (fs w) (trace w ++ evs) (S (requests w)) (writes w) in
    parse_point_data E self geo_point w = (Ok data', w1) /\
    length items' = length items /\
    forall i item text,
      items !! i = Some item ->
      php_text item = Some text ->
      loads E text = None ->
      items' !! i = Some (degraded item) /\
      substances_of (degraded item) = Ok (JArr []) /\
      php_of (degraded item) = Ok (JStr text) /\
      period (degraded item) = period item /\
      EvLog ERROR (MsgPhpError geo_point) ∈ evs /\
      (disk E (writes w) = WriteOk ->
       initial_parse = true \/
       (initial_parse = false /\
        stored (fs w !! point_file self geo_point) existing /\
        Forall (keyed period) existing /\
        Forall (keyed period) items /\
        key_of period item ∉ key_of period <$> existing) ->
       exists l,
         fs (snd (save_point_data E self geo_point data' initial_parse w1))
           !! point_file self geo_point = Some (Stored (JArr l)) /\
         degraded item ∈ l).
Proof.
  intros Hopens Hretries Hnet Hstatus Hnodes Hne Hall.
  unfold parse_point_data.
  set (api_url := base_url self +:+ "/sources_values?geo_point=" +:+ geo_point).
  set (api_name := "sources_values_" +:+ geo_point).
  assert (Py.contains_str "nodes" (JObj fields) = Ok true) as Hhas.
  { simpl. by rewrite Hnodes, exists_Some. }
  run. rewrite (setup_logging_opens E api_name w Hopens). run.
  rewrite (fetch_data_ok E self api_name api_url w status (JObj fields))
    by done.
  assert (Py.truthy (JObj fields) = true) as -> by (by destruct fields).
  cbn [Py.get Py.getitem]. rewrite Hnodes. run.
  assert (Py.truthy (JArr items) = true) as -> by (by destruct items).
  run. cbn [Py.iter]. run.
  match goal with
  | |- context [expand_all E geo_point items ?w0] =>
      destruct (expand_all_spec E geo_point items w0 Hall)
        as (items' & evs & -> & Hlen & Hperiods & Hdeg)
  end.
  unfold logged. cbn [fs trace requests writes].
  eexists items', (_ ++ evs). cbn zeta.
  split; [by rewrite <- app_assoc|]. split; [done|].
  intros i item text Hi Htext Hnone.
  destruct (Hdeg i item text Hi Htext Hnone) as [Hi' Hlog].
  assert (period (degraded item) = period item) as Hper.
  { clear -Hperiods Hi Hi'.
    revert i Hi Hi'. induction Hperiods as [|a b la lb Hab _ IH];
      intros [|i] Hi Hi'; try done; simpl in *.
    - by injection Hi as <-; injection Hi' as <-.
    - by eapply IH. }
  destruct (degraded_substances item text Htext) as [Hsub Hphp].
  split; [done|]. split; [done|]. split; [done|]. split; [done|].
  split; [apply elem_of_app; by right|].
  intros Hdisk Hmode.
  assert (degraded item ∈ items') as Hin by (by eapply list_elem_of_lookup_2).
  assert (items' <> []) as Hne' by (intros ->; by apply elem_of_nil in Hin).
  destruct Hmode as [->|(-> & Hstored & Hex & Hkeyed & Hfresh)].
  - exists items'. split; [|done].
    rewrite save_point_data_initial.
    + unfold written, nodes_of. cbn [Py.get]. rewrite assoc_set_eq.
      cbn [logged writes fs snd]. rewrite Hdisk. cbn [fs].
      by rewrite lookup_insert_eq.
    + unfold nodes_of. cbn [Py.get]. rewrite assoc_set_eq. by destruct items'.
  - assert (Forall (keyed period) items') as Hkeyed'.
    { clear -Hperiods Hkeyed. induction Hperiods as [|a b la lb Hab _ IH];
        [constructor|].
      inversion Hkeyed; subst. constructor; [|by apply IH].
      unfold keyed, key_of in *. by rewrite Hab. }
    assert (degraded item ∈ fresh period existing items') as Hfr.
    { apply list_elem_of_filter. split; [|done].
      unfold key_of in *. by rewrite Hper. }
    exists (existing ++ fresh period existing items'). split.
    + rewrite (save_point_data_incremental E self geo_point _ items' _ existing).
      * by rewrite lookup_insert_eq.
      * apply assoc_set_eq.
      * done.
      * done.
      * done.
      * intros Hnil. rewrite Hnil in Hfr. by apply elem_of_nil in Hfr.
      * done.
    + apply elem_of_app. by right.
Qed.

Lemma malformed_php_node_is_kept_witness :
  exists items' evs,
    let data' := JObj (Py.assoc_set "nodes" (JArr items')
                         [("nodes", JArr [malformed_node])]) in
    let w1 := World (fs world0) (trace world0 ++ evs) (S (requests world0))
                (writes world0) in
    parse_point_data env_malformed (air []) "7" world0 = (Ok data', w1) /\
    length items' = length [malformed_node] /\
    forall i item text,
      [malformed_node] !! i = Some item ->
      php_text item = Some text ->
      loads env_malformed text = None ->
      items' !! i = Some (degraded item) /\
      substances_of (degraded item) = Ok (JArr []) /\
      php_of (degraded item) = Ok (JStr text) /\
      period (degraded item) = period item /\
      EvLog ERROR (MsgPhpError "7") ∈ evs /\
      (disk env_malformed (writes world0) = WriteOk ->
       false = true \/
       (false = false /\
        stored (fs world0 !! point_file (air []) "7") [] /\
        Forall (keyed period) [] /\
        Forall (keyed period) [malformed_node] /\
        key_of period item ∉ key_of period <$> []) ->
       exists l,
         fs (snd (save_point_data env_malformed (air []) "7" data' false w1))
           !! point_file (air []) "7" = Some (Stored (JArr l)) /\
         degraded item ∈ l).
Proof.
  apply (malformed_php_node_is_kept env_malformed (air []) "7" world0 200
           [("nodes", JArr [malformed_node])] [malformed_node] false []).
  - reflexivity.
  - simpl. lia.
  - reflexivity.
  - lia.
  - reflexivity.
  - discriminate.
  - repeat constructor.
    exists (JObj [("field_period", JStr "2020"); ("php", JStr "not valid json")]),
           (JStr "not valid json").
    split; [reflexivity|]. split; [reflexivity|]. right. by eexists.
Defined.

(** The scenario of C10: a node whose "php" is "not valid json" is
    fetched, logged as an error, and persisted with an empty "substances"
    (its "php" text still in place). *)
Example malformed_php_scenario :
  let '(data, w1) := parse_point_data env_malformed (air []) "7" world0 in
  let w2 := snd (save_point_data env_malformed (air []) "7"
                   (match data with Ok d => d | Raise _ => JNull end) false w1) in
  EvLog ERROR (MsgPhpError "7") ∈ trace w1 /\
  fs w2 !! "air/point_data/point_7.json" =
    Some (Stored (JArr
      [JObj [("node", JObj [("field_period", JStr "2020");
                            ("php", JStr "not valid json");
                            ("substances", JArr [])])]])).
Proof.
  split; [|by vm_compute].
  vm_compute. repeat (first [ apply list_elem_of_here | apply list_elem_of_further ]).
Qed.

(** C10, as stated, fails: a sibling whose "php" is truthy and no text
    makes the expansion raise [TypeError], which nothing catches; the
    error of the malformed node is logged, but the node is not returned,
    and the fan-out ends there without a file written. *)
Lemma unexpandable_sibling_loses_malformed_node :
  let out := parse_point_data env_sibling (air []) "7" world0 in
  let cycle := fan_out env_sibling (air []) ["7"] true world0 in
  php_text malformed_node = Some "not valid json" /\
  loads env_sibling "not valid json" = None /\
  fst out = Raise TypeError /\
  EvLog ERROR (MsgPhpError "7") ∈ trace (snd out) /\
  fst cycle = Raise TypeError /\
  files_written (trace (snd cycle)) = [] /\
  fs (snd cycle) = fs world0.
Proof.
  repeat split; try (by vm_compute).
  apply list_elem_of_In. vm_compute. auto 10.
Qed.

(** * Further properties *)

(** ** fetch_data: what the loop does on any network *)

(** The events that a trace built by successive [++ [e]] adds to the
    trace it starts from. *)
Ltac added t :=
  lazymatch t with
  | ?t' ++ [?e] => let l := added t' in constr:(l ++ [e])
  | _ => constr:(@nil event)
  end.

Section FetchMore.

Variable E : env.
Variable self : parser.
Variable api_url : string.

Lemma gets_app t1 t2 : gets (t1 ++ t2) = (gets t1 + gets t2)%nat.
Proof. unfold gets. by rewrite List.filter_app, length_app. Qed.

(** The loop passes [k] timeouts and stands at its next iteration. *)
Lemma fetch_loop_skip (k : nat) : forall (fuel : nat) (attempts : Z) (w : world),
  0 <= attempts ->
  attempts + Z.of_nat k < retries self ->
  (forall i, (i < k)%nat -> net E (requests w + i) = RespTimeout) ->
  exists evs,
    fetch_loop E (k + fuel) self api_url attempts w =
      fetch_loop E fuel self api_url (attempts + Z.of_nat k)
        (World (fs w) (trace w ++ evs) (requests w + k) (writes w)) /\
    activity evs = retried api_url (attempts + 1) k /\
    gets evs = k /\ files_written evs = [] /\ files_read evs = [].
Proof.
  induction k as [|k IH]; intros fuel attempts w Hpos Hmax Htime.
  - exists []. rewrite Z.add_0_r, Nat.add_0_r, app_nil_r. by destruct w.
  - cbn [Nat.add fetch_loop].
    destruct (Z.ltb_spec attempts (retries self)) as [_|]; [|lia].
    run. pose proof (Htime 0%nat ltac:(lia)) as H0.
    rewrite Nat.add_0_r in H0. rewrite H0. clear H0. run.
    destruct (Z.eqb_spec (attempts + 1) (retries self)) as [|_]; [lia|]. run.
    match goal with
    | |- context [fetch_loop E (k + fuel) self api_url ?a ?w1] =>
        destruct (IH fuel a w1) as (evs & Hrun & Hact & Hgets & Hw & Hr)
    end; cbn [requests].
    + lia.
    + lia.
    + intros i Hi. rewrite Nat.add_succ_comm. apply Htime. lia.
    + rewrite Hrun. cbn [fs trace requests writes].
      exists (EvLog INFO (MsgAttempt (attempts + 1) (retries self) api_url)
              :: EvGet api_url
              :: EvLog WARNING (MsgTimeout (attempts + 1) (retries self) api_url)
              :: EvSleep (2 ^ (attempts + 1)) :: evs).
      split; [|split; [|split; [|split]]].
      * rewrite <- !app_assoc. cbn [app].
        replace (attempts + 1 + Z.of_nat k) with (attempts + Z.of_nat (S k))
          by lia.
        replace (S (requests w) + k)%nat with (requests w + S k)%nat by lia.
        reflexivity.
      * change (activity (?a :: ?b :: ?c :: ?d :: evs))
          with (activity [a; b; c; d] ++ activity evs).
        rewrite Hact. reflexivity.
      * change (gets (?a :: ?b :: ?c :: ?d :: evs))
          with (gets [a; b; c; d] + gets evs)%nat.
        rewrite Hgets. reflexivity.
      * exact Hw.
      * exact Hr.
Qed.

(** Whatever the network answers, the loop issues no more requests than
    it has attempts left, leaves the files alone and does not run out of
    fuel. *)
Lemma fetch_loop_bound (fuel : nat) : forall (attempts : Z) (w : world),
  (Z.to_nat (retries self - attempts) <= fuel)%nat ->
  exists r evs,
    fetch_loop E fuel self api_url attempts w =
      (r, World (fs w) (trace w ++ evs) (requests w + gets evs) (writes w)) /\
    (gets evs <= Z.to_nat (retries self - attempts))%nat /\
    files_written evs = [] /\ files_read evs = [] /\
    r <> Raise OutOfFuel.
Proof.
  induction fuel as [|fuel IH]; intros attempts w Hfuel; cbn [fetch_loop];
    destruct (Z.ltb_spec attempts (retries self)) as [Hlt|Hge]; try lia.
  1, 3: exists (Ok (JArr [])), []; unfold ret; cbn [gets List.filter length];
        rewrite app_nil_r, Nat.add_0_r; destruct w;
        repeat split; simpl; first [ done | lia ].
  assert (Z.to_nat (retries self - attempts) >= 1)%nat as Hone by lia.
  run.
  destruct (net E (requests w)) as [| |status b]; run;
    [ destruct (Z.eqb_spec (attempts + 1) (retries self)) as [Hlast|Hmore]; run
    | | destruct (400 <=? status);
        [ destruct (status =? 404); run
        | run; destruct b as [data| |]; run;
          [ destruct data; simpl; run;
            try match goal with
                | |- context [negb ?b] => destruct b; run
                end
          | destruct (status =? 404); run | ] ] ].
  all: try (match goal with
            | |- exists r evs, (?r0, World _ ?t _ _) = _ /\ _ =>
                let l := added t in
                exists r0, l; split;
                [ f_equal; f_equal;
                  [ simpl; by rewrite <- ?app_assoc
                  | unfold gets; simpl; lia ]
                | unfold gets, files_written, files_read; simpl;
                  repeat split; first [ done | lia ] ]
            end).
  match goal with
  | |- context [fetch_loop E fuel self api_url ?a ?w1] =>
      destruct (IH a w1) as (r & evs & Hrun & Hn & Hw & Hr & Hfuel')
  end; [lia|].
  rewrite Hrun. cbn [fs trace requests writes].
  exists r,
    (EvLog INFO (MsgAttempt (attempts + 1) (retries self) api_url)
     :: EvGet api_url
     :: EvLog WARNING (MsgTimeout (attempts + 1) (retries self) api_url)
     :: EvSleep (2 ^ (attempts + 1)) :: evs).
  change (gets (?a :: ?b :: ?c :: ?d :: evs))
    with (gets [a; b; c; d] + gets evs)%nat.
  change (gets [_; _; _; _]) with 1%nat.
  split; [rewrite <- !app_assoc; simpl; do 2 f_equal; lia|].
  split; [lia|]. by repeat split.
Qed.

End FetchMore.

Lemma exists_Some_json (x : json) : bool_decide (is_Some (Some x)) = true.
Proof. apply bool_decide_eq_true. eauto. Qed.

Lemma exists_None_json : bool_decide (is_Some (@None json)) = false.
Proof. apply bool_decide_eq_false. by intros [? ?]. Qed.

Lemma backoff_retried url k n :
  backoff url k (S n) = retried url k n ++ [EvGet url].
Proof.
  revert k. induction n as [|n IH]; intros k; [done|].
  change (backoff url k (S (S n)))
    with (EvGet url :: EvSleep (2 ^ k) :: backoff url (k + 1) (S n)).
  by rewrite IH.
Qed.

(** One iteration of the loop on a response that carries a status below
    400: the body decides. *)
Lemma fetch_loop_answer E self api_url fuel attempts w status b :
  attempts < retries self ->
  net E (requests w) = RespHttp status b ->
  status < 400 ->
  fetch_loop E (S fuel) self api_url attempts w =
    let w1 := World (fs w)
                (trace w ++ [EvLog INFO (MsgAttempt (attempts + 1) (retries self)
                                           api_url);
                             EvGet api_url;
                             EvLog INFO (MsgRequestOk status)])
                (S (requests w)) (writes w) in
    match b with
    | BodyJson data =>
        match Py.contains_str "nodes" data with
        | Ok true => (Ok data, w1)
        | Ok false => (Ok (JArr []), logged w1 [EvLog ERROR MsgNoNodesKey])
        | Raise e => (Raise e, w1)
        end
    | BodyWrongType => (Ok (JArr []), logged w1 [EvLog ERROR MsgRequestError])
    | BodyNotJson => (Raise JSONDecodeError, w1)
    end.
Proof.
  intros Hlt Hnet Hstatus. cbn [fetch_loop].
  destruct (Z.ltb_spec attempts (retries self)) as [_|]; [|lia].
  run. rewrite Hnet. run.
  destruct (Z.leb_spec 400 status) as [|_]; [lia|]. run.
  destruct b as [data| |]; run.
  - destruct (Py.contains_str "nodes" data) as [[]|]; run;
      unfold logged; cbn [fs trace requests writes];
      by rewrite <- !app_assoc.
  - assert ((status =? 404) = false) as -> by lia. run.
    unfold logged; cbn [fs trace requests writes]. by rewrite <- !app_assoc.
  - by rewrite <- !app_assoc.
Qed.

(** X1. Whatever the network answers, [fetch_data] issues at most
    [retries] requests, opens no file, changes neither the files nor the
    count of writes, and its loop never exhausts its bound. *)
Theorem fetch_data_bounded E self api_name api_url w :
  exists r evs,
    fetch_data E self api_name api_url w =
      (r, World (fs w) (trace w ++ evs) (requests w + gets evs) (writes w)) /\
    (gets evs <= Z.to_nat (retries self))%nat /\
    files_written evs = [] /\ files_read evs = [] /\
    r <> Raise OutOfFuel.
Proof.
  unfold fetch_data. run.
  match goal with
  | |- context [fetch_loop E ?fuel self api_url ?a ?w1] =>
      destruct (fetch_loop_bound E self api_url fuel a w1)
        as (r & evs & Hrun & Hn & Hw & Hr & Hfuel)
  end; [lia|].
  rewrite Hrun. cbn [fs trace requests writes].
  exists r, (EvJitter :: evs).
  split; [by rewrite <- app_assoc|].
  rewrite Z.sub_0_r in Hn. by repeat split.
Qed.

(** X2. A fetch recovers from timeouts: when [k] requests time out,
    [k] below [retries], and the next one is answered with a status below
    400 and a JSON object, the fetch ends after [k + 1] requests, having
    slept [2^1 .. 2^k] seconds after the failed ones: it returns the
    object as it is if it has the key "nodes", and the empty list, with an
    error logged and no further request, if it has not. *)
Theorem fetch_data_recovers E self api_name api_url w (k : nat) status fields :
  (k < Z.to_nat (retries self))%nat ->
  (forall i, (i < k)%nat -> net E (requests w + i) = RespTimeout) ->
  net E (requests w + k) = RespHttp status (BodyJson (JObj fields)) ->
  status < 400 ->
  exists evs,
    fetch_data E self api_name api_url w =
      (Ok (match Py.assoc "nodes" fields with
           | Some _ => JObj fields
           | None => JArr []
           end),
       World (fs w) (trace w ++ evs) (requests w + k + 1) (writes w)) /\
    activity evs = retried api_url 1 k ++ [EvGet api_url] /\
    (Py.assoc "nodes" fields = None ->
     last evs = Some (EvLog ERROR MsgNoNodesKey)).
Proof.
  intros Hk Htime Hnet Hstatus. unfold fetch_data. run.
  replace (Z.to_nat (retries self))
    with (k + S (Z.to_nat (retries self) - S k))%nat by lia.
  match goal with
  | |- context [fetch_loop E (k + ?fuel) self api_url ?a ?w1] =>
      destruct (fetch_loop_skip E self api_url k fuel a w1)
        as (evs & -> & Hact & _)
  end; cbn [requests]; try lia; try done.
  erewrite fetch_loop_answer; cbn [requests]; [|lia|exact Hnet|done].
  cbn zeta. cbn [Py.contains_str fs trace requests writes].
  destruct (Py.assoc "nodes" fields) as [nodes|].
  - rewrite exists_Some_json. eexists (EvJitter :: evs ++ [_; _; _]).
    split; [f_equal; f_equal; [by rewrite <- !app_assoc | lia]|].
    split; [|done].
    change (activity (EvJitter :: ?t)) with (activity t).
    by rewrite activity_app, Hact.
  - rewrite exists_None_json. eexists (EvJitter :: evs ++ [_; _; _; _]).
    unfold logged. cbn [fs trace requests writes].
    split; [f_equal; f_equal; [by rewrite <- !app_assoc | lia]|].
    split.
    + change (activity (EvJitter :: ?t)) with (activity t).
      by rewrite activity_app, Hact.
    + intros _. rewrite app_comm_cons, last_app. done.
Qed.

Lemma fetch_data_recovers_witness :
  exists evs,
    fetch_data env_recovers (new_parser "air") "ala_place" "u" world0 =
      (Ok (match Py.assoc "nodes"
                   [("nodes", JArr [point "2020"; point "2021"])] with
           | Some _ => JObj [("nodes", JArr [point "2020"; point "2021"])]
           | None => JArr []
           end),
       World (fs world0) (trace world0 ++ evs) (requests world0 + 1 + 1)
             (writes world0)) /\
    activity evs = retried "u" 1 1 ++ [EvGet "u"] /\
    (Py.assoc "nodes" [("nodes", JArr [point "2020"; point "2021"])] = None ->
     last evs = Some (EvLog ERROR MsgNoNodesKey)).
Proof.
  apply (fetch_data_recovers env_recovers (new_parser "air") "ala_place" "u"
           world0 1 200 [("nodes", JArr [point "2020"; point "2021"])]).
  - simpl. lia.
  - intros i Hi. assert (i = 0%nat) as -> by lia. reflexivity.
  - reflexivity.
  - lia.
Defined.

(** X3. An answer that cannot be searched for "nodes" is not turned into
    the empty result: when the request after [k] timeouts is answered with
    a status below 400 and a body that is not JSON, or is a JSON number,
    boolean or null, the exception ([JSONDecodeError], resp. [TypeError])
    escapes [fetch_data], after exactly [k + 1] requests. *)
Theorem fetch_data_raises E self api_name api_url w (k : nat) status b :
  (k < Z.to_nat (retries self))%nat ->
  (forall i, (i < k)%nat -> net E (requests w + i) = RespTimeout) ->
  net E (requests w + k) = RespHttp status b ->
  status < 400 ->
  b = BodyNotJson \/ (exists data, b = BodyJson data /\ scalar data) ->
  exists evs,
    fetch_data E self api_name api_url w =
      (Raise (match b with BodyNotJson => JSONDecodeError | _ => TypeError end),
       World (fs w) (trace w ++ evs) (requests w + k + 1) (writes w)) /\
    gets evs = S k.
Proof.
  intros Hk Htime Hnet Hstatus Hbody. unfold fetch_data. run.
  replace (Z.to_nat (retries self))
    with (k + S (Z.to_nat (retries self) - S k))%nat by lia.
  match goal with
  | |- context [fetch_loop E (k + ?fuel) self api_url ?a ?w1] =>
      destruct (fetch_loop_skip E self api_url k fuel a w1)
        as (evs & -> & _ & Hgets & _)
  end; cbn [requests]; try lia; try done.
  erewrite fetch_loop_answer; cbn [requests]; [|lia|exact Hnet|done].
  cbn zeta. cbn [fs trace requests writes].
  assert (gets (EvJitter :: evs ++
                  [EvLog INFO (MsgAttempt (0 + Z.of_nat k + 1) (retries self)
                                 api_url);
                   EvGet api_url; EvLog INFO (MsgRequestOk status)]) = S k)
    as Hcount.
  { change (gets (EvJitter :: ?t)) with (gets t).
    rewrite gets_app, Hgets. unfold gets. simpl. lia. }
  destruct Hbody as [->|(data & -> & Hscalar)].
  - eexists. split; [|exact Hcount].
    f_equal. f_equal; [by rewrite <- !app_assoc | lia].
  - destruct data; try done; cbn [Py.contains_str];
      (eexists; split; [|exact Hcount]);
      (f_equal; f_equal; [by rewrite <- !app_assoc | lia]).
Qed.

Lemma fetch_data_raises_witness :
  exists evs,
    fetch_data env_scalar (new_parser "air") "ala_place" "u" world0 =
      (Raise TypeError,
       World (fs world0) (trace world0 ++ evs) (requests world0 + 0 + 1)
             (writes world0)) /\
    gets evs = 1%nat.
Proof.
  apply (fetch_data_raises env_scalar (new_parser "air") "ala_place" "u"
           world0 0 200 (BodyJson (JNum 5))).
  - simpl. lia.
  - intros i Hi. lia.
  - reflexivity.
  - lia.
  - right. exists (JNum 5). split; [reflexivity | exact I].
Defined.

(** ** Merging twice, and what a merge keeps *)

Lemma hash_error v e : Py.hash v = Raise e -> e = TypeError.
Proof. destruct v; simpl; congruence. Qed.

Section FreshMore.

Variable key : json -> result json.

Lemma fresh_nil_l batch : fresh key [] batch = batch.
Proof.
  unfold fresh. induction batch as [|b rest IH]; [done|].
  rewrite filter_cons, decide_True, IH; [done|].
  rewrite fmap_nil. apply not_elem_of_nil.
Qed.

(** Once the fresh records of a batch are appended, the batch has no
    fresh record left. *)
Lemma fresh_absorbed existing batch :
  fresh key (existing ++ fresh key existing batch) batch = [].
Proof.
  unfold fresh at 1.
  assert (forall l, l ⊆ batch ->
            filter (fun item => key_of key item ∉
                      key_of key <$> existing ++ fresh key existing batch) l
            = []) as Hall; [|by apply Hall].
  induction l as [|b rest IH]; intros Hsub; [done|].
  rewrite filter_cons, decide_False, IH; [done| |].
  - intros x Hx. apply Hsub. by right.
  - intros Hnot. apply Hnot. rewrite fmap_app, elem_of_app.
    destruct (decide (key_of key b ∈ key_of key <$> existing)) as [|Hnew];
      [by left|].
    right. apply list_elem_of_fmap. exists b. split; [done|].
    apply list_elem_of_filter. split; [done|]. apply Hsub. by left.
Qed.

(** The identities of the merged snapshot are those of the snapshot and
    those of the batch. *)
Lemma keys_merged existing batch k :
  k ∈ keys key (existing ++ fresh key existing batch) <->
  k ∈ keys key existing \/ k ∈ keys key batch.
Proof.
  rewrite keys_app, elem_of_app. unfold keys. split.
  - intros [?|Hk]; [by left|]. right.
    apply list_elem_of_omap in Hk as (b & Hb & Hkb).
    apply list_elem_of_filter in Hb as [_ Hb].
    apply list_elem_of_omap. eauto.
  - intros [?|Hk]; [by left|].
    apply list_elem_of_omap in Hk as (b & Hb & Hkb).
    destruct (decide (key_of key b ∈ key_of key <$> existing)) as [Hold|Hnew].
    + left. rewrite Hkb in Hold.
      apply list_elem_of_fmap in Hold as (e & He & Hin).
      apply list_elem_of_omap. eauto.
    + right. apply list_elem_of_omap. exists b. split; [|done].
      by apply list_elem_of_filter.
Qed.

(** The comprehensions of a merge raise as soon as one record of the
    snapshot, or else of the batch, carries no hashable key. *)
Lemma set_of_raises items : forall acc,
  (forall item e, key item = Raise e -> lookup_error e) ->
  Exists (fun item => ~ keyed key item) items ->
  exists e, Py.set_of key items acc = Raise e /\ lookup_error e.
Proof.
  intros acc Hkey Hex. revert acc.
  induction Hex as [item rest Hbad|item rest Hex IH]; intros acc; simpl.
  - destruct (key item) as [v|e] eqn:Hv; simpl; [|eauto].
    unfold Py.set_add. destruct (Py.hash v) as [k|e] eqn:Hh; simpl.
    + destruct Hbad. exists k. unfold key_of. by rewrite Hv, Hh.
    + exists e. split; [done|]. right. by eapply hash_error.
  - destruct (key item) as [v|e] eqn:Hv; simpl; [|eauto].
    unfold Py.set_add. destruct (Py.hash v) as [k|e] eqn:Hh; simpl.
    + apply IH.
    + exists e. split; [done|]. right. by eapply hash_error.
Qed.

Lemma not_in_raises seen items :
  (forall item e, key item = Raise e -> lookup_error e) ->
  Exists (fun item => ~ keyed key item) items ->
  exists e, Py.not_in key seen items = Raise e /\ lookup_error e.
Proof.
  intros Hkey Hex.
  induction Hex as [item rest Hbad|item rest Hex IH]; simpl.
  - destruct (key item) as [v|e] eqn:Hv; simpl; [|eauto].
    unfold Py.set_mem. destruct (Py.hash v) as [k|e] eqn:Hh; simpl.
    + destruct Hbad. exists k. unfold key_of. by rewrite Hv, Hh.
    + exists e. split; [done|]. right. by eapply hash_error.
  - destruct (key item) as [v|e] eqn:Hv; simpl; [|eauto].
    unfold Py.set_mem. destruct (Py.hash v) as [k|e] eqn:Hh; simpl.
    + destruct IH as (e & -> & He). simpl. eauto.
    + exists e. split; [done|]. right. by eapply hash_error.
Qed.

End FreshMore.

Lemma nid_lookup_error item e : nid item = Raise e -> lookup_error e.
Proof.
  unfold nid, Py.getitem, lookup_error.
  destruct item; try (intros [= <-]; by right).
  destruct (Py.assoc "Nid" fields); [done|]. intros [= <-]. by left.
Qed.

Lemma period_lookup_error item e : period item = Raise e -> lookup_error e.
Proof.
  unfold period, Py.getitem, lookup_error.
  destruct item; try (intros [= <-]; by right).
  destruct (Py.assoc "node" fields) as [node|]; simpl;
    [|intros [= <-]; by left].
  destruct node; try (intros [= <-]; by right).
  destruct (Py.assoc "field_period" fields0); [done|]. intros [= <-]. by left.
Qed.

(** The incremental merge of [save_data] onto a snapshot, or onto no
    file, when every record carries a hashable "Nid". *)
Lemma save_data_incremental_run E self api_name data_type w existing :
  parsed_data self <> [] ->
  stored (fs w !! data_file self api_name data_type) existing ->
  Forall (keyed nid) existing ->
  Forall (keyed nid) (parsed_data self) ->
  save_data E self api_name data_type false w =
    let filename := data_file self api_name data_type in
    let pre := reading (fs w !! filename) filename in
    match fresh nid existing (parsed_data self) with
    | [] =>
        (Ok tt, logged w (pre ++ [EvLog INFO (MsgNoNewData api_name data_type);
                                  EvPrint (MsgNoNewData api_name data_type)]))
    | new =>
        (Ok tt,
         written E true filename (JArr (existing ++ new))
           (logged w (pre ++ [EvLog INFO (MsgFoundNew (length new)
                                            api_name data_type)])))
    end.
Proof.
  intros Hbatch Hstored Hex Hnew.
  destruct (merge_total nid existing (parsed_data self) Hex Hnew)
    as (seen & Hseen & Hfresh).
  unfold save_data.
  destruct (parsed_data self) as [|item batch] eqn:Hpd; [done|].
  rewrite <- Hpd in *. cbn zeta.
  destruct Hstored as [Hfile|[Hfile ->]];
    repeat progress
      (cbn [Py.iter reading];
       rewrite ?Hfile, ?exists_Some, ?exists_None, ?Hseen, ?Hfresh; run);
    destruct (fresh nid _ (parsed_data self)) as [|n new'] eqn:Hn; run.
  - unfold logged. by rewrite <- !app_assoc.
  - cbn [Py.add_list]. run. rewrite write_back_spec.
    unfold logged. cbn [fs trace requests writes]. by rewrite <- !app_assoc.
  - unfold logged. by rewrite <- !app_assoc.
  - cbn [Py.add_list]. run. rewrite write_back_spec. done.
Qed.

(** X4. Merging is idempotent: after an incremental [save_data] of a
    batch whose write completes (onto a snapshot or onto no file, every
    record carrying a hashable "Nid"), a second incremental [save_data] of
    the same batch finds nothing new: it reads the file, logs and prints
    "no new data", writes nothing and leaves the world's files as the
    first merge left them. *)
Theorem save_data_twice E self api_name data_type w existing :
  parsed_data self <> [] ->
  stored (fs w !! data_file self api_name data_type) existing ->
  Forall (keyed nid) existing ->
  Forall (keyed nid) (parsed_data self) ->
  disk E (writes w) = WriteOk ->
  let w1 := snd (save_data E self api_name data_type false w) in
  save_data E self api_name data_type false w1 =
    (Ok tt,
     logged w1 [EvOpenRead (data_file self api_name data_type);
                EvLog INFO (MsgNoNewData api_name data_type);
                EvPrint (MsgNoNewData api_name data_type)]).
Proof.
  intros Hbatch Hstored Hex Hnew Hdisk w1. subst w1.
  rewrite (save_data_incremental_run E self api_name data_type w existing)
    by done.
  cbn zeta.
  destruct (fresh nid existing (parsed_data self)) as [|n new'] eqn:Hn.
  - (* nothing was new: the file was there already *)
    destruct Hstored as [Hfile|[Hfile ->]].
    + cbn [snd].
      rewrite (save_data_incremental_run E self api_name data_type _ existing);
        [|done|by left|done|done].
      cbn zeta. cbn [logged fs]. by rewrite Hn, Hfile.
    + rewrite fresh_nil_l in Hn. done.
  - rewrite <- Hn in *. cbn [snd].
    set (w0 := logged w _).
    assert (fs (written E true (data_file self api_name data_type)
                  (JArr (existing ++ fresh nid existing (parsed_data self))) w0)
              !! data_file self api_name data_type =
            Some (Stored (JArr (existing ++
                                fresh nid existing (parsed_data self)))))
      as Hfile'.
    { unfold written. subst w0. cbn [logged writes fs]. rewrite Hdisk.
      cbn [fs]. apply lookup_insert_eq. }
    rewrite (save_data_incremental_run E self api_name data_type _
               (existing ++ fresh nid existing (parsed_data self)));
      [|done|by left| |done].
    + cbn zeta. by rewrite fresh_absorbed, Hfile'.
    + apply Forall_app. split; [done|].
      apply Forall_forall. intros x Hx.
      apply list_elem_of_filter in Hx as [_ Hx].
      by eapply Forall_forall in Hnew.
Qed.

Lemma save_data_twice_witness :
  let w := world_with "air/ala_place_data.json" (Stored (JArr [record 1])) in
  let w1 := snd (save_data env_timeouts (air [record 1; record 2])
                   "ala_place" "data" false w) in
  save_data env_timeouts (air [record 1; record 2]) "ala_place" "data" false w1 =
    (Ok tt,
     logged w1 [EvOpenRead "air/ala_place_data.json";
                EvLog INFO (MsgNoNewData "ala_place" "data");
                EvPrint (MsgNoNewData "ala_place" "data")]).
Proof.
  apply (save_data_twice env_timeouts (air [record 1; record 2])
           "ala_place" "data"
           (world_with "air/ala_place_data.json" (Stored (JArr [record 1])))
           [record 1]).
  - done.
  - left. reflexivity.
  - repeat constructor; by eexists.
  - repeat constructor; by eexists.
  - reflexivity.
Defined.

(** X5. An incremental [save_data] whose write completes neither loses
    nor invents an identity: the file then holds a snapshot that starts
    with the previous one and whose "Nid" values are exactly those of the
    previous snapshot and those of the batch. *)
Theorem save_data_unites_identities E self api_name data_type w existing :
  parsed_data self <> [] ->
  stored (fs w !! data_file self api_name data_type) existing ->
  Forall (keyed nid) existing ->
  Forall (keyed nid) (parsed_data self) ->
  disk E (writes w) = WriteOk ->
  exists extra,
    fs (snd (save_data E self api_name data_type false w))
      !! data_file self api_name data_type =
      Some (Stored (JArr (existing ++ extra))) /\
    forall k,
      k ∈ keys nid (existing ++ extra) <->
      k ∈ keys nid existing \/ k ∈ keys nid (parsed_data self).
Proof.
  intros Hbatch Hstored Hex Hnew Hdisk.
  rewrite (save_data_incremental_run E self api_name data_type w existing)
    by done.
  cbn zeta.
  exists (fresh nid existing (parsed_data self)).
  split; [|intros k; apply keys_merged].
  destruct (fresh nid existing (parsed_data self)) as [|n new'] eqn:Hn.
  - destruct Hstored as [Hfile|[Hfile ->]].
    + cbn [snd logged fs]. by rewrite app_nil_r.
    + rewrite fresh_nil_l in Hn. done.
  - unfold written. cbn [snd logged writes fs]. rewrite Hdisk. cbn [fs].
    apply lookup_insert_eq.
Qed.

Lemma save_data_unites_identities_witness :
  exists extra,
    fs (snd (save_data env_timeouts (air [record 1; record 2]) "ala_place"
               "data" false
               (world_with "air/ala_place_data.json" (Stored (JArr [record 1]))))
       ) !! data_file (air [record 1; record 2]) "ala_place" "data" =
      Some (Stored (JArr ([record 1] ++ extra))) /\
    forall k,
      k ∈ keys nid ([record 1] ++ extra) <->
      k ∈ keys nid [record 1] \/ k ∈ keys nid [record 1; record 2].
Proof.
  apply (save_data_unites_identities env_timeouts (air [record 1; record 2])
           "ala_place" "data"
           (world_with "air/ala_place_data.json" (Stored (JArr [record 1])))
           [record 1]).
  - done.
  - left. reflexivity.
  - repeat constructor; by eexists.
  - repeat constructor; by eexists.
  - reflexivity.
Defined.

(** X6. A stored record without a usable key blocks the collection: when
    the snapshot of the target holds a record that has no "Nid" (no
    "field_period" in its node, for a point file), or an unhashable one,
    every incremental merge of a non-empty batch raises [KeyError] or
    [TypeError] right after reading the file, and writes nothing. *)
Theorem unkeyed_snapshot_blocks_merges E self api_name data_type geo_point
    data w existing :
  (parsed_data self <> [] ->
   fs w !! data_file self api_name data_type = Some (Stored (JArr existing)) ->
   Exists (fun item => ~ keyed nid item) existing ->
   exists e,
     save_data E self api_name data_type false w =
       (Raise e, logged w [EvOpenRead (data_file self api_name data_type)]) /\
     lookup_error e)
  /\
  (Py.truthy (nodes_of data) = true ->
   fs w !! point_file self geo_point = Some (Stored (JArr existing)) ->
   Exists (fun item => ~ keyed period item) existing ->
   exists e,
     save_point_data E self geo_point data false w =
       (Raise e, logged w [EvMakedirs (path_join (category self) "point_data");
                           EvOpenRead (point_file self geo_point)]) /\
     lookup_error e).
Proof.
  split.
  - intros Hbatch Hfile Hbad.
    destruct (set_of_raises nid existing [] nid_lookup_error Hbad)
      as (e & Hraise & He).
    exists e. split; [|done]. unfold save_data.
    destruct (parsed_data self) as [|item batch]; [done|].
    repeat progress
      (cbn [Py.iter]; rewrite ?Hfile, ?exists_Some, ?Hraise; run).
    unfold logged. by rewrite <- ?app_assoc.
  - intros Hnodes Hfile Hbad.
    destruct (set_of_raises period existing [] period_lookup_error Hbad)
      as (e & Hraise & He).
    exists e. split; [|done]. unfold save_point_data, nodes_of in *.
    destruct (Py.truthy data) eqn:Hdata;
      [|destruct data as [| | | | |kv]; try done; by destruct kv].
    run. destruct (Py.get data "nodes" JNull) as [nodes|]; [|done].
    run. rewrite Hnodes.
    repeat progress
      (cbn [Py.iter]; rewrite ?Hfile, ?exists_Some, ?Hraise; run).
    unfold logged. cbn [fs trace requests writes]. by rewrite <- ?app_assoc.
Qed.

Lemma unkeyed_snapshot_blocks_merges_witness :
  let w := world_with "air/point_data/point_7.json"
             (Stored (JArr [point_without_period])) in
  exists e,
    save_point_data env_timeouts (air []) "7"
      (JObj [("nodes", JArr [point "2020"])]) false w =
      (Raise e, logged w [EvMakedirs (path_join (category (air [])) "point_data");
                          EvOpenRead (point_file (air []) "7")]) /\
    lookup_error e.
Proof.
  apply (unkeyed_snapshot_blocks_merges env_timeouts (air []) "ala_place" "data"
           "7" (JObj [("nodes", JArr [point "2020"])])
           (world_with "air/point_data/point_7.json"
              (Stored (JArr [point_without_period])))
           [point_without_period]).
  - reflexivity.
  - reflexivity.
  - constructor. intros [k Hk]. by vm_compute in Hk.
Defined.

(** X7. One node without a period fails the whole batch: when the
    snapshot of a point (or no file) has keyed records and the fetched
    nodes hold one without a hashable "field_period", the incremental
    [save_point_data] raises [KeyError] or [TypeError] and persists none
    of the fetched nodes, the well-formed ones included. *)
Theorem unkeyed_node_fails_the_batch E self geo_point fields l w existing :
  Py.assoc "nodes" fields = Some (JArr l) ->
  stored (fs w !! point_file self geo_point) existing ->
  Forall (keyed period) existing ->
  Exists (fun item => ~ keyed period item) l ->
  exists e,
    save_point_data E self geo_point (JObj fields) false w =
      (Raise e,
       logged w (EvMakedirs (path_join (category self) "point_data")
                 :: reading (fs w !! point_file self geo_point)
                      (point_file self geo_point))) /\
    lookup_error e.
Proof.
  intros Hnodes Hstored Hex Hbad.
  destruct (set_of_total period existing [] Hex) as [seen Hseen].
  destruct (not_in_raises period seen l period_lookup_error Hbad)
    as (e & Hraise & He).
  exists e. split; [|done]. unfold save_point_data.
  assert (l <> []) as Hne by (intros ->; by apply Exists_nil in Hbad).
  assert (Py.truthy (JObj fields) = true) as -> by (by destruct fields).
  cbn [Py.get Py.getitem]. rewrite Hnodes. run.
  assert (Py.truthy (JArr l) = true) as -> by (by destruct l).
  run.
  destruct Hstored as [Hfile|[Hfile ->]];
    repeat progress
      (cbn [Py.iter Py.getitem reading];
       rewrite ?Hfile, ?exists_Some, ?exists_None, ?Hnodes, ?Hseen, ?Hraise;
       run);
    unfold logged; cbn [fs trace requests writes]; by rewrite <- ?app_assoc.
Qed.

Lemma unkeyed_node_fails_the_batch_witness :
  exists e,
    save_point_data env_timeouts (air []) "7"
      (JObj [("nodes", JArr [point "2020"; point_without_period])]) false world0 =
      (Raise e,
       logged world0 (EvMakedirs (path_join (category (air [])) "point_data")
                      :: reading (fs world0 !! point_file (air []) "7")
                           (point_file (air []) "7"))) /\
    lookup_error e.
Proof.
  apply (unkeyed_node_fails_the_batch env_timeouts (air []) "7"
           [("nodes", JArr [point "2020"; point_without_period])]
           [point "2020"; point_without_period] world0 []).
  - reflexivity.
  - right. split; reflexivity.
  - constructor.
  - apply Exists_cons_tl. constructor. intros [k Hk]. by vm_compute in Hk.
Defined.

(** ** The fan-out loop *)

Lemma requested_app t1 t2 : requested (t1 ++ t2) = requested t1 ++ requested t2.
Proof. apply omap_app. Qed.

Lemma requested_activity t : requested (activity t) = requested t.
Proof.
  induction t as [|e t IH]; [done|].
  destruct e; simpl; try done; by rewrite <- IH.
Qed.

Lemma requested_backoff url k n : requested (backoff url k n) = replicate n url.
Proof.
  revert k. induction n as [|n IH]; intros k; [done|].
  destruct n as [|n]; [done|].
  change (backoff url k (S (S n)))
    with (EvGet url :: EvSleep (2 ^ k) :: backoff url (k + 1) (S n)).
  cbn [requested omap]. simpl. f_equal. apply (IH (k + 1)).
Qed.

(** A fetch opens no file for writing. *)
Lemma fetch_data_bounded_files E self api_name api_url w :
  exists r evs,
    fetch_data E self api_name api_url w =
      (r, World (fs w) (trace w ++ evs) (requests w + gets evs) (writes w)) /\
    omap (fun e => match e with EvOpenWrite p => Some p | _ => None end) evs = [].
Proof.
  unfold fetch_data. run.
  match goal with
  | |- context [fetch_loop E ?fuel self api_url ?a ?w1] =>
      destruct (fetch_loop_bound E self api_url fuel a w1)
        as (r & evs & Hrun & Hn & Hw & Hr & Hfuel)
  end; [lia|].
  rewrite Hrun. cbn [fs trace requests writes].
  exists r, (EvJitter :: evs). split; [by rewrite <- app_assoc|]. exact Hw.
Qed.

(** A fetch on a network that only times out, as a run of the world. *)
Lemma fetch_data_timeouts_run E self api_name api_url w :
  1 <= retries self ->
  (forall i, (requests w <= i)%nat -> net E i = RespTimeout) ->
  exists evs,
    fetch_data E self api_name api_url w =
      (Ok (JArr []),
       World (fs w) (trace w ++ evs)
             (requests w + Z.to_nat (retries self)) (writes w)) /\
    requested evs = replicate (Z.to_nat (retries self)) api_url.
Proof.
  intros Hretries Hnet. unfold fetch_data. run.
  match goal with
  | |- context [fetch_loop E ?fuel self api_url ?a ?w1] =>
      destruct (fetch_loop_timeouts E self api_url fuel a w1)
        as (new & Hrun & Hact)
  end; cbn [requests]; try lia; try done.
  rewrite Hrun. cbn [fs trace requests writes].
  exists (EvJitter :: new ++ [EvLog ERROR MsgMaxAttempts]).
  split; [by rewrite <- app_assoc|].
  change (requested (EvJitter :: ?t)) with (requested t).
  rewrite requested_app, <- requested_activity, Hact, requested_backoff.
  simpl. by rewrite app_nil_r.
Qed.

(** What [parse_point_data] makes of an empty fetch, and
    [save_point_data] of its result. *)
Lemma parse_point_data_empty E self geo_point w w1 :
  opens E ("sources_values_" +:+ geo_point) ->
  fetch_data E self ("sources_values_" +:+ geo_point) (point_url self geo_point) w
    = (Ok (JArr []), w1) ->
  parse_point_data E self geo_point w =
    (Ok (JObj []),
     logged w1 [EvLog INFO (MsgNoPointData geo_point (point_url self geo_point))]).
Proof.
  intros Hopens Hfetch. unfold parse_point_data, point_url in *. run.
  rewrite (setup_logging_opens _ _ _ Hopens). run.
  rewrite Hfetch. run. done.
Qed.

Lemma save_point_data_empty E self geo_point initial_parse w :
  save_point_data E self geo_point (JObj []) initial_parse w =
    (Ok tt, logged w [EvLog INFO (MsgNoPointToSave geo_point)]).
Proof. unfold save_point_data. run. done. Qed.

(** X8. Failed fetches do not stop the fan-out: on a network where every
    request times out, and for geo points whose loggers are set up, the
    loop still visits every geo point in turn, requests the URL of each
    one [retries] times, writes no file and ends normally. *)
Theorem fan_out_survives_timeouts E self geo_points initial_parse : forall w,
  Forall (fun g => opens E ("sources_values_" +:+ g)) geo_points ->
  1 <= retries self ->
  (forall i, (requests w <= i)%nat -> net E i = RespTimeout) ->
  exists evs,
    fan_out E self geo_points initial_parse w =
      (Ok tt,
       World (fs w) (trace w ++ evs)
             (requests w + length geo_points * Z.to_nat (retries self))
             (writes w)) /\
    requested evs =
      geo_points ≫= (fun g => replicate (Z.to_nat (retries self))
                                (point_url self g)) /\
    files_written evs = [].
Proof.
  induction geo_points as [|g rest IH]; intros w Hopens Hretries Hnet.
  - exists []. simpl. unfold ret. rewrite app_nil_r, Nat.add_0_r.
    by destruct w.
  - apply Forall_cons in Hopens as [Hg Hopens]. cbn [fan_out]. run.
    destruct (fetch_data_timeouts_run E self ("sources_values_" +:+ g)
                (point_url self g) w Hretries Hnet) as (evs1 & Hfetch & Hreq1).
    rewrite (parse_point_data_empty _ _ _ _ _ Hg Hfetch).
    rewrite save_point_data_empty.
    unfold logged at 1 2. cbn [fs trace requests writes].
    match goal with
    | |- context [fan_out E self rest initial_parse ?w1] =>
        destruct (IH w1) as (evs2 & -> & Hreq2 & Hw2)
    end; [done|done| |].
    { intros i Hi. apply Hnet. cbn [requests] in Hi. lia. }
    cbn [fs trace requests writes].
    exists (evs1 ++ [EvLog INFO (MsgNoPointData g (point_url self g));
                     EvLog INFO (MsgNoPointToSave g)] ++ evs2).
    split; [|split].
    + f_equal. f_equal; [by rewrite <- !app_assoc | simpl; lia].
    + rewrite !requested_app, Hreq1, Hreq2. simpl. done.
    + unfold files_written in *. rewrite !omap_app, Hw2.
      cbn [omap]. simpl. rewrite ?app_nil_r.
      clear -Hfetch.
      destruct (fetch_data_bounded_files E self ("sources_values_" +:+ g)
                  (point_url self g) w) as (r & evs & Hrun & Hfiles).
      rewrite Hrun in Hfetch. injection Hfetch as _ Htr.
      apply app_inv_head in Htr. by subst.
Qed.

Lemma fan_out_survives_timeouts_witness :
  exists evs,
    fan_out env_timeouts (new_parser "soils") ["7"; "9"] false world0 =
      (Ok tt,
       World (fs world0) (trace world0 ++ evs)
             (requests world0 + length ["7"; "9"] * Z.to_nat (retries (new_parser "soils")))
             (writes world0)) /\
    requested evs =
      ["7"; "9"] ≫= (fun g => replicate (Z.to_nat (retries (new_parser "soils")))
                                (point_url (new_parser "soils") g)) /\
    files_written evs = [].
Proof.
  apply (fan_out_survives_timeouts env_timeouts (new_parser "soils")
           ["7"; "9"] false world0).
  - by repeat constructor.
  - simpl. lia.
  - reflexivity.
Defined.

(** X9. An exception does stop the fan-out: when the logger of a geo
    point is set up and the answer to the first request for it has a
    status below 400 and a body that is no JSON text, the
    [JSONDecodeError] leaves the loop at once; nothing is written and no
    request is made for the geo points that follow. *)
Theorem fan_out_stops_at_exception E self geo_point rest initial_parse w status :
  opens E ("sources_values_" +:+ geo_point) ->
  1 <= retries self ->
  net E (requests w) = RespHttp status BodyNotJson ->
  status < 400 ->
  fan_out E self (geo_point :: rest) initial_parse w =
    (Raise JSONDecodeError,
     World (fs w)
           (trace w ++ [EvJitter;
                        EvLog INFO (MsgAttempt 1 (retries self)
                                      (point_url self geo_point));
                        EvGet (point_url self geo_point);
                        EvLog INFO (MsgRequestOk status)])
           (S (requests w)) (writes w)).
Proof.
  intros Hopens Hretries Hnet Hstatus. cbn [fan_out].
  unfold parse_point_data. fold (point_url self geo_point). run.
  rewrite (setup_logging_opens _ _ _ Hopens). unfold fetch_data. run.
  destruct (Z.to_nat (retries self)) as [|fuel] eqn:Hfuel; [lia|].
  erewrite fetch_loop_answer; cbn [requests]; [|lia|exact Hnet|done].
  cbn zeta. cbn [fs trace requests writes]. by rewrite <- !app_assoc.
Qed.

Lemma fan_out_stops_at_exception_witness :
  fan_out env_not_json (new_parser "soils") ["7"; "9"] false world0 =
    (Raise JSONDecodeError,
     World (fs world0)
           (trace world0 ++ [EvJitter;
                             EvLog INFO (MsgAttempt 1 (retries (new_parser "soils"))
                                           (point_url (new_parser "soils") "7"));
                             EvGet (point_url (new_parser "soils") "7");
                             EvLog INFO (MsgRequestOk 200)])
           (S (requests world0)) (writes world0)).
Proof.
  apply (fan_out_stops_at_exception env_not_json (new_parser "soils") "7" ["9"]
           false world0 200).
  - reflexivity.
  - simpl. lia.
  - reflexivity.
  - lia.
Defined.

(** X26. A geo point whose logger cannot be set up stops the fan-out
    before any request for it: on a network where every request times
    out, the geo points before it are visited, each with [retries]
    requests, then the exception of [logging.FileHandler] leaves the loop;
    no request is made for that geo point or for those that follow, and no
    file is written. *)
Theorem fan_out_stops_at_logger E self visited geo_point rest initial_parse e :
  forall w,
  Forall (fun g => opens E ("sources_values_" +:+ g)) visited ->
  logs E ("sources_values_" +:+ geo_point) = Some e ->
  1 <= retries self ->
  (forall i, (requests w <= i)%nat -> net E i = RespTimeout) ->
  exists evs,
    fan_out E self (visited ++ geo_point :: rest) initial_parse w =
      (Raise e,
       World (fs w) (trace w ++ evs)
             (requests w + length visited * Z.to_nat (retries self))
             (writes w)) /\
    requested evs =
      visited ≫= (fun g => replicate (Z.to_nat (retries self))
                             (point_url self g)) /\
    files_written evs = [].
Proof.
  induction visited as [|g visited IH]; intros w Hopens Hlogs Hretries Hnet.
  - exists []. cbn [app fan_out]. unfold parse_point_data, _setup_logging.
    run. rewrite Hlogs. run. rewrite app_nil_r. cbn [length Nat.mul].
    rewrite Nat.add_0_r. by destruct w.
  - apply Forall_cons in Hopens as [Hg Hopens].
    change ((g :: visited) ++ geo_point :: rest)
      with (g :: (visited ++ geo_point :: rest)).
    cbn [fan_out]. run.
    destruct (fetch_data_timeouts_run E self ("sources_values_" +:+ g)
                (point_url self g) w Hretries Hnet) as (evs1 & Hfetch & Hreq1).
    rewrite (parse_point_data_empty _ _ _ _ _ Hg Hfetch).
    rewrite save_point_data_empty.
    unfold logged at 1 2. cbn [fs trace requests writes].
    match goal with
    | |- context [fan_out E self _ initial_parse ?w1] =>
        destruct (IH w1) as (evs2 & -> & Hreq2 & Hw2)
    end; [done|done|done| |].
    { intros i Hi. apply Hnet. cbn [requests] in Hi. lia. }
    cbn [fs trace requests writes].
    exists (evs1 ++ [EvLog INFO (MsgNoPointData g (point_url self g));
                     EvLog INFO (MsgNoPointToSave g)] ++ evs2).
    split; [|split].
    + f_equal. f_equal; [by rewrite <- !app_assoc | simpl; lia].
    + rewrite !requested_app, Hreq1, Hreq2. simpl. done.
    + unfold files_written in *. rewrite !omap_app, Hw2.
      cbn [omap]. simpl. rewrite ?app_nil_r.
      clear -Hfetch.
      destruct (fetch_data_bounded_files E self ("sources_values_" +:+ g)
                  (point_url self g) w) as (r & evs & Hrun & Hfiles).
      rewrite Hrun in Hfetch. injection Hfetch as _ Htr.
      apply app_inv_head in Htr. by subst.
Qed.

Lemma fan_out_stops_at_logger_witness :
  exists evs,
    fan_out env_timeouts (new_parser "soils") (["7"] ++ "a/b" :: ["9"]) false
        world0 =
      (Raise OSError,
       World (fs world0) (trace world0 ++ evs)
             (requests world0 +
              length ["7"] * Z.to_nat (retries (new_parser "soils")))
             (writes world0)) /\
    requested evs =
      ["7"] ≫= (fun g => replicate (Z.to_nat (retries (new_parser "soils")))
                           (point_url (new_parser "soils") g)) /\
    files_written evs = [].
Proof.
  apply (fan_out_stops_at_logger env_timeouts (new_parser "soils") ["7"] "a/b"
           ["9"] false OSError world0).
  - by repeat constructor.
  - reflexivity.
  - simpl. lia.
  - reflexivity.
Defined.

(** ** parse_point_data: decodable and absent "php" *)

Lemma assoc_set_same k v kv :
  Py.assoc k kv = Some v -> Py.assoc_set k v kv = kv.
Proof.
  induction kv as [|[k' v'] rest IH]; simpl; [done|].
  destruct (String.eqb_spec k k') as [->|Hne].
  - by intros [= ->].
  - intros Hrest. by rewrite IH.
Qed.

Section ExpandMore.

Variable E : env.
Variable geo_point : string.

Lemma expand_php_cases item w :
  expandable item ->
  exists item' evs,
    expand_php E geo_point item w = (Ok item', logged w evs) /\
    (php_text item = None -> item' = item /\ evs = []) /\
    (forall text substances,
       php_text item = Some text -> loads E text = Some substances ->
       item' = with_substances item substances /\ evs = []).
Proof.
  intros (node & php_data & Hnode & Hphp & Hkind). unfold expand_php.
  rewrite Hnode. run. rewrite Hphp. run.
  destruct item as [| | | | |item_fields]; try done.
  destruct node as [| | | | |node_fields]; try done.
  simpl in Hnode, Hphp. injection Hnode as Hnode. injection Hphp as Hphp.
  destruct (Py.truthy php_data) eqn:Htruthy.
  - destruct Hkind as [|[text ->]]; [done|].
    destruct (Py.assoc "node" item_fields) as [node|] eqn:Hassoc;
      [subst node
      | injection Hnode as <-; simpl in Hphp; by injection Hphp as <-].
    destruct (Py.assoc "php" node_fields) as [php|] eqn:Hassoc';
      [subst php | by injection Hphp as <-].
    assert (php_text (JObj item_fields) = Some text) as Htext.
    { simpl. rewrite Hassoc, Hassoc'.
      simpl in Htruthy. by destruct (String.eqb text ""). }
    destruct (loads E text) as [substances|] eqn:Hloads; run.
    + eexists _, []. rewrite <- logged_nil. split; [done|].
      split; [congruence|].
      intros text' s' Htext' Hs'. rewrite Htext in Htext'.
      injection Htext' as <-. rewrite Hloads in Hs'. injection Hs' as <-.
      simpl. by rewrite Hassoc.
    + eexists _, [_]. split; [done|]. split; [congruence|].
      intros text' s' Htext' Hs'. congruence.
  - exists (JObj item_fields), []. rewrite <- logged_nil.
    split; [done|]. split; [done|].
    intros text s Htext. exfalso. simpl in Htext.
    destruct (Py.assoc "node" item_fields) as [node|]; [subst node|done].
    destruct (Py.assoc "php" node_fields) as [php|]; [subst php|done].
    destruct php_data as [| | |t| |]; try done. simpl in Htruthy.
    by destruct (String.eqb t "").
Qed.

Lemma expand_all_cases items : forall w,
  Forall expandable items ->
  exists items' evs,
    expand_all E geo_point items w = (Ok items', logged w evs) /\
    length items' = length items /\
    (forall i item,
       items !! i = Some item -> php_text item = None ->
       items' !! i = Some item) /\
    (forall i item text substances,
       items !! i = Some item ->
       php_text item = Some text -> loads E text = Some substances ->
       items' !! i = Some (with_substances item substances)) /\
    ((forall item text, item ∈ items -> php_text item = Some text ->
                        is_Some (loads E text)) ->
     evs = []).
Proof.
  induction items as [|item rest IH]; intros w Hall; simpl.
  - exists [], []. rewrite <- logged_nil. repeat split; try done.
    all: intros i item; by rewrite lookup_nil.
  - inversion Hall as [|? ? Hitem Hrest]; subst. run.
    destruct (expand_php_cases item w Hitem)
      as (item' & evs1 & -> & Hnone & Hsome).
    destruct (IH (logged w evs1) Hrest)
      as (rest' & evs2 & -> & Hlen & Hnones & Hsomes & Hquiet).
    exists (item' :: rest'), (evs1 ++ evs2). rewrite logged_logged.
    split; [done|]. split; [simpl; by rewrite Hlen|].
    split; [|split].
    + intros [|i] it Hi Htext; simpl in Hi.
      * injection Hi as <-. by destruct (Hnone Htext) as [-> _].
      * by apply (Hnones i).
    + intros [|i] it text s Hi Htext Hs; simpl in Hi.
      * injection Hi as <-. by destruct (Hsome text s Htext Hs) as [-> _].
      * by apply (Hsomes i it text s).
    + intros Hdec. rewrite Hquiet.
      * rewrite app_nil_r. destruct (php_text item) as [text|] eqn:Htext.
        -- destruct (Hdec item text) as [s Hs]; [by left|done|].
           by destruct (Hsome text s eq_refl Hs).
        -- by destruct (Hnone eq_refl).
      * intros it text Hin. apply Hdec. by right.
Qed.

End ExpandMore.

Lemma with_substances_lookup item text substances :
  php_text item = Some text ->
  substances_of (with_substances item substances) = Ok substances.
Proof.
  unfold php_text, with_substances, substances_of.
  destruct item as [| | | | |item_fields]; try done.
  destruct (Py.assoc "node" item_fields) as [[| | | | |node_fields]|] eqn:Hnode;
    try done.
  intros _. cbn [Py.getitem]. rewrite assoc_set_eq. cbn [rbind Py.getitem].
  by rewrite assoc_del_ne, assoc_set_eq.
Qed.

(** [parse_point_data] on an answer that carries nodes, as a run of the
    world. *)
Lemma parse_point_data_run E self geo_point w status fields items :
  opens E ("sources_values_" +:+ geo_point) ->
  1 <= retries self ->
  net E (requests w) = RespHttp status (BodyJson (JObj fields)) ->
  status < 400 ->
  Py.assoc "nodes" fields = Some (JArr items) ->
  items <> [] ->
  forall items' evs w0,
    w0 = World (fs w)
           (trace w ++ [EvJitter;
                        EvLog INFO (MsgAttempt 1 (retries self)
                                      (point_url self geo_point));
                        EvGet (point_url self geo_point);
                        EvLog INFO (MsgRequestOk status)])
           (S (requests w)) (writes w) ->
    expand_all E geo_point items w0 = (Ok items', logged w0 evs) ->
    parse_point_data E self geo_point w =
      (Ok (JObj (Py.assoc_set "nodes" (JArr items') fields)), logged w0 evs).
Proof.
  intros Hopens Hretries Hnet Hstatus Hnodes Hne items' evs w0 -> Hexp.
  unfold parse_point_data. fold (point_url self geo_point).
  assert (Py.contains_str "nodes" (JObj fields) = Ok true) as Hhas.
  { simpl. by rewrite Hnodes, exists_Some_json. }
  run. rewrite (setup_logging_opens _ _ _ Hopens). run.
  rewrite (fetch_data_ok E self _ (point_url self geo_point) w status
                  (JObj fields)) by done.
  assert (Py.truthy (JObj fields) = true) as -> by (by destruct fields).
  cbn [Py.get Py.getitem]. rewrite Hnodes. run.
  assert (Py.truthy (JArr items) = true) as -> by (by destruct items).
  run. cbn [Py.iter]. run. by rewrite Hexp.
Qed.

(** X10. When the logger of the geo point is set up and the response
    carries nodes on which the expansion raises nothing,
    [parse_point_data] returns them in place: a node without a non-empty
    "php" text comes back as it was, and a node whose "php" text decodes
    comes back with the decoded document under "substances" and without
    its "php"; if every text decodes, nothing is logged beyond the
    fetch. *)
Theorem parse_point_data_expands E self geo_point w status fields items :
  opens E ("sources_values_" +:+ geo_point) ->
  1 <= retries self ->
  net E (requests w) = RespHttp status (BodyJson (JObj fields)) ->
  status < 400 ->
  Py.assoc "nodes" fields = Some (JArr items) ->
  items <> [] ->
  Forall expandable items ->
  exists items' evs,
    parse_point_data E self geo_point w =
      (Ok (JObj (Py.assoc_set "nodes" (JArr items') fields)),
       World (fs w)
         (trace w ++ [EvJitter;
                      EvLog INFO (MsgAttempt 1 (retries self)
                                    (point_url self geo_point));
                      EvGet (point_url self geo_point);
                      EvLog INFO (MsgRequestOk status)] ++ evs)
         (S (requests w)) (writes w)) /\
    length items' = length items /\
    (forall i item,
       items !! i = Some item -> php_text item = None ->
       items' !! i = Some item) /\
    (forall i item text substances,
       items !! i = Some item ->
       php_text item = Some text -> loads E text = Some substances ->
       items' !! i = Some (with_substances item substances) /\
       substances_of (with_substances item substances) = Ok substances) /\
    ((forall item text, item ∈ items -> php_text item = Some text ->
                        is_Some (loads E text)) ->
     evs = []).
Proof.
  intros Hopens Hretries Hnet Hstatus Hnodes Hne Hall.
  set (w0 := World (fs w)
           (trace w ++ [EvJitter;
                        EvLog INFO (MsgAttempt 1 (retries self)
                                      (point_url self geo_point));
                        EvGet (point_url self geo_point);
                        EvLog INFO (MsgRequestOk status)])
           (S (requests w)) (writes w)).
  destruct (expand_all_cases E geo_point items w0 Hall)
    as (items' & evs & Hexp & Hlen & Hnone & Hsome & Hquiet).
  exists items', evs. split.
  { rewrite (parse_point_data_run E self geo_point w status fields items
               Hopens Hretries Hnet Hstatus Hnodes Hne items' evs w0 eq_refl
               Hexp).
    unfold logged, w0. cbn [fs trace requests writes].
    by rewrite <- app_assoc. }
  split; [done|]. split; [done|]. split; [|done].
  intros i item text substances Hi Htext Hloads.
  split; [by eapply Hsome|]. by eapply with_substances_lookup.
Qed.

Lemma parse_point_data_expands_witness :
  exists items' evs,
    parse_point_data env_decodes (air []) "7" world0 =
      (Ok (JObj (Py.assoc_set "nodes" (JArr items')
                   [("nodes", JArr [node_with_php; point "2021"])])),
       World (fs world0)
         (trace world0 ++ [EvJitter;
                      EvLog INFO (MsgAttempt 1 (retries (air []))
                                    (point_url (air []) "7"));
                      EvGet (point_url (air []) "7");
                      EvLog INFO (MsgRequestOk 200)] ++ evs)
         (S (requests world0)) (writes world0)) /\
    length items' = length [node_with_php; point "2021"] /\
    (forall i item,
       [node_with_php; point "2021"] !! i = Some item -> php_text item = None ->
       items' !! i = Some item) /\
    (forall i item text substances,
       [node_with_php; point "2021"] !! i = Some item ->
       php_text item = Some text -> loads env_decodes text = Some substances ->
       items' !! i = Some (with_substances item substances) /\
       substances_of (with_substances item substances) = Ok substances) /\
    ((forall item text, item ∈ [node_with_php; point "2021"] ->
                        php_text item = Some text ->
                        is_Some (loads env_decodes text)) ->
     evs = []).
Proof.
  apply (parse_point_data_expands env_decodes (air []) "7" world0 200
           [("nodes", JArr [node_with_php; point "2021"])]
           [node_with_php; point "2021"]).
  - reflexivity.
  - simpl. lia.
  - reflexivity.
  - lia.
  - reflexivity.
  - discriminate.
  - repeat constructor.
    + exists (JObj [("field_period", JStr "2020"); ("php", JStr "[]")]),
             (JStr "[]").
      split; [reflexivity|]. split; [reflexivity|]. right. by eexists.
    + exists (JObj [("field_period", JStr "2021")]), (JStr "").
      split; [reflexivity|]. split; [reflexivity|]. by left.
Defined.

(** X11. When the logger of the geo point is set up, a response whose
    nodes carry no "php" text passes through [parse_point_data] unchanged:
    the method returns the very document it fetched, logging nothing but
    the fetch. *)
Theorem parse_point_data_passes_plain_nodes E self geo_point w status fields
    items :
  opens E ("sources_values_" +:+ geo_point) ->
  1 <= retries self ->
  net E (requests w) = RespHttp status (BodyJson (JObj fields)) ->
  status < 400 ->
  Py.assoc "nodes" fields = Some (JArr items) ->
  items <> [] ->
  Forall (fun item => expandable item /\ php_text item = None) items ->
  parse_point_data E self geo_point w =
    (Ok (JObj fields),
     World (fs w)
       (trace w ++ [EvJitter;
                    EvLog INFO (MsgAttempt 1 (retries self)
                                  (point_url self geo_point));
                    EvGet (point_url self geo_point);
                    EvLog INFO (MsgRequestOk status)])
       (S (requests w)) (writes w)).
Proof.
  intros Hopens Hretries Hnet Hstatus Hnodes Hne Hplain.
  set (w0 := World (fs w)
           (trace w ++ [EvJitter;
                        EvLog INFO (MsgAttempt 1 (retries self)
                                      (point_url self geo_point));
                        EvGet (point_url self geo_point);
                        EvLog INFO (MsgRequestOk status)])
           (S (requests w)) (writes w)).
  assert (Forall expandable items) as Hall
    by (eapply Forall_impl; [exact Hplain | by intros ? [? _]]).
  destruct (expand_all_cases E geo_point items w0 Hall)
    as (items' & evs & Hexp & Hlen & Hnone & _ & Hquiet).
  rewrite (parse_point_data_run E self geo_point w status fields items
             Hopens Hretries Hnet Hstatus Hnodes Hne items' evs w0 eq_refl
             Hexp).
  assert (items' = items) as ->.
  { apply list_eq. intros i. destruct (items !! i) as [item|] eqn:Hi.
    - apply (Hnone i item Hi).
      eapply Forall_forall in Hplain as [_ Hp]; [exact Hp|].
      by eapply list_elem_of_lookup_2.
    - apply lookup_ge_None in Hi. apply lookup_ge_None. lia. }
  rewrite assoc_set_same by done.
  rewrite Hquiet.
  - by rewrite <- logged_nil.
  - intros item text Hin Htext.
    eapply Forall_forall in Hplain as [_ Hp]; [|exact Hin]. congruence.
Qed.

Lemma parse_point_data_passes_plain_nodes_witness :
  parse_point_data env_plain (air []) "7" world0 =
    (Ok (JObj [("nodes", JArr [point "2020"; point "2021"])]),
     World (fs world0)
       (trace world0 ++ [EvJitter;
                    EvLog INFO (MsgAttempt 1 (retries (air []))
                                  (point_url (air []) "7"));
                    EvGet (point_url (air []) "7");
                    EvLog INFO (MsgRequestOk 200)])
       (S (requests world0)) (writes world0)).
Proof.
  apply (parse_point_data_passes_plain_nodes env_plain (air []) "7" world0 200
           [("nodes", JArr [point "2020"; point "2021"])]
           [point "2020"; point "2021"]).
  - reflexivity.
  - simpl. lia.
  - reflexivity.
  - lia.
  - reflexivity.
  - discriminate.
  - repeat constructor.
    + exists (JObj [("field_period", JStr "2020")]), (JStr "").
      split; [reflexivity|]. split; [reflexivity|]. by left.
    + exists (JObj [("field_period", JStr "2021")]), (JStr "").
      split; [reflexivity|]. split; [reflexivity|]. by left.
Defined.

(** ** Geo-point discovery: what is found and where it comes from *)

Lemma grows_refl s : grows s s.
Proof. by intros k. Qed.

Lemma grows_trans s1 s2 s3 : grows s1 s2 -> grows s2 s3 -> grows s1 s3.
Proof. intros H12 H23 k Hk. by apply H23, H12. Qed.

(** What [set.add] does to the set. *)
Lemma set_add_takes v s s' :
  Py.set_add v s = Ok s' ->
  grows s s' /\
  (forall x, x ∈ s' -> x ∈ s \/ x = v) /\
  (forall k, Py.hash v = Ok k -> Py.has_key k s' = true).
Proof.
  unfold Py.set_add. destruct (Py.hash v) as [kv|] eqn:Hh; [|done]. simpl.
  destruct (Py.has_key kv s) eqn:Hdup; intros [= <-].
  - split; [apply grows_refl|]. split; [by left|]. by intros k [= <-].
  - split; [|split].
    + intros k Hk. rewrite has_key_snoc, Hk. done.
    + intros x Hx. apply elem_of_app in Hx as [?|Hx]; [by left|].
      apply list_elem_of_singleton in Hx. by right.
    + intros k [= <-]. rewrite has_key_snoc, Hh.
      by rewrite bool_decide_eq_true_2, orb_true_r.
Qed.

Lemma water_body_takes filename : takes (water_body filename) water_value.
Proof.
  intros item s w. unfold water_body, water_value, clean. run.
  destruct (Py.get item "field_geo_point" (JStr "")) as [v|e] eqn:Hget; run.
  - destruct (Py.truthy v && Py.ne_str v "Unknown") eqn:Hok; run.
    + destruct (Py.set_add v s) as [s'|e] eqn:Hadd; run.
      * left. exists s', [EvLog INFO (MsgGeoPoint v filename)].
        destruct (set_add_takes v s s' Hadd) as (Hg & Hfrom & Hin).
        split; [done|]. split; [done|]. split.
        -- intros x Hx. destruct (Hfrom x Hx) as [?| ->]; [by left|by right].
        -- intros x k [= <-]. apply Hin.
      * right. split; [eauto|]. intros [_ Hhash].
        destruct (Hhash v eq_refl) as [k Hk].
        unfold Py.set_add in Hadd. by rewrite Hk in Hadd.
    + left. exists s, []. rewrite <- logged_nil. split; [done|].
      split; [apply grows_refl|]. split; [by left|]. done.
  - right. split; [eauto|]. intros [[fields ->] _]. done.
Qed.

Lemma other_body_takes : takes other_body other_value.
Proof.
  intros item s w. unfold other_body, other_value, clean. run.
  destruct (Py.get item "Nid" (JStr "")) as [fallback|e] eqn:Hnid; run;
    [|right; split; [eauto|]; intros [[fields ->] _]; done].
  destruct (Py.get item "field_geo_point" fallback) as [v|e] eqn:Hget; run;
    [|right; split; [eauto|]; intros [[fields ->] _]; done].
  destruct (Py.truthy v && Py.ne_str v "Unknown") eqn:Hok; run.
  - destruct (Py.set_add v s) as [s'|e] eqn:Hadd; run.
    + left. exists s', []. rewrite <- logged_nil.
      destruct (set_add_takes v s s' Hadd) as (Hg & Hfrom & Hin).
      split; [done|]. split; [done|]. split.
      * intros x Hx. destruct (Hfrom x Hx) as [?| ->]; [by left|by right].
      * intros x k [= <-]. apply Hin.
    + right. split; [eauto|]. intros [_ Hhash].
      destruct (Hhash v eq_refl) as [k Hk].
      unfold Py.set_add in Hadd. by rewrite Hk in Hadd.
  - left. exists s, []. rewrite <- logged_nil. split; [done|].
    split; [apply grows_refl|]. split; [by left|]. done.
Qed.

Section Scans.

Variable body : json -> Py.pyset -> M Py.pyset.
Variable value : json -> option json.
Hypothesis Hbody : takes body value.

Lemma for_items_takes items : forall s w,
  exists s' e evs,
    for_items body items s w = (Ok (s', e), logged w evs) /\
    grows s s' /\
    (forall v, v ∈ s' -> v ∈ s \/ exists item, item ∈ items /\ value item = Some v) /\
    (Forall (clean value) items ->
     forall item v k, item ∈ items -> value item = Some v -> Py.hash v = Ok k ->
                      Py.has_key k s' = true).
Proof.
  induction items as [|item rest IH]; intros s w; simpl.
  - exists s, None, []. rewrite <- logged_nil. split; [done|].
    split; [apply grows_refl|]. split; [by left|].
    intros _ item v k Hin. by apply elem_of_nil in Hin.
  - destruct (Hbody item s w)
      as [(s1 & evs1 & -> & Hg1 & Hfrom1 & Hin1)|[[e ->] Hdirty]].
    + destruct (IH s1 (logged w evs1))
        as (s2 & e & evs2 & -> & Hg2 & Hfrom2 & Hin2).
      exists s2, e, (evs1 ++ evs2). rewrite logged_logged. split; [done|].
      split; [by eapply grows_trans|]. split.
      * intros v Hv. destruct (Hfrom2 v Hv) as [Hv1|(it & Hit & Hval)].
        -- destruct (Hfrom1 v Hv1) as [?|?]; [by left|].
           right. exists item. split; [by left|done].
        -- right. exists it. split; [by right|done].
      * intros Hclean it v k Hit Hval Hk.
        inversion Hclean as [|? ? _ Hrest]; subst.
        apply elem_of_cons in Hit as [->|Hit].
        -- apply Hg2. by eapply Hin1.
        -- by eapply (Hin2 Hrest).
    + exists s, (Some e), []. rewrite <- logged_nil. split; [done|].
      split; [apply grows_refl|]. split; [by left|].
      intros Hclean. inversion Hclean; subst. done.
Qed.

Lemma scan_file_takes filepath s w :
  exists s' evs,
    scan_file filepath body s w = (Ok s', logged w evs) /\
    grows s s' /\
    (forall v, v ∈ s' -> v ∈ s \/ from_file w value filepath v) /\
    (forall items,
       fs w !! filepath = Some (Stored (JArr items)) ->
       Forall (clean value) items ->
       forall item v k, item ∈ items -> value item = Some v -> Py.hash v = Ok k ->
                        Py.has_key k s' = true).
Proof.
  unfold scan_file. run.
  assert (forall (o : option file),
            (forall doc, o <> Some (Stored doc)) ->
            fs w !! filepath = o ->
            exists s' evs,
              (Ok s, logged w [EvOpenRead filepath;
                               EvLog ERROR (MsgReadError filepath)])
                = (Ok s', logged w evs) /\
              grows s s' /\
              (forall v, v ∈ s' -> v ∈ s \/ from_file w value filepath v) /\
              (forall items,
                 fs w !! filepath = Some (Stored (JArr items)) ->
                 Forall (clean value) items ->
                 forall item v k, item ∈ items -> value item = Some v ->
                                  Py.hash v = Ok k -> Py.has_key k s = true))
    as Hfail.
  { intros o Ho Hfile. eexists s, _. split; [done|].
    split; [apply grows_refl|]. split; [by left|].
    intros items Hitems. rewrite Hfile in Hitems. by destruct (Ho (JArr items)). }
  destruct (fs w !! filepath) as [[doc| |]|] eqn:Hfile; run.
  - destruct (Py.iter doc) as [items|] eqn:Hiter; run.
    + match goal with
      | |- context [for_items body items s ?w1] =>
          destruct (for_items_takes items s w1)
            as (s' & e & evs & -> & Hg & Hfrom & Hin)
      end.
      assert (forall v, v ∈ s' -> v ∈ s \/ from_file w value filepath v)
        as Hfrom'.
      { intros v Hv. destruct (Hfrom v Hv) as [?|(it & Hit & Hval)];
          [by left|].
        right. exists doc, items, it. done. }
      assert (forall items0,
                Some (Stored doc) = Some (Stored (JArr items0)) ->
                Forall (clean value) items0 ->
                forall item v k, item ∈ items0 -> value item = Some v ->
                                 Py.hash v = Ok k -> Py.has_key k s' = true)
        as Hin'.
      { intros items0 [= ->] Hclean. simpl in Hiter. injection Hiter as <-.
        by apply Hin. }
      unfold logged. cbn [fs trace requests writes].
      destruct e as [e|]; run.
      * exists s', (EvOpenRead filepath :: evs ++
                     [EvLog ERROR (MsgReadError filepath)]).
        split; [unfold logged; by rewrite <- !app_assoc|]. done.
      * exists s', (EvOpenRead filepath :: evs).
        split; [unfold logged; by rewrite <- !app_assoc|]. done.
    + exists s, [EvOpenRead filepath; EvLog ERROR (MsgReadError filepath)].
      split; [unfold logged; by rewrite <- !app_assoc|].
      split; [apply grows_refl|]. split; [by left|].
      intros items0 [= ->]. done.
  - destruct (Hfail (Some Unreadable)) as (s' & evs & Heq & Hrest);
      [done|done|].
    exists s, [EvOpenRead filepath; EvLog ERROR (MsgReadError filepath)].
    split; [unfold logged; by rewrite <- !app_assoc|].
    injection Heq as <- _. done.
  - destruct (Hfail (Some Truncated)) as (s' & evs & Heq & Hrest);
      [done|done|].
    exists s, [EvOpenRead filepath; EvLog ERROR (MsgReadError filepath)].
    split; [unfold logged; by rewrite <- !app_assoc|].
    injection Heq as <- _. done.
  - destruct (Hfail None) as (s' & evs & Heq & Hrest); [done|done|].
    exists s, [EvOpenRead filepath; EvLog ERROR (MsgReadError filepath)].
    split; [unfold logged; by rewrite <- !app_assoc|].
    injection Heq as <- _. done.
Qed.

End Scans.

Lemma scan_targets_takes self filenames : forall s w,
  exists s' evs,
    scan_targets self filenames s w = (Ok s', logged w evs) /\
    grows s s' /\
    (forall v, v ∈ s' ->
       v ∈ s \/
       exists filename,
         filename ∈ filenames /\
         from_file w water_value (path_join (category self) filename) v) /\
    (forall filename items,
       filename ∈ filenames ->
       fs w !! path_join (category self) filename = Some (Stored (JArr items)) ->
       Forall (clean water_value) items ->
       forall item v k, item ∈ items -> water_value item = Some v ->
                        Py.hash v = Ok k -> Py.has_key k s' = true).
Proof.
  induction filenames as [|filename rest IH]; intros s w; simpl.
  - exists s, []. rewrite <- logged_nil. split; [done|].
    split; [apply grows_refl|]. split; [by left|].
    intros f items Hf. by apply elem_of_nil in Hf.
  - run.
    assert (exists s1 evs1,
              (if bool_decide (is_Some (fs w !! path_join (category self) filename))
               then scan_file (path_join (category self) filename)
                      (water_body filename) s
               else (log WARNING (MsgFileNotFound
                                    (path_join (category self) filename)) ;;
                     ret s)%M) w = (Ok s1, logged w evs1) /\
              grows s s1 /\
              (forall v, v ∈ s1 ->
                 v ∈ s \/ from_file w water_value
                            (path_join (category self) filename) v) /\
              (forall items,
                 fs w !! path_join (category self) filename
                   = Some (Stored (JArr items)) ->
                 Forall (clean water_value) items ->
                 forall item v k, item ∈ items -> water_value item = Some v ->
                                  Py.hash v = Ok k -> Py.has_key k s1 = true))
      as (s1 & evs1 & Hrun1 & Hg1 & Hfrom1 & Hin1).
    { destruct (fs w !! path_join (category self) filename) as [f|] eqn:Hfile.
      - rewrite exists_Some.
        destruct (scan_file_takes (water_body filename) water_value
                    (water_body_takes filename)
                    (path_join (category self) filename) s w)
          as (s1 & evs1 & Hrun & Hg & Hfrom & Hin).
        exists s1, evs1. split; [done|]. split; [done|]. split; [done|].
        intros items Hitems. apply Hin. by rewrite Hfile.
      - rewrite exists_None. run.
        exists s, [EvLog WARNING (MsgFileNotFound
                                   (path_join (category self) filename))].
        split; [done|]. split; [apply grows_refl|]. split; [by left|]. done. }
    revert Hrun1. run. intros ->.
    destruct (IH s1 (logged w evs1)) as (s2 & evs2 & -> & Hg2 & Hfrom2 & Hin2).
    exists s2, (evs1 ++ evs2). rewrite logged_logged. split; [done|].
    split; [by eapply grows_trans|]. split.
    + intros v Hv. destruct (Hfrom2 v Hv) as [Hv1|(f & Hf & Hfile)].
      * destruct (Hfrom1 v Hv1) as [?|?]; [by left|].
        right. exists filename. split; [by left|done].
      * right. exists f. split; [by right|done].
    + intros f items Hf Hfile Hclean item v k Hitem Hval Hk.
      apply elem_of_cons in Hf as [->|Hf].
      * apply Hg2. by eapply Hin1.
      * by eapply (Hin2 f items).
Qed.

Lemma scan_listing_takes self data_type filenames : forall s w,
  exists s' evs,
    scan_listing self data_type filenames s w = (Ok s', logged w evs) /\
    grows s s' /\
    (forall v, v ∈ s' ->
       v ∈ s \/
       exists filename,
         filename ∈ filenames /\
         Py.endswith filename ("_" +:+ data_type +:+ ".json") = true /\
         from_file w other_value (path_join (category self) filename) v) /\
    (forall filename items,
       filename ∈ filenames ->
       Py.endswith filename ("_" +:+ data_type +:+ ".json") = true ->
       fs w !! path_join (category self) filename = Some (Stored (JArr items)) ->
       Forall (clean other_value) items ->
       forall item v k, item ∈ items -> other_value item = Some v ->
                        Py.hash v = Ok k -> Py.has_key k s' = true).
Proof.
  induction filenames as [|filename rest IH]; intros s w; simpl.
  - exists s, []. rewrite <- logged_nil. split; [done|].
    split; [apply grows_refl|]. split; [by left|].
    intros f items Hf. by apply elem_of_nil in Hf.
  - run.
    destruct (Py.endswith filename ("_" +:+ data_type +:+ ".json")) eqn:Hsuffix.
    + destruct (scan_file_takes other_body other_value other_body_takes
                  (path_join (category self) filename) s w)
        as (s1 & evs1 & -> & Hg1 & Hfrom1 & Hin1).
      destruct (IH s1 (logged w evs1)) as (s2 & evs2 & -> & Hg2 & Hfrom2 & Hin2).
      exists s2, (evs1 ++ evs2). rewrite logged_logged. split; [done|].
      split; [by eapply grows_trans|]. split.
      * intros v Hv. destruct (Hfrom2 v Hv) as [Hv1|(f & Hf & Hs & Hfile)].
        -- destruct (Hfrom1 v Hv1) as [?|?]; [by left|].
           right. exists filename. split; [by left|done].
        -- right. exists f. split; [by right|done].
      * intros f items Hf Hs Hfile Hclean item v k Hitem Hval Hk.
        apply elem_of_cons in Hf as [->|Hf].
        -- apply Hg2. by eapply Hin1.
        -- by eapply (Hin2 f items).
    + run. destruct (IH s w) as (s2 & evs2 & -> & Hg2 & Hfrom2 & Hin2).
      exists s2, evs2. split; [done|]. split; [done|]. split.
      * intros v Hv. destruct (Hfrom2 v Hv) as [?|(f & Hf & Hs & Hfile)];
          [by left|].
        right. exists f. split; [by right|done].
      * intros f items Hf Hs Hfile Hclean item v k Hitem Hval Hk.
        apply elem_of_cons in Hf as [->|Hf]; [congruence|].
        by eapply (Hin2 f items).
Qed.

(** X12. For the category "water", discovery returns exactly what its two
    collections hold: every value returned is the "field_geo_point" (not
    empty, not "Unknown") of an item of one of the two named files, and
    every such value of a file that holds a list of clean items is in the
    set, whatever the other file holds. *)
Theorem extract_geo_points_water_exact self data_type w :
  category self = "water" ->
  exists geo_points evs,
    extract_geo_points self data_type w = (Ok geo_points, logged w evs) /\
    (forall v, v ∈ geo_points ->
       exists filename,
         filename ∈ target_files /\
         from_file w water_value (path_join "water" filename) v) /\
    (forall filename items,
       filename ∈ target_files ->
       fs w !! path_join "water" filename = Some (Stored (JArr items)) ->
       Forall (clean water_value) items ->
       forall item v, item ∈ items -> water_value item = Some v ->
         exists k, Py.hash v = Ok k /\ Py.has_key k geo_points = true).
Proof.
  intros Hwater. unfold extract_geo_points. run.
  rewrite Hwater. cbn [String.eqb Ascii.eqb Bool.eqb].
  destruct (scan_targets_takes self target_files [] w)
    as (s & evs & -> & _ & Hfrom & Hin).
  rewrite Hwater in *.
  exists s, (evs ++ [EvLog INFO (MsgGeoPointTotal "water" (length s))]).
  split; [unfold logged; cbn [fs trace requests writes]; by rewrite app_assoc|].
  split.
  - intros v Hv. destruct (Hfrom v Hv) as [Hnil|?]; [|done].
    by apply elem_of_nil in Hnil.
  - intros filename items Hf Hfile Hclean item v Hitem Hval.
    pose proof Hclean as Hc.
    eapply Forall_forall in Hc as [_ Hhash]; [|exact Hitem].
    destruct (Hhash v Hval) as [k Hk]. exists k. split; [done|].
    by eapply (Hin filename items).
Qed.

Lemma extract_geo_points_water_exact_witness :
  exists geo_points evs,
    extract_geo_points (new_parser "water") "substances" world_water =
      (Ok geo_points, logged world_water evs) /\
    (forall v, v ∈ geo_points ->
       exists filename,
         filename ∈ target_files /\
         from_file world_water water_value (path_join "water" filename) v) /\
    (forall filename items,
       filename ∈ target_files ->
       fs world_water !! path_join "water" filename = Some (Stored (JArr items)) ->
       Forall (clean water_value) items ->
       forall item v, item ∈ items -> water_value item = Some v ->
         exists k, Py.hash v = Ok k /\ Py.has_key k geo_points = true).
Proof.
  apply (extract_geo_points_water_exact (new_parser "water") "substances"
           world_water).
  reflexivity.
Defined.

(** Strings: a directory, the separator, and what follows them. *)
Lemma substring_all s : String.substring 0 (String.length s) s = s.
Proof. induction s as [|c s IH]; simpl; [done|]. by rewrite IH. Qed.

Lemma prefix_root dir name :
  String.prefix (dir +:+ "/") (dir +:+ "/" +:+ name) = true.
Proof.
  induction dir as [|c dir IH].
  - change ("" +:+ "/") with "/".
    change ("" +:+ "/" +:+ name) with (String "/" name).
    simpl. by destruct name.
  - change (String c dir +:+ "/") with (String c (dir +:+ "/")).
    change (String c dir +:+ "/" +:+ name)
      with (String c (dir +:+ "/" +:+ name)).
    simpl. by destruct (ascii_dec c c).
Qed.

Lemma substring_root dir name :
  String.substring (String.length (dir +:+ "/"))
    (String.length (dir +:+ "/" +:+ name) - String.length (dir +:+ "/"))
    (dir +:+ "/" +:+ name) = name.
Proof.
  induction dir as [|c dir IH].
  - change ("" +:+ "/") with "/".
    change ("" +:+ "/" +:+ name) with (String "/" name).
    simpl. rewrite Nat.sub_0_r. apply substring_all.
  - change (String c dir +:+ "/") with (String c (dir +:+ "/")).
    change (String c dir +:+ "/" +:+ name)
      with (String c (dir +:+ "/" +:+ name)).
    simpl. exact IH.
Qed.

Lemma entry_of_child dir name :
  Py.substr_of "/" name = false ->
  entry_of dir (path_join dir name) = Some name.
Proof.
  intros Hflat. unfold entry_of, path_join.
  by rewrite prefix_root, substring_root, Hflat.
Qed.

Lemma entry_of_flat dir path name :
  entry_of dir path = Some name -> Py.substr_of "/" name = false.
Proof.
  unfold entry_of. destruct (String.prefix _ _); [|done].
  destruct (Py.substr_of "/" _) eqn:Hflat; [done|]. by intros [= <-].
Qed.

(** C9. [extract_geo_points] always returns and changes no file.  The set
    it returns holds no two equal values and neither "Unknown" nor an
    empty value; every value in it is taken from an item of a collection
    that discovery scans, and every value so taken from a scanned
    collection that holds a list of clean items is in it: it is exactly
    the set of the values found.  For the category "water" the only files
    opened are nsmos_substances_substances.json and
    esawage_surface_substances_substances.json of that category, whatever
    other files match the suffix. *)
Theorem extract_geo_points_discovers self data_type w :
  exists geo_points evs,
    extract_geo_points self data_type w = (Ok geo_points, logged w evs) /\
    Forall (keyed itself) geo_points /\
    NoDup (keys itself geo_points) /\
    Forall (fun v => Py.truthy v = true /\ v <> JStr "Unknown") geo_points /\
    (forall v, v ∈ geo_points ->
       exists filename,
         scanned self data_type filename /\
         from_file w (taken self) (path_join (category self) filename) v) /\
    (forall filename items,
       scanned self data_type filename ->
       fs w !! path_join (category self) filename = Some (Stored (JArr items)) ->
       Forall (clean (taken self)) items ->
       forall item v, item ∈ items -> taken self item = Some v ->
         exists k, Py.hash v = Ok k /\ Py.has_key k geo_points = true) /\
    (category self = "water" ->
     files_read evs ⊆
       ["water/nsmos_substances_substances.json";
        "water/esawage_surface_substances_substances.json"]).
Proof.
  unfold extract_geo_points, taken, scanned. run.
  destruct (String.eqb_spec (category self) "water") as [Hwater|Hother].
  - destruct (scan_targets_scanning self target_files [] w discovered_nil)
      as (s & evs & Hrun & Hread & Hkeyed & Hnd & Hvals).
    destruct (scan_targets_takes self target_files [] w)
      as (s' & evs' & Hrun' & _ & Hfrom & Hin).
    rewrite Hrun in Hrun'. injection Hrun' as <- _. rewrite Hrun.
    exists s, (evs ++ [EvLog INFO (MsgGeoPointTotal (category self) (length s))]).
    split; [unfold logged; cbn [fs trace requests writes]; by rewrite app_assoc|].
    split; [done|]. split; [done|]. split; [done|]. split; [|split].
    + intros v Hv. destruct (Hfrom v Hv) as [Hnil|?]; [|done].
      by apply elem_of_nil in Hnil.
    + intros filename items Hf Hfile Hclean item v Hitem Hval.
      pose proof Hclean as Hc.
      eapply Forall_forall in Hc as [_ Hhash]; [|exact Hitem].
      destruct (Hhash v Hval) as [k Hk]. exists k. split; [done|].
      by eapply (Hin filename items).
    + intros _. rewrite files_read_app, app_nil_r.
      rewrite Hwater in Hread. exact Hread.
  - set (listing := omap (fun p => entry_of (category self) p.1)
                         (map_to_list (fs w))).
    destruct (scan_listing_scanning self data_type listing [] w discovered_nil)
      as (s & evs & Hrun & Hkeyed & Hnd & Hvals).
    destruct (scan_listing_takes self data_type listing [] w)
      as (s' & evs' & Hrun' & _ & Hfrom & Hin).
    rewrite Hrun in Hrun'. injection Hrun' as <- _.
    unfold listdir. run. fold listing. rewrite Hrun.
    exists s, (evs ++ [EvLog INFO (MsgGeoPointTotal (category self) (length s))]).
    split; [unfold logged; cbn [fs trace requests writes]; by rewrite app_assoc|].
    split; [done|]. split; [done|]. split; [done|]. split; [|split; [|done]].
    + intros v Hv. destruct (Hfrom v Hv) as [Hnil|(f & Hf & Hs & Hfile)];
        [by apply elem_of_nil in Hnil|].
      exists f. split; [|done]. split; [|done].
      apply list_elem_of_omap in Hf as ([path file] & _ & Hentry).
      by eapply entry_of_flat.
    + intros filename items [Hflat Hsuffix] Hfile Hclean item v Hitem Hval.
      pose proof Hclean as Hc.
      eapply Forall_forall in Hc as [_ Hhash]; [|exact Hitem].
      destruct (Hhash v Hval) as [k Hk]. exists k. split; [done|].
      eapply (Hin filename items); try done.
      apply list_elem_of_omap.
      exists (path_join (category self) filename, Stored (JArr items)).
      split; [by apply elem_of_map_to_list|].
      by apply entry_of_child.
Qed.

(** The scenario of the claim, from the theorem: the values "A",
    "Unknown", "B", "A" of the two collections of "water" give a set that
    holds "A" and "B", nothing else, and nothing twice. *)
Lemma extract_geo_points_discovers_witness :
  exists geo_points evs,
    extract_geo_points (new_parser "water") "substances" world_water =
      (Ok geo_points, logged world_water evs) /\
    NoDup (keys itself geo_points) /\
    Py.has_key (Py.KStr "A") geo_points = true /\
    Py.has_key (Py.KStr "B") geo_points = true /\
    (forall v, v ∈ geo_points -> v = JStr "A" \/ v = JStr "B") /\
    files_read evs ⊆
      ["water/nsmos_substances_substances.json";
       "water/esawage_surface_substances_substances.json"].
Proof.
  destruct (extract_geo_points_discovers (new_parser "water") "substances"
              world_water)
    as (geo_points & evs & Hrun & Hkeyed & Hnd & Hvals & Hfrom & Hin & Hread).
  exists geo_points, evs.
  split; [exact Hrun|]. split; [exact Hnd|].
  assert (Hclean : forall s, clean (taken (new_parser "water")) (geo s)).
  { intros s. split; [by eexists|]. intros v. unfold taken, water_value, geo.
    cbn. destruct (_ && _); [|done]. intros [= <-]. by eexists. }
  split; [|split; [|split]].
  - destruct (Hin "nsmos_substances_substances.json"
                [geo "A"; geo "Unknown"]) with (item := geo "A") (v := JStr "A")
      as (k & Hk & Hhas).
    + apply list_elem_of_here.
    + reflexivity.
    + repeat constructor; apply Hclean.
    + apply list_elem_of_here.
    + reflexivity.
    + by injection Hk as <-.
  - destruct (Hin "esawage_surface_substances_substances.json"
                [geo "B"; geo "A"]) with (item := geo "B") (v := JStr "B")
      as (k & Hk & Hhas).
    + apply list_elem_of_further, list_elem_of_here.
    + reflexivity.
    + repeat constructor; apply Hclean.
    + apply list_elem_of_here.
    + reflexivity.
    + by injection Hk as <-.
  - intros v Hv.
    destruct (Hfrom v Hv)
      as (filename & Hf & doc & items & item & Hfs & Hiter & Hitem & Hval).
    change (scanned (new_parser "water") "substances" filename)
      with (filename ∈ target_files) in Hf.
    unfold target_files in Hf.
    repeat (apply elem_of_cons in Hf as [-> |Hf]);
      [| |by apply elem_of_nil in Hf];
      vm_compute in Hfs; injection Hfs as <-;
      cbn [Py.iter] in Hiter; injection Hiter as <-;
      repeat (apply elem_of_cons in Hitem as [-> |Hitem]);
      try (by apply elem_of_nil in Hitem);
      vm_compute in Hval; try done; injection Hval as <-; auto.
  - apply Hread. reflexivity.
Defined.

(** The same scenario, evaluated: the third collection, though its name
    ends in the suffix, is not opened. *)
Example extract_geo_points_scenario :
  let out := extract_geo_points (new_parser "water") "substances" world_water in
  fst out = Ok [JStr "A"; JStr "B"] /\
  files_read (trace (snd out)) =
    ["water/nsmos_substances_substances.json";
     "water/esawage_surface_substances_substances.json"].
Proof. by vm_compute. Qed.

(** X13. For the other categories, discovery returns exactly what the
    listed collections hold: every value returned is the "field_geo_point",
    or for want of it the "Nid" (not empty, not "Unknown"), of an item of
    a file of the category whose name ends in [_<data_type>.json], and
    every such value of a file directly in the category that holds a list
    of clean items is in the set, whatever the other files hold. *)
Theorem extract_geo_points_listing_exact self data_type w :
  category self <> "water" ->
  exists geo_points evs,
    extract_geo_points self data_type w = (Ok geo_points, logged w evs) /\
    (forall v, v ∈ geo_points ->
       exists filename,
         Py.endswith filename ("_" +:+ data_type +:+ ".json") = true /\
         from_file w other_value (path_join (category self) filename) v) /\
    (forall filename items,
       Py.substr_of "/" filename = false ->
       Py.endswith filename ("_" +:+ data_type +:+ ".json") = true ->
       fs w !! path_join (category self) filename = Some (Stored (JArr items)) ->
       Forall (clean other_value) items ->
       forall item v, item ∈ items -> other_value item = Some v ->
         exists k, Py.hash v = Ok k /\ Py.has_key k geo_points = true).
Proof.
  intros Hother. unfold extract_geo_points, listdir. run.
  destruct (String.eqb_spec (category self) "water") as [|_]; [done|]. run.
  destruct (scan_listing_takes self data_type
              (omap (fun p => entry_of (category self) p.1) (map_to_list (fs w)))
              [] w)
    as (s & evs & -> & _ & Hfrom & Hin).
  exists s, (evs ++ [EvLog INFO (MsgGeoPointTotal (category self) (length s))]).
  split; [unfold logged; cbn [fs trace requests writes]; by rewrite app_assoc|].
  split.
  - intros v Hv. destruct (Hfrom v Hv) as [Hnil|(f & _ & Hs & Hfile)].
    + by apply elem_of_nil in Hnil.
    + by exists f.
  - intros filename items Hflat Hsuffix Hfile Hclean item v Hitem Hval.
    pose proof Hclean as Hc.
    eapply Forall_forall in Hc as [_ Hhash]; [|exact Hitem].
    destruct (Hhash v Hval) as [k Hk]. exists k. split; [done|].
    eapply (Hin filename items); try done.
    apply list_elem_of_omap.
    exists (path_join (category self) filename, Stored (JArr items)).
    split; [by apply elem_of_map_to_list|].
    by apply entry_of_child.
Qed.

Lemma extract_geo_points_listing_exact_witness :
  exists geo_points evs,
    extract_geo_points (new_parser "soils") "place" world_soils =
      (Ok geo_points, logged world_soils evs) /\
    (forall v, v ∈ geo_points ->
       exists filename,
         Py.endswith filename ("_" +:+ "place" +:+ ".json") = true /\
         from_file world_soils other_value
           (path_join (category (new_parser "soils")) filename) v) /\
    (forall filename items,
       Py.substr_of "/" filename = false ->
       Py.endswith filename ("_" +:+ "place" +:+ ".json") = true ->
       fs world_soils !! path_join (category (new_parser "soils")) filename
         = Some (Stored (JArr items)) ->
       Forall (clean other_value) items ->
       forall item v, item ∈ items -> other_value item = Some v ->
         exists k, Py.hash v = Ok k /\ Py.has_key k geo_points = true).
Proof.
  apply (extract_geo_points_listing_exact (new_parser "soils") "place"
           world_soils).
  discriminate.
Defined.

(** The scenario of X13: the place collection of "soils" gives "A" and,
    for the item without "field_geo_point", its "Nid"; the garbled
    collection is logged and skipped. *)
Example extract_geo_points_fallback_scenario :
  fst (extract_geo_points (new_parser "soils") "place" world_soils)
    = Ok [JStr "A"; JStr "17"].
Proof. by vm_compute. Qed.

(** ** extract_year *)

Lemma append_cons c s t : String c s +:+ t = String c (s +:+ t).
Proof. reflexivity. Qed.

Lemma append_empty_r s : s +:+ "" = s.
Proof. induction s as [|c s IH]; [done|]. by rewrite append_cons, IH. Qed.

Lemma append_assoc s t u : (s +:+ t) +:+ u = s +:+ (t +:+ u).
Proof.
  induction s as [|c s IH]; [done|]. by rewrite !append_cons, IH.
Qed.

Lemma snoc_append cur c s : Str.snoc cur c +:+ s = cur +:+ String c s.
Proof. unfold Str.snoc. by rewrite append_assoc. Qed.

Lemma snoc_not_empty cur c : Str.snoc cur c <> "".
Proof. by destruct cur. Qed.

Lemma digit_not_space c : Str.is_digit c = true -> Str.is_space c = false.
Proof.
  unfold Str.is_digit, Str.is_space. cbv zeta.
  generalize (nat_of_ascii c). intros n H.
  apply andb_true_iff in H as [H1 H2].
  apply Nat.leb_le in H1. apply Nat.leb_le in H2.
  apply orb_false_iff. split; apply andb_false_iff.
  - right. apply Nat.leb_gt. lia.
  - right. apply Nat.leb_gt. lia.
Qed.

Lemma digit_not_dot c : Str.is_digit c = true -> Ascii.eqb c "." = false.
Proof.
  intros H. destruct (Ascii.eqb_spec c ".") as [->|]; [|done].
  by vm_compute in H.
Qed.

(** A run of digits read after [cur] is one token. *)
Lemma split_go_digits cur token tail :
  Str.all_digits token = true -> all_space tail = true ->
  cur +:+ token <> "" ->
  Str.split_go cur (token +:+ tail) = [cur +:+ token].
Proof.
  revert cur. induction token as [|c token IH]; intros cur Hd Ht Hne.
  - rewrite append_empty_r in *. change ("" +:+ tail) with tail.
    clear Hd. induction tail as [|c tail IHt]; simpl.
    + by destruct cur.
    + simpl in Ht. apply andb_true_iff in Ht as [-> Ht].
      destruct cur; [done|]. f_equal.
      clear -Ht. induction tail as [|c tail IHt]; [done|].
      simpl in *. apply andb_true_iff in Ht as [-> Ht]. auto.
  - simpl in Hd. apply andb_true_iff in Hd as [Hc Hd].
    rewrite append_cons. simpl. rewrite (digit_not_space _ Hc).
    rewrite IH; [by rewrite snoc_append|done|done|].
    rewrite snoc_append. by destruct cur.
Qed.

Lemma split_go_gap cur gap rest :
  all_space gap = true -> gap <> "" ->
  last (Str.split_go cur (gap +:+ rest)) =
    match last (Str.split_go "" rest) with
    | Some token => Some token
    | None => match cur with EmptyString => None | _ => Some cur end
    end.
Proof.
  intros Hs Hne. destruct gap as [|c gap]; [done|]. clear Hne.
  simpl in Hs. apply andb_true_iff in Hs as [Hc Hs].
  rewrite append_cons. simpl. rewrite Hc.
  assert (Hskip : Str.split_go "" (gap +:+ rest) = Str.split_go "" rest).
  { clear -Hs. induction gap as [|c gap IH]; [done|].
    simpl in Hs. apply andb_true_iff in Hs as [Hc Hs].
    rewrite append_cons. simpl. rewrite Hc. auto. }
  destruct cur as [|a cur].
  - rewrite Hskip. by destruct (last _).
  - rewrite last_cons, Hskip. by destruct (last _).
Qed.


Lemma split_go_last_token cur before gap year tail :
  Str.all_digits year = true -> year <> "" ->
  all_space gap = true -> all_space tail = true ->
  (before = "" /\ cur = "" \/ gap <> "") ->
  last (Str.split_go cur (before +:+ gap +:+ year +:+ tail)) = Some year.
Proof.
  intros Hd Hne Hg Ht. revert cur.
  assert (Hyear : Str.split_go "" (year +:+ tail) = [year])
    by (by apply (split_go_digits "")).
  induction before as [|c before IH]; intros cur Hor.
  - change ("" +:+ gap +:+ year +:+ tail) with (gap +:+ year +:+ tail).
    destruct gap as [|g gap].
    + destruct Hor as [[_ ->]|]; [|done].
      change ("" +:+ year +:+ tail) with (year +:+ tail). by rewrite Hyear.
    + by rewrite split_go_gap, Hyear.
  - assert (Hgap : gap <> "") by (by destruct Hor as [[? _]|]).
    rewrite append_cons. simpl. destruct (Str.is_space c).
    + destruct cur; [by apply IH; right|].
      rewrite last_cons, IH; [done|by right].
    + apply IH. by right.
Qed.

Lemma split_go_nil cur s :
  Str.split_go cur s = [] -> cur = "" /\ all_space s = true.
Proof.
  revert cur. induction s as [|c s IH]; intros cur H; simpl in *.
  - by destruct cur.
  - destruct (Str.is_space c).
    + destruct cur; [|done]. by destruct (IH _ H).
    + destruct (IH _ H) as [Hcur _]. by apply snoc_not_empty in Hcur.
Qed.

Lemma split_go_blank s : all_space s = true -> Str.split_go "" s = [].
Proof.
  induction s as [|c s IH]; [done|]. simpl.
  intros [-> Hs]%andb_true_iff. auto.
Qed.

(** The last token is a piece of what was read, followed by whitespace
    only. *)
Lemma split_go_last cur s token :
  last (Str.split_go cur s) = Some token ->
  exists before tail,
    cur +:+ s = before +:+ token +:+ tail /\ all_space tail = true.
Proof.
  revert cur token. induction s as [|c s IH]; intros cur token H; simpl in H.
  - destruct cur as [|a cur]; [done|]. injection H as <-.
    exists "", "". by rewrite !append_empty_r.
  - destruct (Str.is_space c) eqn:Hc.
    + assert (Hrest : forall token',
                last (Str.split_go "" s) = Some token' ->
                exists before tail,
                  cur +:+ String c s = before +:+ token' +:+ tail /\
                  all_space tail = true).
      { intros token' H'. destruct (IH _ _ H') as (before & tail & Heq & Ht).
        change ("" +:+ s) with s in Heq.
        exists (cur +:+ String c before), tail. split; [|done].
        by rewrite append_assoc, append_cons, Heq. }
      destruct cur as [|a cur]; [by apply Hrest|].
      rewrite last_cons in H.
      destruct (last (Str.split_go "" s)) as [token'|] eqn:Hl.
      * injection H as <-. by apply Hrest.
      * injection H as <-. apply last_None in Hl.
        apply split_go_nil in Hl as [_ Hs].
        exists "", (String c s). split; [done|]. simpl. by rewrite Hc.
    + destruct (IH _ _ H) as (before & tail & Heq & Ht).
      exists before, tail. split; [|done]. by rewrite <- snoc_append.
Qed.

Lemma last_piece_spec cur s :
  no_dot cur = true ->
  no_dot (Str.last_piece cur s) = true /\
  (Str.last_piece cur s = cur +:+ s \/
   exists before, s = before +:+ "." +:+ Str.last_piece cur s).
Proof.
  revert cur. induction s as [|c s IH]; intros cur Hcur; simpl.
  - split; [done|]. left. by rewrite append_empty_r.
  - destruct (Ascii.eqb_spec c ".") as [->|Hc].
    + destruct (IH "" eq_refl) as [Hno [Heq|[before Heq]]];
        (split; [done|]); right.
      * exists "". by rewrite Heq at 1.
      * exists (String "." before). by rewrite append_cons, <- Heq.
    + assert (Hs : no_dot (Str.snoc cur c) = true).
      { clear -Hcur Hc. induction cur as [|a cur IHc]; simpl in *.
        - by destruct (Ascii.eqb_spec c ".").
        - apply andb_true_iff in Hcur as [-> Hcur]. auto. }
      destruct (IH _ Hs) as [Hno [Heq|[before Heq]]]; (split; [done|]).
      * left. by rewrite Heq, snoc_append.
      * right. exists (String c before). by rewrite append_cons, <- Heq.
Qed.

Lemma starts_with_date_dot s :
  Str.starts_with_date s = true -> no_dot s = false.
Proof.
  destruct s as [|a [|b [|c s]]]; try done. simpl.
  destruct (Ascii.eqb_spec c ".") as [->|Hc].
  - intros _. simpl. by rewrite !andb_false_r.
  - intros H. exfalso. revert H.
    destruct c as [[] [] [] [] [] [] [] []]; try done.
Qed.

Lemma year_text_chars year :
  year_text year ->
  exists a b c d,
    year = String a (String b (String c (String d ""))) /\
    Str.is_digit a = true /\ Str.is_digit b = true /\
    Str.is_digit c = true /\ Str.is_digit d = true.
Proof.
  intros [Hlen Hd].
  destruct year as [|a [|b [|c [|d [|]]]]]; try done.
  simpl in Hd. rewrite andb_true_r in Hd.
  apply andb_true_iff in Hd as [Ha Hd].
  apply andb_true_iff in Hd as [Hb Hd].
  apply andb_true_iff in Hd as [Hc Hd].
  by exists a, b, c, d.
Qed.

Lemma split_go_not_space cur c s :
  Str.is_space c = false ->
  Str.split_go cur (String c s) = Str.split_go (Str.snoc cur c) s.
Proof. intros H. simpl. by rewrite H. Qed.

(** X14. A period that ends in a year of four digits, alone or set off by
    whitespace from what precedes it, and followed by whitespace at most,
    gives that year and logs nothing. *)
Theorem extract_year_last_token before gap year tail :
  year_text year ->
  all_space gap = true -> all_space tail = true ->
  before = "" \/ gap <> "" ->
  extract_year (before +:+ gap +:+ year +:+ tail) = (year, None).
Proof.
  intros [Hlen Hd] Hg Ht Hor. unfold extract_year, Str.split.
  rewrite (split_go_last_token "" before gap year tail); try done.
  - unfold Str.isdigit. rewrite Hlen.
    destruct year; [done|]. by rewrite Hd.
  - by destruct year.
  - destruct Hor; auto.
Qed.

Lemma extract_year_last_token_witness :
  extract_year ("1 quarter" +:+ " " +:+ "2020" +:+ "") = ("2020", None).
Proof.
  apply (extract_year_last_token "1 quarter" " " "2020" "").
  - split; reflexivity.
  - reflexivity.
  - reflexivity.
  - right. discriminate.
Defined.

(** X15. A date written dd.dd.dddd gives its last four digits and logs
    nothing. *)
Theorem extract_year_date d1 d2 m1 m2 year :
  Str.is_digit d1 = true -> Str.is_digit d2 = true ->
  Str.is_digit m1 = true -> Str.is_digit m2 = true ->
  year_text year ->
  extract_year
    (String d1 (String d2 (String "." (String m1 (String m2
       (String "." year)))))) = (year, None).
Proof.
  intros H1 H2 H3 H4 Hy.
  destruct (year_text_chars _ Hy) as (a & b & c & d & -> & Ha & Hb & Hc & Hd).
  unfold extract_year, Str.split.
  rewrite !split_go_not_space
    by first [by apply digit_not_space | by vm_compute].
  cbv [Str.snoc String.append Str.split_go last].
  assert (Hdot : Str.is_digit "." = false) by (by vm_compute).
  cbn [Str.isdigit Str.all_digits Str.starts_with_date].
  rewrite H1, H2, H3, H4, Ha, Hb, Hc, Hd, Hdot.
  cbn [andb]. cbn [Str.last_piece].
  rewrite !digit_not_dot by done.
  replace (Ascii.eqb "." ".") with true by (by vm_compute).
  rewrite !digit_not_dot by done.
  reflexivity.
Qed.

Lemma extract_year_date_witness :
  extract_year "01.02.2020" = ("2020", None).
Proof.
  apply (extract_year_date "0" "1" "0" "2" "2020"); try reflexivity.
  split; reflexivity.
Defined.

(** X16. For a period of ASCII characters, what [extract_year] returns is
    "Unknown" whenever it logs; when it logs nothing the result is either
    four digits that stand in the period with whitespace at most after
    them, or, for a period that starts with a date dd.dd.dddd, the text
    after the last dot of the period, whatever that text is. *)
Theorem extract_year_shape period_str :
  Str.isascii period_str = true ->
  match extract_year period_str with
  | (year, Some _) => year = "Unknown"
  | (year, None) =>
      (year_text year /\
       exists before tail,
         period_str = before +:+ year +:+ tail /\ all_space tail = true) \/
      (Str.starts_with_date period_str = true /\
       no_dot year = true /\
       exists before, period_str = before +:+ "." +:+ year)
  end.
Proof.
  intros _. unfold extract_year, Str.split.
  destruct (last (Str.split_go "" period_str)) as [token|] eqn:Hl; [|done].
  destruct (Str.isdigit token && (String.length token =? 4)%nat) eqn:Hd.
  - left. apply andb_true_iff in Hd as [Hd Hlen].
    apply Nat.eqb_eq in Hlen. split.
    + split; [done|]. by destruct token.
    + apply split_go_last in Hl as (before & tail & Heq & Ht).
      by exists before, tail.
  - destruct (Str.starts_with_date period_str) eqn:Hdate; [|done].
    right. split; [done|].
    destruct (last_piece_spec "" period_str eq_refl) as [Hno [Heq|Hex]].
    + change ("" +:+ period_str) with period_str in Heq.
      rewrite Heq in Hno. by rewrite (starts_with_date_dot _ Hdate) in Hno.
    + done.
Qed.

Lemma extract_year_shape_witness :
  match extract_year "01.02.2020 y." with
  | (year, Some _) => year = "Unknown"
  | (year, None) =>
      (year_text year /\
       exists before tail,
         "01.02.2020 y." = before +:+ year +:+ tail /\
         all_space tail = true) \/
      (Str.starts_with_date "01.02.2020 y." = true /\
       no_dot year = true /\
       exists before, "01.02.2020 y." = before +:+ "." +:+ year)
  end.
Proof. apply (extract_year_shape "01.02.2020 y."). reflexivity. Defined.

(** A date followed by an abbreviation that ends in a dot: the result is
    the empty text after that dot, not the year. *)
Example extract_year_date_with_suffix :
  extract_year "01.02.2020 y." = ("", None).
Proof. reflexivity. Qed.

(** X17. For a period of ASCII characters, [extract_year] takes the path
    of the caught [IndexError] exactly when the period is whitespace only,
    the empty one included. *)
Theorem extract_year_blank period_str :
  Str.isascii period_str = true ->
  (all_space period_str = true <->
   extract_year period_str = ("Unknown", Some (YearError period_str))).
Proof.
  intros _. unfold extract_year, Str.split. split.
  - intros H. by rewrite split_go_blank.
  - destruct (last (Str.split_go "" period_str)) as [token|] eqn:Hl.
    + by repeat case_match.
    + intros _. apply last_None in Hl. by apply split_go_nil in Hl as [_ ?].
Qed.

Lemma extract_year_blank_witness :
  all_space "  " = true <->
  extract_year "  " = ("Unknown", Some (YearError "  ")).
Proof. apply (extract_year_blank "  "). reflexivity. Defined.

(** ** RadiationParser: the records of the levels endpoint *)

Ltac jrun :=
  repeat progress
    (cbv beta iota delta [jbind jret jraise jlift say base];
     cbn [fst snd]).

Lemma truthy_ne_empty v : Py.truthy v = true -> Py.ne_str v "" = true.
Proof. by destruct v. Qed.

Lemma level_data_cases level :
  match level with
  | JObj _ => exists entry, Radiation.level_data level = Ok entry /\
                            level_of level entry
  | _ => Radiation.level_data level = Raise AttributeError
  end.
Proof.
  destruct level as [| | | | |fields]; try done.
  eexists. split; [reflexivity|]. eexists. split; [reflexivity|].
  split; [reflexivity|]. intros k source Hk.
  unfold level_fields in Hk.
  repeat (apply elem_of_cons in Hk as [[= -> ->]|Hk]; [reflexivity|]).
  by apply elem_of_nil in Hk.
Qed.

Lemma level_list_cases php_parsed :
  if forallb is_dict php_parsed then
    exists entries, Radiation.level_list php_parsed = Ok entries /\
                    Forall2 level_of php_parsed entries
  else Radiation.level_list php_parsed = Raise AttributeError.
Proof.
  induction php_parsed as [|level rest IH];
    cbn [Radiation.level_list forallb].
  - by exists [].
  - pose proof (level_data_cases level) as Hlevel.
    destruct (is_dict level) eqn:Hdict; cbn [andb].
    + destruct level; try done.
      destruct Hlevel as (entry & -> & Hof). cbn [rbind].
      destruct (forallb is_dict rest).
      * destruct IH as (entries & -> & Hall). cbn [rbind].
        exists (entry :: entries). split; [done|]. by constructor.
      * by rewrite IH.
    + destruct level; try done; by rewrite Hlevel.
Qed.

Section Levels.

Variable E : env.
Variable now : nat -> string.

(** What the body of the loop does with one item. *)
Lemma levels_item_cases i item j w :
  if sound E item then
    exists record lines fields title entries,
      Radiation.levels_item E now i item (j, w) = (Ok record, (j ++ lines, w)) /\
      record_of item record /\
      (INFO, LineProcessed record) ∈ lines /\
      Py.get item "node" (JObj []) = Ok (JObj fields) /\
      Py.getitem record "title" = Ok (JStr title) /\
      Py.getitem record "radiation_levels" = Ok (JArr entries) /\
      let php_data := default (JStr "") (Py.assoc "php" fields) in
      if Py.truthy php_data then
        match php_data with
        | JStr text =>
            match loads E text with
            | Some (JArr php_parsed) => Forall2 level_of php_parsed entries
            | Some php_parsed =>
                entries = [] /\
                (WARNING, LinePhpNotList title php_parsed) ∈ lines
            | None => entries = [] /\ (ERROR, LinePhpError title) ∈ lines
            end
        | _ => True
        end
      else entries = [] /\ (INFO, LinePhpMissing title) ∈ lines
  else
    exists e lines,
      Radiation.levels_item E now i item (j, w) = (Raise e, (j ++ lines, w)).
Proof.
  unfold sound, Radiation.levels_item. jrun.
  destruct (Py.get item "node" (JObj [])) as [node|e] eqn:Hnode; jrun;
    [|exists e, []; by rewrite app_nil_r].
  destruct node as [| | | | |fields];
    try (exists AttributeError, []; by rewrite app_nil_r).
  cbn [Py.get rbind].
  assert (Hd : forall d k,
             default d (Py.assoc k fields) =
             match Py.assoc k fields with Some x => x | None => d end)
    by (intros d k; by destruct (Py.assoc k fields)).
  rewrite !Hd.
  remember (match Py.assoc "title" fields with
            | Some x => x | None => JStr "Unknown" end) as t eqn:Ht.
  remember (match Py.assoc "field_period" fields with
            | Some x => x | None => JStr "Unknown" end) as p eqn:Hp.
  remember (match Py.assoc "php" fields with
            | Some x => x | None => JStr "" end) as php_data eqn:Hphp.
  destruct t as [| | |title| |];
    try (exists AttributeError, []; by rewrite app_nil_r).
  destruct p as [| | |period_str| |];
    try (exists AttributeError, []; by rewrite app_nil_r).
  cbn [is_text andb Radiation.strip Radiation.year_of].
  assert (Hrecord : forall record_fields,
    map fst record_fields = field_names ->
    (forall k, k ∈ copied ->
       Py.assoc k record_fields =
         Some (match Py.assoc k fields with
               | Some x => x | None => JStr "Unknown" end)) ->
    record_of item (JObj record_fields)).
  { intros rf Hnames Hcopied. exists (JObj fields), rf.
    split; [done|]. split; [done|]. split; [done|].
    intros k Hk. cbn [Py.getitem Py.get]. by rewrite (Hcopied k Hk). }
  assert (Hcopied : forall entries year k, k ∈ copied ->
    Py.assoc k
      (Py.assoc_set "radiation_levels" (JArr entries)
         [("title", JStr (Str.strip title));
          ("Nid", match Py.assoc "Nid" fields with
                  | Some x => x | None => JStr "Unknown" end);
          ("field_geo_point", match Py.assoc "field_geo_point" fields with
                              | Some x => x | None => JStr "Unknown" end);
          ("title_1", match Py.assoc "title_1" fields with
                      | Some x => x | None => JStr "Unknown" end);
          ("field_source", match Py.assoc "field_source" fields with
                           | Some x => x | None => JStr "Unknown" end);
          ("title_2", match Py.assoc "title_2" fields with
                      | Some x => x | None => JStr "Unknown" end);
          ("field_period", JStr period_str); ("year", JStr year);
          ("timestamp", JStr (now i))]) =
      Some (match Py.assoc k fields with
            | Some x => x | None => JStr "Unknown" end)).
  { intros entries year k Hk. unfold copied in Hk.
    repeat (apply elem_of_cons in Hk as [->|Hk];
            [first [reflexivity | by rewrite <- Hp]|]).
    by apply elem_of_nil in Hk. }
  unfold php_sound.
  destruct (extract_year period_str) as [year [l|]]; jrun.
  all: destruct (Py.truthy php_data) eqn:Htruthy;
    [rewrite (truthy_ne_empty _ Htruthy); cbn [andb];
     destruct php_data as [| | |text| |];
       try (eexists TypeError, _; rewrite <- ?app_assoc; reflexivity);
       try (exists TypeError, []; by rewrite app_nil_r);
     destruct (loads E text) as [[| | | |php_parsed|]|] eqn:Hloads; jrun;
       try (pose proof (level_list_cases php_parsed) as Hl;
            destruct (forallb is_dict php_parsed);
            [destruct Hl as (entries & -> & Hall)|rewrite Hl])
    |cbn [andb]; jrun].
  all: try (eexists AttributeError, _; rewrite <- ?app_assoc; reflexivity).
  all: try (exists AttributeError, []; by rewrite app_nil_r).
  all: do 5 eexists;
    (split; [rewrite <- ?app_assoc; reflexivity|]);
    (split; [apply Hrecord; [reflexivity|apply Hcopied]|]);
    (split; [cbn [app]; rewrite ?elem_of_cons; auto 10|]);
    (split; [reflexivity|]);
    (split; [reflexivity|]);
    (split; [reflexivity|]);
    cbv zeta; rewrite Hd, <- Hphp, ?Htruthy, ?Hloads; try done;
    (split; [done|cbn [app]; rewrite ?elem_of_cons; auto 10]).
Qed.

Lemma levels_outcome_mono lines lines' title php_data entries :
  lines ⊆ lines' ->
  levels_outcome E lines title php_data entries ->
  levels_outcome E lines' title php_data entries.
Proof.
  intros Hsub. unfold levels_outcome.
  repeat case_match; try done; intros [? ?]; split; auto.
Qed.

Lemma built_mono lines lines' item record :
  lines ⊆ lines' -> built E lines item record -> built E lines' item record.
Proof.
  intros Hsub (Hrec & Hline & fields & title & entries & ? & ? & ? & Hout).
  split; [done|]. split; [by apply Hsub|].
  exists fields, title, entries. repeat (split; [done|]).
  by eapply levels_outcome_mono.
Qed.

Lemma levels_items_cases items : forall i j w,
  if forallb (sound E) items then
    exists records lines,
      Radiation.levels_items E now i items (j, w) =
        (Ok records, (j ++ lines, w)) /\
      Forall2 (built E lines) items records
  else
    exists e lines,
      Radiation.levels_items E now i items (j, w) = (Raise e, (j ++ lines, w)).
Proof.
  induction items as [|item rest IH]; intros i j w;
    cbn [forallb Radiation.levels_items].
  - exists [], []. by rewrite app_nil_r.
  - jrun. pose proof (levels_item_cases i item j w) as Hitem.
    destruct (sound E item); cbn [andb].
    + destruct Hitem as (record & lines1 & fields & title & entries & -> &
                         Hrec & Hline & Hnode & Htitle & Hlevels & Hout).
      assert (Hbuilt : built E lines1 item record).
      { split; [done|]. split; [done|]. by exists fields, title, entries. }
      specialize (IH (S i) (j ++ lines1) w). jrun. unfold journal in *.
      destruct (forallb (sound E) rest).
      * destruct IH as (records & lines2 & Hrun & Hall).
        exists (record :: records), (lines1 ++ lines2).
        rewrite Hrun. split; [by rewrite app_assoc|]. constructor.
        -- eapply built_mono; [|exact Hbuilt].
           intros x Hx. apply elem_of_app. by left.
        -- eapply Forall2_impl; [exact Hall|].
           intros x y Hxy. eapply built_mono; [|exact Hxy].
           intros z Hz. apply elem_of_app. by right.
      * destruct IH as (e & lines2 & Hrun).
        exists e, (lines1 ++ lines2). by rewrite Hrun, app_assoc.
    + destruct Hitem as (e & lines & ->). by exists e, lines.
Qed.

End Levels.

(** X18. The loop of the levels endpoint returns one record per node, in
    the order of the nodes: a dict of ten fields whose "Nid",
    "field_geo_point", "title_1", "field_source", "title_2" and
    "field_period" are those of the node, "Unknown" for those that the node
    has not.  The world is left as it was and the journal only grows. *)
Theorem levels_one_record_per_node E now i items j w records s' :
  Radiation.levels_items E now i items (j, w) = (Ok records, s') ->
  Forall2 record_of items records /\
  snd s' = w /\
  exists lines,
    fst s' = j ++ lines /\
    Forall (fun record => (INFO, LineProcessed record) ∈ lines) records.
Proof.
  intros Hrun. pose proof (levels_items_cases E now items i j w) as Hcases.
  destruct (forallb (sound E) items).
  - destruct Hcases as (records' & lines & Hrun' & Hall).
    rewrite Hrun in Hrun'. injection Hrun' as -> ->.
    split; [|split; [done|exists lines; split; [done|]]].
    + eapply Forall2_impl; [exact Hall|]. by intros x y [? _].
    + clear -Hall. induction Hall as [|x y l l' [_ [Hy _]] _ IH];
        by constructor.
  - destruct Hcases as (e & lines & Hrun'). by rewrite Hrun in Hrun'.
Qed.

(** X19. A "php" that does not decode is isolated: when every item of the
    payload is sound, the loop returns its records, and the record of a
    node whose "php" is a text that [json.loads] rejects is among them,
    with no radiation levels and an error line for its title. *)
Theorem undecodable_php_keeps_the_record E now i items j w item fields text :
  forallb (sound E) items = true ->
  item ∈ items ->
  Py.get item "node" (JObj []) = Ok (JObj fields) ->
  Py.assoc "php" fields = Some (JStr text) ->
  text <> "" ->
  loads E text = None ->
  exists records lines record title,
    Radiation.levels_items E now i items (j, w) =
      (Ok records, (j ++ lines, w)) /\
    length records = length items /\
    record ∈ records /\
    record_of item record /\
    Py.getitem record "title" = Ok (JStr title) /\
    Py.getitem record "radiation_levels" = Ok (JArr []) /\
    (ERROR, LinePhpError title) ∈ lines.
Proof.
  intros Hsound Hitem Hnode Hphp Htext Hloads.
  pose proof (levels_items_cases E now items i j w) as Hcases.
  rewrite Hsound in Hcases. destruct Hcases as (records & lines & Hrun & Hall).
  apply list_elem_of_lookup_1 in Hitem as [n Hn].
  destruct (Forall2_lookup_l _ _ _ _ _ Hall Hn) as (record & Hr & Hbuilt).
  destruct Hbuilt as (Hrec & _ & fields' & title & entries & Hnode' & Htitle &
                      Hlevels & Hout).
  rewrite Hnode in Hnode'. injection Hnode' as <-.
  rewrite Hphp in Hout. unfold levels_outcome in Hout. cbn in Hout.
  destruct (String.eqb_spec text "") as [|_]; [done|]. cbn in Hout.
  rewrite Hloads in Hout. destruct Hout as [-> Hline].
  exists records, lines, record, title. split; [done|].
  split; [symmetry; by eapply Forall2_length|].
  split; [by eapply list_elem_of_lookup_2|]. done.
Qed.

(** X20. A "php" that decodes to a list of dicts gives one entry of
    "radiation_levels" per element, in order, with the fields "number",
    "level", "location" and "name" taken from "field_number_n",
    "field_yroven", "field_rasp_p" and "field_naimenovanie", "Unknown" for
    those that the element has not. *)
Theorem decoded_php_gives_the_levels E now i items j w item fields text
    php_parsed :
  forallb (sound E) items = true ->
  item ∈ items ->
  Py.get item "node" (JObj []) = Ok (JObj fields) ->
  Py.assoc "php" fields = Some (JStr text) ->
  text <> "" ->
  loads E text = Some (JArr php_parsed) ->
  exists records lines record entries,
    Radiation.levels_items E now i items (j, w) =
      (Ok records, (j ++ lines, w)) /\
    record ∈ records /\
    record_of item record /\
    Py.getitem record "radiation_levels" = Ok (JArr entries) /\
    Forall2 level_of php_parsed entries.
Proof.
  intros Hsound Hitem Hnode Hphp Htext Hloads.
  pose proof (levels_items_cases E now items i j w) as Hcases.
  rewrite Hsound in Hcases. destruct Hcases as (records & lines & Hrun & Hall).
  apply list_elem_of_lookup_1 in Hitem as [n Hn].
  destruct (Forall2_lookup_l _ _ _ _ _ Hall Hn) as (record & Hr & Hbuilt).
  destruct Hbuilt as (Hrec & _ & fields' & title & entries & Hnode' & Htitle &
                      Hlevels & Hout).
  rewrite Hnode in Hnode'. injection Hnode' as <-.
  rewrite Hphp in Hout. unfold levels_outcome in Hout. cbn in Hout.
  destruct (String.eqb_spec text "") as [|_]; [done|]. cbn in Hout.
  rewrite Hloads in Hout.
  exists records, lines, record, entries. split; [done|].
  split; [by eapply list_elem_of_lookup_2|]. done.
Qed.

(** X21. The loop returns records exactly when every item is sound: one
    item that is no dict, whose node is no dict, whose "title" or
    "field_period" is no text, whose "php" is truthy and no text, or
    decodes to a list with an element that is no dict, ends the loop with
    an exception, and the records built before it are lost with it. *)
Theorem levels_need_sound_items E now i items j w :
  (exists records s',
     Radiation.levels_items E now i items (j, w) = (Ok records, s')) <->
  forallb (sound E) items = true.
Proof.
  pose proof (levels_items_cases E now items i j w) as Hcases. split.
  - intros (records & s' & Hrun).
    destruct (forallb (sound E) items); [done|].
    destruct Hcases as (e & lines & Hrun'). by rewrite Hrun in Hrun'.
  - intros Hsound. rewrite Hsound in Hcases.
    destruct Hcases as (records & lines & Hrun & _). eauto.
Qed.


Lemma levels_one_record_per_node_witness :
  exists records s',
    Radiation.levels_items env_levels clock 0 levels_nodes ([], world0) =
      (Ok records, s') /\
    Forall2 record_of levels_nodes records /\
    snd s' = world0 /\
    exists lines,
      fst s' = [] ++ lines /\
      Forall (fun record => (INFO, LineProcessed record) ∈ lines) records.
Proof.
  eexists _, _. split; [by vm_compute|].
  apply (levels_one_record_per_node env_levels clock 0 levels_nodes []
           world0).
  by vm_compute.
Defined.

Lemma undecodable_php_keeps_the_record_witness :
  exists records lines record title,
    Radiation.levels_items env_levels clock 0 levels_nodes ([], world0) =
      (Ok records, ([] ++ lines, world0)) /\
    length records = length levels_nodes /\
    record ∈ records /\
    record_of
      (JObj [("node", JObj [("title", JStr "Post 3"); ("Nid", JStr "9");
                            ("php", JStr "garbled")])]) record /\
    Py.getitem record "title" = Ok (JStr title) /\
    Py.getitem record "radiation_levels" = Ok (JArr []) /\
    (ERROR, LinePhpError title) ∈ lines.
Proof.
  apply (undecodable_php_keeps_the_record env_levels clock 0 levels_nodes []
           world0 _
           [("title", JStr "Post 3"); ("Nid", JStr "9");
            ("php", JStr "garbled")] "garbled").
  - by vm_compute.
  - unfold levels_nodes. do 2 apply list_elem_of_further. apply list_elem_of_here.
  - reflexivity.
  - reflexivity.
  - discriminate.
  - reflexivity.
Defined.

Lemma decoded_php_gives_the_levels_witness :
  exists records lines record entries,
    Radiation.levels_items env_levels clock 0 levels_nodes ([], world0) =
      (Ok records, ([] ++ lines, world0)) /\
    record ∈ records /\
    record_of
      (JObj [("node", JObj [("title", JStr "Post 1"); ("Nid", JStr "7");
                            ("field_geo_point", JStr "A");
                            ("field_period", JStr "1 quarter 2020");
                            ("php", JStr "levels")])]) record /\
    Py.getitem record "radiation_levels" = Ok (JArr entries) /\
    Forall2 level_of
      [JObj [("field_number_n", JStr "1"); ("field_yroven", JStr "0.10")]]
      entries.
Proof.
  apply (decoded_php_gives_the_levels env_levels clock 0 levels_nodes []
           world0 _
           [("title", JStr "Post 1"); ("Nid", JStr "7");
            ("field_geo_point", JStr "A");
            ("field_period", JStr "1 quarter 2020");
            ("php", JStr "levels")] "levels").
  - by vm_compute.
  - unfold levels_nodes. apply list_elem_of_here.
  - reflexivity.
  - reflexivity.
  - discriminate.
  - reflexivity.
Defined.

(** ** RadiationParser: the endpoint and the cycle *)

(** X22. An answered request gives the records of the payload: when the
    first answer of the network is a JSON dict whose "nodes" is a list, the
    levels endpoint makes that one request, touches no file, and returns
    one record per item if every item is sound, an exception if not. *)
Theorem parse_endpoint_answered E now self api_name api_url j w status fields
    items :
  api_name ∈ Radiation.levels_apis ->
  1 <= retries self ->
  net E (requests w) = RespHttp status (BodyJson (JObj fields)) ->
  status < 400 ->
  Py.assoc "nodes" fields = Some (JArr items) ->
  exists r lines evs,
    Radiation._parse_endpoint E now self api_name api_url (j, w) =
      (r, (j ++ lines,
           World (fs w) (trace w ++ evs) (S (requests w)) (writes w))) /\
    requested evs = [api_url] /\
    if forallb (sound E) items then
      exists records, r = Ok records /\ Forall2 record_of items records
    else exists e, r = Raise e.
Proof.
  intros _ Hretries Hnet Hstatus Hnodes.
  unfold Radiation._parse_endpoint. jrun.
  rewrite (fetch_data_ok E self api_name api_url w status (JObj fields));
    try done; [|simpl; by rewrite Hnodes].
  assert (Htruthy : Py.truthy (JObj fields) = true)
    by (destruct fields; [done|done]).
  rewrite Htruthy. cbn [negb Py.getitem]. rewrite Hnodes. cbn [rbind Py.iter].
  match goal with
  | |- context [Radiation.levels_items E now 0 items (j, ?w1)] =>
      pose proof (levels_items_cases E now items 0 j w1) as Hcases
  end.
  destruct (forallb (sound E) items).
  - destruct Hcases as (records & lines & Hrun & Hall).
    exists (Ok records), lines. eexists. split; [exact Hrun|].
    split; [done|]. exists records. split; [done|].
    eapply Forall2_impl; [exact Hall|]. by intros x y [? _].
  - destruct Hcases as (e & lines & Hrun).
    exists (Raise e), lines. eexists. split; [exact Hrun|].
    split; [done|]. by exists e.
Qed.

Lemma parse_endpoint_answered_witness :
  exists r lines evs,
    Radiation._parse_endpoint env_levels clock Radiation.new
        "radiation_p_orsha_s" "https://orsha-ecokarta.gov.by/api/radiation_p_orsha_s"
        ([], world0) =
      (r, ([] ++ lines,
           World (fs world0) (trace world0 ++ evs) (S (requests world0))
                 (writes world0))) /\
    requested evs = ["https://orsha-ecokarta.gov.by/api/radiation_p_orsha_s"] /\
    if forallb (sound env_levels) levels_nodes then
      exists records, r = Ok records /\ Forall2 record_of levels_nodes records
    else exists e, r = Raise e.
Proof.
  apply (parse_endpoint_answered env_levels clock Radiation.new
           "radiation_p_orsha_s"
           "https://orsha-ecokarta.gov.by/api/radiation_p_orsha_s"
           [] world0 200 [("nodes", JArr levels_nodes)] levels_nodes).
  - apply list_elem_of_here.
  - by vm_compute.
  - reflexivity.
  - lia.
  - reflexivity.
Defined.

(** X23. Without an answer there are no records: on a network where every
    request times out, the levels endpoint requests its URL [retries]
    times, returns the empty list with one error line in the journal, and
    touches no file. *)
Theorem parse_endpoint_unanswered E now self api_name api_url j w :
  api_name ∈ Radiation.levels_apis ->
  1 <= retries self ->
  (forall i, (requests w <= i)%nat -> net E i = RespTimeout) ->
  exists evs,
    Radiation._parse_endpoint E now self api_name api_url (j, w) =
      (Ok [],
       (j ++ [(ERROR, LineFetchFailed api_name)],
        World (fs w) (trace w ++ evs)
              (requests w + Z.to_nat (retries self)) (writes w))) /\
    requested evs = replicate (Z.to_nat (retries self)) api_url.
Proof.
  intros _ Hretries Hnet.
  destruct (fetch_data_timeouts_run E self api_name api_url w Hretries Hnet)
    as (evs & Hfetch & Hreq).
  exists evs. split; [|done].
  unfold Radiation._parse_endpoint. jrun. by rewrite Hfetch.
Qed.

Lemma parse_endpoint_unanswered_witness :
  exists evs,
    Radiation._parse_endpoint env_timeouts clock Radiation.new
        "radiation_p_orsha_s" "u" ([], world0) =
      (Ok [],
       ([] ++ [(ERROR, LineFetchFailed "radiation_p_orsha_s")],
        World (fs world0) (trace world0 ++ evs)
              (requests world0 + Z.to_nat (retries Radiation.new))
              (writes world0))) /\
    requested evs = replicate (Z.to_nat (retries Radiation.new)) "u".
Proof.
  apply (parse_endpoint_unanswered env_timeouts clock Radiation.new
           "radiation_p_orsha_s" "u" [] world0).
  - apply list_elem_of_here.
  - by vm_compute.
  - reflexivity.
Defined.

(** *** The cycle after the endpoints *)

(** An initial merge raises nothing, makes no request, and stores the
    batch when it is not empty and the write goes through. *)
Lemma save_data_initial_run E self api_name data_type w :
  exists w',
    save_data E self api_name data_type true w = (Ok tt, w') /\
    requests w' = requests w /\
    (exists evs, trace w' = trace w ++ evs) /\
    (parsed_data self <> [] -> disk E (writes w) = WriteOk ->
     fs w' !! data_file self api_name data_type =
       Some (Stored (JArr (parsed_data self)))).
Proof.
  destruct (parsed_data self) as [|item batch] eqn:Hbatch.
  - unfold save_data. rewrite Hbatch. run. eexists. split; [done|].
    cbn [requests trace]. split; [done|]. split; [|done].
    rewrite <- app_assoc. eauto.
  - rewrite save_data_initial by (by rewrite Hbatch).
    eexists. split; [done|]. unfold written.
    destruct (disk E (writes w)); cbn [requests trace fs];
      (split; [done|]); (split; [eauto|]); intros _ Hdisk; try done.
    by rewrite Hbatch, lookup_insert_eq.
Qed.

Lemma union_spec b : forall a,
  Forall (keyed itself) b ->
  exists u,
    union a b = Ok u /\
    (forall k, Py.has_key k a = true \/ Py.has_key k b = true ->
               Py.has_key k u = true) /\
    (forall v, v ∈ u -> v ∈ a \/ v ∈ b).
Proof.
  induction b as [|v b IH]; intros a Hb; cbn [union].
  - exists a. split; [done|]. split; [by intros k [?|?]|by left].
  - apply Forall_cons in Hb as [[k Hk] Hb].
    unfold key_of, itself in Hk.
    destruct (Py.hash v) as [kv|] eqn:Hv; [|done].
    destruct (Py.set_add v a) as [a'|] eqn:Hadd;
      [|unfold Py.set_add in Hadd; by rewrite Hv in Hadd].
    destruct (set_add_takes _ _ _ Hadd) as (Hgrows & Hfrom & Hin).
    destruct (IH a' Hb) as (u & Hu & Hkeys & Hback).
    cbn [rbind]. exists u. split; [done|]. split.
    + intros k' [Ha|Hvb].
      * apply Hkeys. left. by apply Hgrows.
      * unfold Py.has_key in Hvb. cbn [existsb] in Hvb.
        apply orb_true_iff in Hvb as [Hhere|Hrest].
        -- apply bool_decide_eq_true in Hhere.
           apply Hkeys. left. by apply Hin.
        -- apply Hkeys. by right.
    + intros x Hx. destruct (Hback x Hx) as [Ha'|Hb'].
      * destruct (Hfrom x Ha') as [?| ->]; [by left|]. right. by left.
      * right. by right.
Qed.

Lemma format_hashable v k : Py.hash v = Ok k -> exists g, format v = Ok g.
Proof. destruct v as [|[]| | | |]; try done; intros _; by eexists. Qed.

(** The loop over the set on a network that only times out: it visits
    every geo point, or stops at one whose logger cannot be set up. *)
Lemma visit_timeouts E self initial_parse geo_points : forall j w,
  1 <= retries self ->
  (forall i, (requests w <= i)%nat -> net E i = RespTimeout) ->
  Forall (keyed itself) geo_points ->
  exists r evs n,
    Radiation.visit E self geo_points initial_parse (j, w) =
      (r, (j, World (fs w) (trace w ++ evs) (requests w + n) (writes w))) /\
    files_written evs = [] /\
    ((r = Ok tt /\
      forall v g, v ∈ geo_points -> format v = Ok g ->
                  point_url self g ∈ requested evs) \/
     (exists g e, logs E ("sources_values_" +:+ g) = Some e /\ r = Raise e)).
Proof.
  induction geo_points as [|v rest IH]; intros j w Hretries Hnet Hkeyed.
  - exists (Ok tt), [], 0%nat. cbn [Radiation.visit]. unfold jret.
    rewrite app_nil_r, Nat.add_0_r. split; [by destruct w|].
    split; [done|]. left. split; [done|].
    intros v g Hv. by apply elem_of_nil in Hv.
  - apply Forall_cons in Hkeyed as [[k Hk] Hkeyed].
    unfold key_of, itself in Hk.
    destruct (Py.hash v) as [kv|] eqn:Hv; [|done].
    destruct (format_hashable _ _ Hv) as [g Hg].
    cbn [Radiation.visit]. jrun. rewrite Hg.
    destruct (logs E ("sources_values_" +:+ g)) as [e|] eqn:Hlogs.
    { exists (Raise e), [], 0%nat.
      unfold parse_point_data, _setup_logging. run. rewrite Hlogs. run.
      rewrite app_nil_r, Nat.add_0_r. split; [by destruct w|].
      split; [done|]. right. by exists g, e. }
    destruct (fetch_data_timeouts_run E self ("sources_values_" +:+ g)
                (point_url self g) w Hretries Hnet) as (evs1 & Hfetch & Hreq1).
    rewrite (parse_point_data_empty _ _ _ _ _ Hlogs Hfetch).
    rewrite save_point_data_empty.
    unfold logged. jrun. cbn [fs trace requests writes fst snd].
    match goal with
    | |- context [Radiation.visit E self rest initial_parse (j, ?w1)] =>
        destruct (IH j w1) as (r & evs2 & n & Hrun & Hw2 & Hout)
    end; [done| |done|].
    { intros i Hi. apply Hnet. cbn [requests] in Hi. lia. }
    rewrite Hrun. cbn [fs trace requests writes].
    exists r, (evs1 ++ [EvLog INFO (MsgNoPointData g (point_url self g));
                        EvLog INFO (MsgNoPointToSave g)] ++ evs2),
           (Z.to_nat (retries self) + n)%nat.
    split; [|split].
    + f_equal. f_equal. f_equal; [by rewrite <- !app_assoc | lia].
    + unfold files_written in *. rewrite !omap_app, Hw2.
      cbn [omap]. simpl. rewrite ?app_nil_r.
      destruct (fetch_data_bounded_files E self ("sources_values_" +:+ g)
                  (point_url self g) w) as (r' & evs & Hrun' & Hfiles).
      rewrite Hrun' in Hfetch. injection Hfetch as _ Htr.
      apply app_inv_head in Htr. by subst.
    + destruct Hout as [[-> Hreq2]|Hstop]; [left|by right].
      split; [done|].
      intros x gx Hx Hgx. rewrite !requested_app.
      apply elem_of_cons in Hx as [-> |Hx].
      * rewrite Hg in Hgx. injection Hgx as <-.
        apply elem_of_app. left. rewrite Hreq1.
        destruct (Z.to_nat (retries self)) eqn:Hn; [lia|].
        apply list_elem_of_here.
      * apply elem_of_app. right. apply elem_of_app. right. by eapply Hreq2.
Qed.

(** Discovery in a category other than "water", on any world. *)
Lemma extract_listing_run self data_type w :
  category self <> "water" ->
  exists s evs,
    extract_geo_points self data_type w = (Ok s, logged w evs) /\
    discovered s /\
    (forall filename items,
       Py.substr_of "/" filename = false ->
       Py.endswith filename ("_" +:+ data_type +:+ ".json") = true ->
       fs w !! path_join (category self) filename = Some (Stored (JArr items)) ->
       Forall (clean other_value) items ->
       forall item v k, item ∈ items -> other_value item = Some v ->
                        Py.hash v = Ok k -> Py.has_key k s = true).
Proof.
  intros Hother. unfold extract_geo_points, listdir. run.
  destruct (String.eqb_spec (category self) "water") as [|_]; [done|]. run.
  set (listing := omap (fun p => entry_of (category self) p.1)
                       (map_to_list (fs w))).
  destruct (scan_listing_scanning self data_type listing [] w discovered_nil)
    as (s & evs & Hrun & Hdisc).
  destruct (scan_listing_takes self data_type listing [] w)
    as (s' & evs' & Hrun' & _ & _ & Hin).
  rewrite Hrun in Hrun'. injection Hrun' as <- Hevs. rewrite Hrun.
  exists s, (evs ++ [EvLog INFO (MsgGeoPointTotal (category self) (length s))]).
  split; [unfold logged; cbn [fs trace requests writes]; by rewrite app_assoc|].
  split; [done|].
  intros filename items Hflat Hsuffix Hfile Hclean item v k Hitem Hval Hk.
  eapply (Hin filename items); try done.
  apply list_elem_of_omap.
  exists (path_join (category self) filename, Stored (JArr items)).
  split; [by apply elem_of_map_to_list|].
  by apply entry_of_child.
Qed.

(** The persistence loop in initial mode: nothing is raised, no request
    is made, and the result of the last endpoint is stored. *)
Lemma persist_initial E front : forall self j w api_name api_url result,
  exists j' w' self',
    Radiation.persist E self (front ++ [(api_name, api_url, Ok result)]) true
        (j, w) = (Ok self', (j', w')) /\
    category self' = category self /\
    retries self' = retries self /\
    base_url self' = base_url self /\
    requests w' = requests w /\
    (exists evs, trace w' = trace w ++ evs) /\
    (result <> [] -> (forall i, disk E i = WriteOk) ->
     fs w' !! data_file self api_name (Radiation.data_type api_name) =
       Some (Stored (JArr result))).
Proof.
  induction front as [|[[name url] [records|e]] front IH];
    intros self j w api_name api_url result; cbn [app Radiation.persist].
  - jrun.
    destruct (save_data_initial_run E (Radiation.with_parsed_data self result)
                api_name (Radiation.data_type api_name) w)
      as (w1 & -> & Hreq & Htrace & Hfile).
    exists j, w1, (Radiation.with_parsed_data self result).
    repeat (split; [done|]). intros Hne Hdisk. by apply Hfile.
  - jrun.
    destruct (save_data_initial_run E (Radiation.with_parsed_data self records)
                name (Radiation.data_type name) w)
      as (w1 & -> & Hreq & [evs1 Htrace] & _).
    destruct (IH (Radiation.with_parsed_data self records) j w1
                api_name api_url result)
      as (j' & w' & self' & Hrun & Hcat & Hret & Hbase & Hreq' &
          [evs2 Htrace'] & Hfile).
    exists j', w', self'. split; [exact Hrun|].
    repeat (split; [done|]). split; [congruence|].
    split; [exists (evs1 ++ evs2); by rewrite Htrace', Htrace, app_assoc|].
    exact Hfile.
  - jrun.
    destruct (IH self (j ++ [(ERROR, LineApiError name e)]) w
                api_name api_url result)
      as (j' & w' & self' & Hrun & Hrest).
    exists j', w', self'. by split.
Qed.

(** X24. What an initial cycle harvests, it visits: whatever the task of
    the place endpoint gave, records or an exception, the records of the
    levels endpoint (dicts with hashable geo points) are stored when the
    writes go through, discovery finds the geo point of each of them in
    the file just written, and, here on a network that no longer answers,
    either the cycle ends normally and the URL of every such point that
    is a text has been requested in it, or the cycle ends with the
    exception that [logging.FileHandler] raised for the logger of a geo
    point. *)
Theorem cycle_requests_harvested_points E self place_result levels item g j w :
  category self = "radiation" ->
  1 <= retries self ->
  (forall i, disk E i = WriteOk) ->
  (forall i, (requests w <= i)%nat -> net E i = RespTimeout) ->
  Forall (clean other_value) levels ->
  item ∈ levels ->
  other_value item = Some (JStr g) ->
  exists r j' w' evs,
    Radiation.parse_tail E self [place_result; Ok levels] true (j, w) =
      (r, (j', w')) /\
    trace w' = trace w ++ evs /\
    fs w' !! data_file self "radiation_p_orsha_s" "levels" =
      Some (Stored (JArr levels)) /\
    ((r = Ok tt /\ point_url self g ∈ requested evs) \/
     (exists g' e, logs E ("sources_values_" +:+ g') = Some e /\ r = Raise e)).
Proof.
  intros Hcat Hretries Hdisk Hnet Hclean Hitem Hval.
  unfold Radiation.parse_tail.
  change (zip Radiation.api_endpoints [place_result; Ok levels]) with
    ([("radiation_p_orsha",
       "https://orsha-ecokarta.gov.by/api/radiation_p_orsha", place_result)] ++
     [("radiation_p_orsha_s",
       "https://orsha-ecokarta.gov.by/api/radiation_p_orsha_s", Ok levels)]).
  destruct (persist_initial E
              [("radiation_p_orsha",
                "https://orsha-ecokarta.gov.by/api/radiation_p_orsha",
                place_result)]
              self j w "radiation_p_orsha_s"
              "https://orsha-ecokarta.gov.by/api/radiation_p_orsha_s" levels)
    as (j1 & w1 & self1 & Hrun1 & Hcat1 & Hret1 & Hbase1 & Hreq1 &
        [evs1 Htr1] & Hfile1).
  assert (Hne : levels <> []) by (intros ->; by apply elem_of_nil in Hitem).
  specialize (Hfile1 Hne Hdisk).
  assert (Hother : category self1 <> "water") by (by rewrite Hcat1, Hcat).
  jrun. rewrite Hrun1. jrun.
  destruct (extract_listing_run self1 "place" w1 Hother)
    as (places & evs2 & Hrun2 & Hdisc2 & _).
  rewrite Hrun2. jrun.
  destruct (extract_listing_run self1 "levels" (logged w1 evs2) Hother)
    as (found & evs3 & Hrun3 & Hdisc3 & Hin3).
  rewrite Hrun3. jrun.
  destruct Hdisc2 as (Hkeyed2 & _ & _). destruct Hdisc3 as (Hkeyed3 & _ & _).
  destruct (union_spec found places Hkeyed3) as (u & Hu & Hkeys & Hback).
  rewrite Hu. jrun.
  assert (Hkeyed : Forall (keyed itself) u).
  { apply Forall_forall. intros v Hv.
    destruct (Hback v Hv) as [Hp|Hl];
      [eapply Forall_forall in Hkeyed2|eapply Forall_forall in Hkeyed3]; eauto. }
  unfold logged. cbn [fs trace requests writes].
  match goal with
  | |- context [Radiation.visit E self1 u true (?j2, ?w3)] =>
      destruct (visit_timeouts E self1 true u j2 w3)
        as (r & evs4 & n & Hrun4 & _ & Hout)
  end; [lia| |done|].
  { intros i Hi. apply Hnet. cbn [requests] in Hi. lia. }
  unfold journal in *. rewrite Hrun4. cbn [fs trace requests writes].
  eexists r, _, _, (evs1 ++ evs2 ++ evs3 ++ evs4).
  split; [reflexivity|]. cbn [fs trace requests writes].
  split; [by rewrite Htr1, <- !app_assoc|]. split.
  - rewrite <- Hfile1. unfold Radiation.data_type. done.
  - destruct Hout as [[-> Hreq4]|Hstop]; [left|by right]. split; [done|].
    assert (Hg : Py.has_key (Py.KStr g) found = true).
    { eapply (Hin3 "radiation_p_orsha_s_levels.json" levels); try done.
      cbn [fs]. rewrite <- Hfile1. f_equal.
      unfold path_join, data_file. by rewrite Hcat1. }
    assert (Hgu : Py.has_key (Py.KStr g) u = true) by (apply Hkeys; by right).
    apply has_key_true in Hgu as (v & Hv & Hhash).
    assert (v = JStr g) as ->.
    { destruct v as [|[]| | | |]; try done. by injection Hhash as ->. }
    rewrite !requested_app.
    do 3 (apply elem_of_app; right).
    unfold point_url in *. rewrite <- Hbase1. by apply (Hreq4 (JStr g)).
Qed.

Lemma cycle_requests_harvested_points_witness :
  exists r j' w' evs,
    Radiation.parse_tail env_timeouts Radiation.new
        [Raise TypeError; Ok [geo "A"]] true ([], world0) =
      (r, (j', w')) /\
    trace w' = trace world0 ++ evs /\
    fs w' !! data_file Radiation.new "radiation_p_orsha_s" "levels" =
      Some (Stored (JArr [geo "A"])) /\
    ((r = Ok tt /\ point_url Radiation.new "A" ∈ requested evs) \/
     (exists g' e,
        logs env_timeouts ("sources_values_" +:+ g') = Some e /\ r = Raise e)).
Proof.
  apply (cycle_requests_harvested_points env_timeouts Radiation.new
           (Raise TypeError) [geo "A"] (geo "A") "A" [] world0).
  - reflexivity.
  - by vm_compute.
  - reflexivity.
  - reflexivity.
  - constructor; [|constructor]. split; [by eexists|].
    intros v [= <-]. by eexists.
  - apply list_elem_of_here.
  - reflexivity.
Defined.

(** The scenario of X24: the failed task of the place endpoint leaves a
    line in the journal, the levels are stored, one geo point is found and
    its URL requested three times. *)
Example cycle_scenario :
  let out := Radiation.parse_tail env_timeouts Radiation.new
               [Raise TypeError; Ok [geo "A"]] true ([], world0) in
  fst out = Ok tt /\
  fst (snd out) = [(ERROR, LineApiError "radiation_p_orsha" TypeError);
                   (INFO, LineGeoPoints 1 "radiation")] /\
  requested (trace (snd (snd out))) =
    replicate 3 "https://orsha-ecokarta.gov.by/api/sources_values?geo_point=A" /\
  files_written (trace (snd (snd out))) =
    ["radiation/radiation_p_orsha_s_levels.json"].
Proof. by vm_compute. Qed.

(** An incremental merge into a snapshot that holds a record without a
    usable "Nid". *)
Lemma save_data_blocked E self api_name data_type w existing :
  parsed_data self <> [] ->
  fs w !! data_file self api_name data_type = Some (Stored (JArr existing)) ->
  Exists (fun item => ~ keyed nid item) existing ->
  exists e,
    save_data E self api_name data_type false w =
      (Raise e, logged w [EvOpenRead (data_file self api_name data_type)]) /\
    lookup_error e.
Proof.
  intros Hbatch Hfile Hbad.
  destruct (set_of_raises nid existing [] nid_lookup_error Hbad)
    as (e & Hraise & He).
  exists e. split; [|done]. unfold save_data.
  destruct (parsed_data self) as [|item batch]; [done|].
  repeat progress
    (cbn [Py.iter]; rewrite ?Hfile, ?exists_Some, ?Hraise; run).
  unfold logged. by rewrite <- ?app_assoc.
Qed.

(** X25. An exception of a merge ends the cycle of the category: in
    incremental mode, when the snapshot of the place endpoint holds a
    record without a usable "Nid", [parse] raises at that endpoint; the
    result of the levels endpoint is not stored, nothing is discovered and
    no point is requested. *)
Theorem cycle_stops_at_blocked_collection E self places rest existing j w :
  places <> [] ->
  fs w !! data_file self "radiation_p_orsha" "place" =
    Some (Stored (JArr existing)) ->
  Exists (fun item => ~ keyed nid item) existing ->
  exists e,
    Radiation.parse_tail E self (Ok places :: rest) false (j, w) =
      (Raise e,
       (j, logged w [EvOpenRead (data_file self "radiation_p_orsha" "place")]))
    /\ lookup_error e.
Proof.
  intros Hplaces Hfile Hbad.
  destruct (save_data_blocked E (Radiation.with_parsed_data self places)
              "radiation_p_orsha" "place" w existing Hplaces Hfile Hbad)
    as (e & Hrun & He).
  exists e. split; [|done].
  unfold Radiation.parse_tail, Radiation.api_endpoints.
  cbn [zip zip_with Radiation.persist]. jrun.
  change (Radiation.data_type "radiation_p_orsha") with "place".
  by rewrite Hrun.
Qed.

Lemma cycle_stops_at_blocked_collection_witness :
  exists e,
    Radiation.parse_tail env_timeouts Radiation.new
        (Ok [record 1] :: [Ok [geo "A"]]) false
        ([], world_with "radiation/radiation_p_orsha_place.json"
                        (Stored (JArr [geo "B"]))) =
      (Raise e,
       ([], logged (world_with "radiation/radiation_p_orsha_place.json"
                               (Stored (JArr [geo "B"])))
              [EvOpenRead (data_file Radiation.new "radiation_p_orsha" "place")]))
    /\ lookup_error e.
Proof.
  apply (cycle_stops_at_blocked_collection env_timeouts Radiation.new
           [record 1] [Ok [geo "A"]] [geo "B"] []
           (world_with "radiation/radiation_p_orsha_place.json"
                       (Stored (JArr [geo "B"])))).
  - discriminate.
  - reflexivity.
  - apply Exists_cons_hd. intros [k Hk]. by vm_compute in Hk.
Defined.
